(** * Zipline upload handler: chunked reassembly, ingestion and rate limiting

    A shallow embedding of the upload API handler (the [handler] function of
    the upload route) and theorems relating it to the written specification.

    The handler is asynchronous JavaScript over several collaborators (the
    Prisma client, the datasource, the temporary directory of the host).  The
    embedding threads an explicit [World] through a small state monad with an
    exit (a response that was sent, or an exception that was thrown).  Each
    [await] is sequential in the source and a request is handled without
    interleaving with another one here.

    The database, the blob store and the image library answer every call: a
    failure of theirs is not modelled, nor are the log lines.  The exceptions
    that the handler's own statements raise (a property read on [undefined],
    a typed-array allocation or copy out of range) are, and so is the host
    refusing to write the file of a chunk.  The host is a POSIX one: the
    path of a chunk is joined and normalised as [path.join] does there, so
    an identifier with a path separator may name a file that is no entry of
    the temporary directory, or the file of another upload.  Numbers are
    the integers and [NaN], a fragment of the doubles of the runtime: a
    statement that depends on a number read from the request or from a file
    name says for which strings the fragment reads what the runtime reads.
    The middleware ([withZipline] around the handler, multer inside the
    [run] helper) is not among the sources: the request is taken as multer
    leaves it. *)

From Stdlib Require Import ZArith String Ascii List.
From Stdlib Require Import Decimal DecimalString DecimalPos DecimalZ.
From Stdlib.Strings Require Byte.
From stdpp Require Import gmap strings list fin_maps.

Local Open Scope Z_scope.

(** ** The fragment of the JavaScript runtime the handler uses *)

Module JS.

(** Contents of files and buffers. *)
Abbreviation bytes := (list Byte.byte).

#[global] Instance byte_eq_dec : EqDecision Byte.byte := Strings.Byte.byte_eq_dec.

(** Numbers.  The handler only ever computes with integers and [NaN]; a value
    of type [option jsnum] is used where the source can also hold [undefined]
    (a missing array element) or [null]. *)
Inductive jsnum : Type :=
  | NaN
  | Num (z : Z).

#[global] Instance jsnum_eq_dec : EqDecision jsnum.
Proof. solve_decision. Defined.

(** [Number(s)], on a fragment of the strings: the empty string is [0], an
    optionally signed run of decimal digits is its value, and everything else
    is taken to be [NaN].  The runtime computes with doubles and reads more
    literals than these (fractions, exponents, radix prefixes, a leading
    [+], surrounding white space, [Infinity]); [exact] below says on which
    strings it reads what this fragment reads, and the statements that
    depend on a number read from the request or from a file name are made
    for such strings. *)
Definition Number (s : string) : jsnum :=
  if String.eqb s "" then Num 0
  else match NilZero.int_of_string s with
       | Some d => Num (Z.of_int d)
       | None => NaN
       end.

(** An integer is a double, and its decimal form is what [String] gives,
    when it is below 2^53 in absolute value; beyond, the runtime rounds. *)
Definition safe (z : Z) : bool := (- 2 ^ 53 <? z) && (z <? 2 ^ 53).

(** A string is read as [NaN] by the runtime too when it begins with a
    printable character that begins no numeric literal, or holds a printable
    character that occurs in none (the digits, the signs, the point, the
    exponent and radix letters, the hexadecimal digits and the letters of
    [Infinity] occur in some). *)
Definition printable (a : ascii) : bool :=
  let n := nat_of_ascii a in (33 <=? n)%nat && (n <=? 126)%nat.

Fixpoint occurs (a : ascii) (s : string) : bool :=
  match s with
  | EmptyString => false
  | String b s' => Ascii.eqb a b || occurs a s'
  end.

Fixpoint holds (p : ascii -> bool) (s : string) : bool :=
  match s with
  | EmptyString => false
  | String a s' => p a || holds p s'
  end.

Definition begins_no_literal (a : ascii) : bool :=
  printable a && negb (occurs a "0123456789+-.I").

Definition in_no_literal (a : ascii) : bool :=
  printable a && negb (occurs a "0123456789+-.eExXoObBaAcCdDfFInity").

Definition surely_NaN (s : string) : bool :=
  match s with
  | EmptyString => false
  | String a _ => begins_no_literal a || holds in_no_literal s
  end.

(** [Number s] is what the runtime reads from [s]: an integer below 2^53 in
    absolute value, or [NaN] from a string of which that is certain. *)
Definition exact (s : string) : bool :=
  match Number s with
  | Num z => safe z
  | NaN => surely_NaN s
  end.

(** [Number(x)] where [x] may be [undefined]. *)
Definition Number_opt (x : option string) : jsnum :=
  match x with
  | Some s => Number s
  | None => NaN
  end.

(** [String(n)], as used by template literals: the decimal form (JavaScript
    switches to the exponent form from 10^21 on, which no byte offset
    reaches). *)
Definition toString (n : jsnum) : string :=
  match n with
  | NaN => "NaN"
  | Num z => NilZero.string_of_int (Z.to_int z)
  end.

(** [`${x}`] for a number that may be [undefined]. *)
Definition tpl_num (x : option jsnum) : string :=
  match x with
  | Some n => toString n
  | None => "undefined"
  end.

(** [`${x}`] for a string that may be [undefined]. *)
Definition tpl (x : option string) : string :=
  match x with
  | Some s => s
  | None => "undefined"
  end.

(** Truthiness of a header value: a missing header and the empty string are
    falsy. *)
Definition truthy (x : option string) : bool :=
  match x with
  | Some s => negb (String.eqb s "")
  | None => false
  end.

(** [ToIntegerOrInfinity], on this fragment. *)
Definition ToIntegerOrInfinity (n : jsnum) : Z :=
  match n with
  | NaN => 0
  | Num z => z
  end.

(** [s.split(c)] for a one-character separator. *)
Fixpoint split (c : ascii) (s : string) : list string :=
  match s with
  | EmptyString => [EmptyString]
  | String a s' =>
      if Ascii.eqb a c then EmptyString :: split c s'
      else match split c s' with
           | x :: r => String a x :: r
           | [] => [String a EmptyString]
           end
  end.

(** [path.join(base, name)] on a POSIX host, for a [base] that is absolute
    and normalised.  A path is the list of its segments below the root: the
    segments of [name] are applied to [base] in turn, an empty segment and
    [.] stay, [..] steps up and the root is its own parent.  ([walk] holds
    the directory reached so far with its last segment first.  The names the
    handler joins do not end in a separator.) *)
Fixpoint walk (up : list string) (segs : list string) : list string :=
  match segs with
  | [] => up
  | seg :: rest =>
      if String.eqb seg "" || String.eqb seg "." then walk up rest
      else if String.eqb seg ".." then walk (tail up) rest
      else walk (seg :: up) rest
  end.

Definition join (base : list string) (name : string) : list string :=
  rev (walk (rev base) (split "/" name)).

(** [xs.pop()] on a fresh array: its last element. *)
Definition pop (xs : list string) : option string := last xs.

(** [s.startsWith(p)]. *)
Definition startsWith (s p : string) : bool := String.prefix p s.

(** [s.replace(pat, rep)] for a string pattern: the first occurrence only.
    The replacements of the handler contain no [$]. *)
Fixpoint replace (pat rep s : string) : string :=
  if String.prefix pat s
  then rep +:+ String.substring (String.length pat)
                                (String.length s - String.length pat)%nat s
  else match s with
       | EmptyString => EmptyString
       | String a s' => String a (replace pat rep s')
       end.

(** [s.toUpperCase()] on ASCII letters. *)
Definition upper_ascii (a : ascii) : ascii :=
  let n := nat_of_ascii a in
  if (97 <=? n)%nat && (n <=? 122)%nat then ascii_of_nat (n - 32) else a.

Fixpoint toUpperCase (s : string) : string :=
  match s with
  | EmptyString => EmptyString
  | String a s' => String (upper_ascii a) (toUpperCase s')
  end.

(** Exceptions the runtime raises in the handler's own statements, and the
    errors of the file system. *)
Inductive exn : Type :=
  | TypeError
  | RangeError
  | ENOENT
  | SystemError (code : string).

(** [new Uint8Array(n)]: [n] zero bytes.  A negative length, a length above
    2^53 - 1 and a length above [limit], the longest typed array the host
    allocates, are a [RangeError].  [undefined] and [NaN] give the empty
    array. *)
Definition new_Uint8Array (limit : Z) (n : option jsnum) : exn + bytes :=
  match n with
  | Some (Num z) => if (z <? 0) || (Z.min limit (2 ^ 53 - 1) <? z) then inl RangeError
                    else inr (replicate (Z.to_nat z) Byte.x00)
  | _ => inr []
  end.

(** [target.set(src, offset)]: copies [src] into [target] from [offset];
    [RangeError] when the offset is negative or [src] does not fit. *)
Definition Uint8Array_set (target src : bytes) (offset : jsnum) : exn + bytes :=
  let off := ToIntegerOrInfinity offset in
  if off <? 0 then inl RangeError
  else if Z.of_nat (length target) <? off + Z.of_nat (length src) then inl RangeError
  else inr (take (Z.to_nat off) target ++ src
            ++ drop (Z.to_nat off + length src)%nat target).

End JS.
Import JS.


(** ** Data model *)

(** The members of the Prisma enum [ImageFormat].  The Prisma schema is not
    among the sources; the members are the four cases of the handler's
    [switch (format)]. *)
Inductive ImageFormat : Type :=
  | RANDOM
  | DATE
  | UUID
  | NAME.

#[global] Instance ImageFormat_eq_dec : EqDecision ImageFormat.
Proof. solve_decision. Defined.

(** [Object.keys(ImageFormat)] and [ImageFormat[key]]. *)
Definition ImageFormat_keys : list string := ["UUID"; "DATE"; "RANDOM"; "NAME"].

Definition ImageFormat_get (key : string) : option ImageFormat :=
  if String.eqb key "RANDOM" then Some RANDOM
  else if String.eqb key "DATE" then Some DATE
  else if String.eqb key "UUID" then Some UUID
  else if String.eqb key "NAME" then Some NAME
  else None.

(** A row of [prisma.user]. *)
Module User.
Record t : Type := mk {
  id : Z;
  username : string;
  token : string;
  administrator : bool;
  ratelimit : option Z;          (* a [Date], in milliseconds; [None] is null *)
  domains : list string
}.
End User.

(** A row of [prisma.image]: the File Record. [mimetype] is [None] when the
    handler passes [undefined]; [format] is [None] when it passes [false]. *)
Module Image.
Record t : Type := mk {
  id : Z;
  file : string;
  mimetype : option string;
  userId : Z;
  embed : bool;
  format : option ImageFormat;
  password : option string;
  expires_at : option Z;
  maxViews : option jsnum
}.
End Image.

(** A row of [prisma.invisibleImage]. *)
Module InvisibleImage.
Record t : Type := mk {
  invis : string;
  imageId : Z
}.
End InvisibleImage.

(** A file parsed by multer (memory storage). *)
Module MulterFile.
Record t : Type := mk {
  originalname : string;
  mimetype : string;
  buffer : bytes
}.
Definition size (f : t) : Z := Z.of_nat (length (buffer f)).
End MulterFile.

(** The request after [uploader.array('file')] has run: [files] is [None] when
    multer left [req.files] undefined.  Header names are lower case. *)
Record NextApiReq : Type := {
  method : string;
  headers : gmap string string;
  files : option (list MulterFile.t)
}.

(** What the handler sends. *)
Inductive NextApiRes : Type :=
  | forbid (msg : string)
  | error (msg : string)
  | ratelimited (remaining : Z)
  | json_files (files : list string) (expires_at : option Z)
  | json_success.

(** [zconfig] (lib/config is not among the sources): the fields the handler
    reads. *)
Record Config : Type := {
  core_https : bool;
  uploader_route : string;
  uploader_length : Z;
  uploader_format_date : string;
  uploader_admin_limit : Z;
  uploader_user_limit : Z;
  uploader_disabled_extensions : list string;
  ratelimit_admin : Z;
  ratelimit_user : Z;
  discord_upload : bool
}.

(** What the collaborators and the host answer.  The helpers of lib/util, the
    expiry parser, dayjs, sharp, the clock, the random sources, the order in
    which the host enumerates a directory, where its temporary directory is,
    which writes its file system refuses and how long a typed array it
    allocates are not among the sources; they are parameters of the handler.
    The first argument of the random helpers is the index of the file being
    ingested ([0] on the chunked path), so that distinct calls may answer
    differently. *)
Record Env : Type := {
  parseExpiry : string -> option Z;
  randomChars : nat -> Z -> string;
  dayjs_format : nat -> string -> string;
  randomUUID : nat -> string;
  hashPassword : nat -> string -> string;
  sharp_jpeg : Z -> bytes -> bytes;
  createInvis_chars : nat -> Z -> string;
  Math_random_index : nat -> nat -> nat;
  Date_now_entry : Z;               (* [Date.now()] at the cooldown check *)
  Date_now_exit : Z;                (* [Date.now()] when the cooldown is armed *)
  readdir_order : list string -> list string;
  os_tmpdir : list string;          (* the segments of [os.tmpdir()] *)
  fs_refuses : list string -> option exn;
                                    (* the error of a write the host refuses:
                                       a missing directory, a name too long *)
  typed_array_limit : Z
}.

(** Calls that reach the database, the blob store or the webhook, in the
    order the handler makes them. *)
Inductive Event : Type :=
  | EvImageCreate (img : Image.t)
  | EvInvisCreate (inv : InvisibleImage.t)
  | EvSave (name : string) (data : bytes)
  | EvUserUpdate (uid : Z) (ratelimit : option Z)
  | EvSendUpload (url : string).

(** Everything the handler reads and writes outside the request.  [tmpdir]
    holds the regular files that are entries of [os.tmpdir()]; the handler
    creates no directory.  A write whose path is not an entry of that
    directory is kept, with its path, in [outside]. *)
Record World : Type := {
  tmpdir : gmap string bytes;               (* files of [os.tmpdir()] by name *)
  users : list User.t;                      (* [prisma.user] *)
  images : list Image.t;                    (* [prisma.image] *)
  invisibles : list InvisibleImage.t;       (* [prisma.invisibleImage] *)
  datasource : gmap string bytes;           (* the blob store *)
  trace : list Event;
  outside : list (list string * bytes)      (* writes that fell elsewhere *)
}.

(** ** The handler monad: state, with an exit *)

Inductive Outcome : Type :=
  | Responded (r : NextApiRes)
  | Thrown (e : exn).

Inductive Step (A : Type) : Type :=
  | Next (a : A)
  | Exit (o : Outcome).
Arguments Next {A} a.
Arguments Exit {A} o.

Definition M (A : Type) : Type := World -> World * Step A.

#[global] Instance M_ret : MRet M := fun A (a : A) w => (w, Next a).

#[global] Instance M_bind : MBind M := fun A B (k : A -> M B) (m : M A) w =>
  match m w with
  | (w', Next a) => k a w'
  | (w', Exit o) => (w', Exit o)
  end.

(** [return res.xxx(...)]. *)
Definition respond {A} (r : NextApiRes) : M A := fun w => (w, Exit (Responded r)).

Definition throw {A} (e : exn) : M A := fun w => (w, Exit (Thrown e)).

Definition lift_exn {A} (x : exn + A) : M A :=
  match x with
  | inl e => throw e
  | inr a => mret a
  end.

Definition emit (e : Event) (w : World) : World :=
  {| tmpdir := tmpdir w; users := users w; images := images w;
     invisibles := invisibles w; datasource := datasource w;
     trace := trace w ++ [e]; outside := outside w |}.

(** *** Collaborators *)

(** The entry of the directory [base] a path names, if it names one. *)
Definition entry_of (base path : list string) : option string :=
  match last path with
  | Some name => if bool_decide (path = base ++ [name]) then Some name else None
  | None => None
  end.

(** [fs.writeFile(path, data)].  The host may refuse the write; a write it
    accepts creates or replaces the entry of the temporary directory the
    path names, and falls outside that directory when it names none. *)
Definition writeFile (env : Env) (path : list string) (data : bytes) : M unit := fun w =>
  match fs_refuses env path with
  | Some e => (w, Exit (Thrown e))
  | None =>
      match entry_of (os_tmpdir env) path with
      | Some name =>
          ({| tmpdir := <[name := data]> (tmpdir w); users := users w;
              images := images w; invisibles := invisibles w;
              datasource := datasource w; trace := trace w;
              outside := outside w |}, Next tt)
      | None =>
          ({| tmpdir := tmpdir w; users := users w;
              images := images w; invisibles := invisibles w;
              datasource := datasource w; trace := trace w;
              outside := outside w ++ [(path, data)] |}, Next tt)
      end
  end.

(** [fs.readFile], [fs.unlink] and [fs.readdir] on the temporary directory.
    The loop reads and deletes [join(tmpdir(), name)] for names that the
    listing of the directory returned: the path is the entry [name]. *)

Definition readFile (name : string) : M bytes := fun w =>
  match tmpdir w !! name with
  | Some data => (w, Next data)
  | None => (w, Exit (Thrown ENOENT))
  end.

Definition unlink (name : string) : M unit := fun w =>
  match tmpdir w !! name with
  | Some _ =>
      ({| tmpdir := delete name (tmpdir w); users := users w;
          images := images w; invisibles := invisibles w;
          datasource := datasource w; trace := trace w; outside := outside w |}, Next tt)
  | None => (w, Exit (Thrown ENOENT))
  end.

Definition readdir (env : Env) : M (list string) := fun w =>
  (w, Next (readdir_order env (map fst (map_to_list (tmpdir w))))).

(** [prisma.user.findFirst({ where: { token } })]. *)
Definition user_findFirst (tok : string) (w : World) : option User.t :=
  List.find (fun u => String.eqb (User.token u) tok) (users w).

(** [prisma.user.update({ where: { id }, data: { ratelimit } })]. *)
Definition set_ratelimit (uid : Z) (r : option Z) (u : User.t) : User.t :=
  if Z.eqb (User.id u) uid
  then User.mk (User.id u) (User.username u) (User.token u)
               (User.administrator u) r (User.domains u)
  else u.

Definition user_update (uid : Z) (r : option Z) : M unit := fun w =>
  (emit (EvUserUpdate uid r)
     {| tmpdir := tmpdir w; users := map (set_ratelimit uid r) (users w);
        images := images w; invisibles := invisibles w;
        datasource := datasource w; trace := trace w; outside := outside w |}, Next tt).

(** [prisma.image.create({ data })]: the row gets the next identifier and is
    returned. *)
Definition image_create (file : string) (mimetype : option string) (userId : Z)
    (embed : bool) (format : option ImageFormat) (password : option string)
    (expires_at : option Z) (maxViews : option jsnum) : M Image.t := fun w =>
  let img := Image.mk (Z.of_nat (length (images w)) + 1) file mimetype userId
                      embed format password expires_at maxViews in
  (emit (EvImageCreate img)
     {| tmpdir := tmpdir w; users := users w; images := images w ++ [img];
        invisibles := invisibles w; datasource := datasource w;
        trace := trace w; outside := outside w |}, Next img).

(** [createInvisImage(length, imageId)] of lib/util. *)
Definition createInvisImage (env : Env) (i : nat) (len : Z) (imageId : Z)
    : M InvisibleImage.t := fun w =>
  let inv := InvisibleImage.mk (createInvis_chars env i len) imageId in
  (emit (EvInvisCreate inv)
     {| tmpdir := tmpdir w; users := users w; images := images w;
        invisibles := invisibles w ++ [inv]; datasource := datasource w;
        trace := trace w; outside := outside w |}, Next inv).

(** [datasource.save(name, data)]. *)
Definition datasource_save (name : string) (data : bytes) : M unit := fun w =>
  (emit (EvSave name data)
     {| tmpdir := tmpdir w; users := users w; images := images w;
        invisibles := invisibles w;
        datasource := <[name := data]> (datasource w);
        trace := trace w; outside := outside w |}, Next tt).

(** [sendUpload(user, image, url)] of lib/discord. *)
Definition sendUpload (url : string) : M unit := fun w =>
  (emit (EvSendUpload url) w, Next tt).

(** ** The handler *)

(** [if (b) return res.xxx(...)]. *)
Definition return_if (b : bool) (r : NextApiRes) : M unit :=
  if b then respond r else mret tt.

(** What the header checks of the handler leave behind for the rest of it. *)
Record Ctx : Type := {
  user : User.t;
  expiry : option Z;
  format : option ImageFormat;
  imageCompressionPercent : option jsnum;     (* [None] is null *)
  fileMaxViews : option jsnum                 (* [None] is null *)
}.

(** [((h || '') as string).toUpperCase() || 'RANDOM'], then the lookup in the
    enum; [None] is the [false] of a selector that is not a key. *)
Definition rawFormat (h : option string) : string :=
  let upper := toUpperCase (default "" h) in
  if String.eqb upper "" then "RANDOM" else upper.

Definition parse_format (h : option string) : option ImageFormat :=
  if existsb (String.eqb (rawFormat h)) ImageFormat_keys
  then ImageFormat_get (rawFormat h)
  else None.

(** [h ? Number(h) : null]. *)
Definition Number_or_null (h : option string) : option jsnum :=
  if truthy h then Some (Number (tpl h)) else None.

(** [isNaN(x)], [x < z] and [x > z] for a number or null. *)
Definition isNaN (x : option jsnum) : bool :=
  match x with
  | Some NaN => true
  | _ => false
  end.

Definition js_lt (x : option jsnum) (z : Z) : bool :=
  match x with
  | Some (Num a) => a <? z
  | _ => false
  end.

Definition js_gt (x : option jsnum) (z : Z) : bool :=
  match x with
  | Some (Num a) => z <? a
  | _ => false
  end.

(** Truthiness of a number or null: [0], [NaN] and null are falsy. *)
Definition truthy_num (x : option jsnum) : bool :=
  match x with
  | Some (Num a) => negb (a =? 0)
  | _ => false
  end.

(** Lines 21-58: method, authorization and the header checks. *)
Definition validate (env : Env) (req : NextApiReq) : M Ctx :=
  return_if (negb (String.eqb (method req) "POST")) (forbid "invalid method") ;;
  return_if (negb (truthy (headers req !! "authorization")))
            (forbid "no authorization") ;;
  found ← (fun w => (w, Next (user_findFirst (tpl (headers req !! "authorization")) w))) ;
  match found with
  | None => respond (forbid "authorization incorrect")
  | Some user =>
      expiry ← (if truthy (headers req !! "expires-at")
                then match parseExpiry env (tpl (headers req !! "expires-at")) with
                     | None => respond (error "invalid date")
                     | Some d => mret (Some d)
                     end
                else mret None) ;
      let format := parse_format (headers req !! "format") in
      let imageCompressionPercent :=
        Number_or_null (headers req !! "image-compression-percent") in
      return_if (isNaN imageCompressionPercent)
                (error "invalid image compression percent (invalid number)") ;;
      return_if (js_lt imageCompressionPercent 0 || js_gt imageCompressionPercent 100)
                (error "invalid image compression percent (% < 0 || % > 100)") ;;
      let fileMaxViews := Number_or_null (headers req !! "max-views") in
      return_if (isNaN fileMaxViews) (error "invalid max views (invalid number)") ;;
      return_if (js_lt fileMaxViews 0) (error "invalid max views (max views < 0)") ;;
      mret {| user := user; expiry := expiry; format := format;
              imageCompressionPercent := imageCompressionPercent;
              fileMaxViews := fileMaxViews |}
  end.

(** The [switch (format)] of both paths; [i] is the index of the file and
    [original] its original name. *)
Definition resolve_fileName (env : Env) (cfg : Config) (format : option ImageFormat)
    (i : nat) (original : string) : string :=
  match format with
  | Some RANDOM => randomChars env i (uploader_length cfg)
  | Some DATE => dayjs_format env i (uploader_format_date cfg)
  | Some UUID => randomUUID env i
  | Some NAME => tpl (split "." original !! 0%nat)
  | None => randomChars env i (uploader_length cfg)
  end.

(** [name.split('.').pop()] and [disabled_extensions.includes(ext)]. *)
Definition ext_of (name : string) : option string := pop (split "." name).

Definition disabled (cfg : Config) (ext : option string) : bool :=
  match ext with
  | Some e => existsb (String.eqb e) (uploader_disabled_extensions cfg)
  | None => false
  end.

Definition hashed_password (env : Env) (i : nat) (req : NextApiReq) : option string :=
  if truthy (headers req !! "password")
  then Some (hashPassword env i (tpl (headers req !! "password")))
  else None.

(** [`${https ? 'https' : 'http'}://${host}`] and the mount route. *)
Definition origin (cfg : Config) (req : NextApiReq) : string :=
  (if core_https cfg then "https" else "http") +:+ "://"
  +:+ tpl (headers req !! "host").

Definition route (cfg : Config) : string :=
  if String.eqb (uploader_route cfg) "/" then "" else uploader_route cfg.

(** [invis ? invis.invis : file.file]. *)
Definition url_name (invis : option InvisibleImage.t) (img : Image.t) : string :=
  match invis with
  | Some v => InvisibleImage.invis v
  | None => Image.file img
  end.

(** [if (req.headers.zws) invis = await createInvisImage(...)]. *)
Definition maybe_invis (env : Env) (cfg : Config) (req : NextApiReq) (i : nat)
    (img : Image.t) : M (option InvisibleImage.t) :=
  if truthy (headers req !! "zws")
  then (v ← createInvisImage env i (uploader_length cfg) (Image.id img) ; mret (Some v))
  else mret None.

(** *** The chunked path (lines 61-159) *)

(** The template literal of line 74: the name of the temporary file of a
    chunk, before it is joined to the directory. *)
Definition chunk_name (identifier : option string) (start end_ : option jsnum) : string :=
  "zipline_partial_" +:+ tpl identifier +:+ "_" +:+ tpl_num start
  +:+ "_" +:+ tpl_num end_.

(** [tempFile], line 74: the path of the temporary file of a chunk. *)
Definition tempFile (env : Env) (identifier : option string)
    (start end_ : option jsnum) : list string :=
  join (os_tmpdir env) (chunk_name identifier start end_).

(** The prefix by which the chunks of an identifier are listed. *)
Definition partial_prefix (identifier : option string) : string :=
  "zipline_partial_" +:+ tpl identifier.

(** An element of [readChunks]. *)
Record Chunk : Type := {
  start : jsnum;
  end_ : jsnum;
  filename : string
}.

(** [const [, , , start, end] = x.split('_')]. *)
Definition readChunk (x : string) : Chunk :=
  let segs := split "_" x in
  {| start := Number_opt (segs !! 3%nat);
     end_ := Number_opt (segs !! 4%nat);
     filename := x |}.

(** The loop of lines 90-97: read a chunk, delete it, copy it at its start. *)
Fixpoint combine_chunks (readChunks : list Chunk) (chunks : bytes) : M bytes :=
  match readChunks with
  | [] => mret chunks
  | chunkData :: rest =>
      buffer ← readFile (filename chunkData) ;
      unlink (filename chunkData) ;;
      chunks' ← lift_exn (Uint8Array_set chunks buffer (start chunkData)) ;
      combine_chunks rest chunks'
  end.

(** Lines 78-97: list the chunks of the identifier and combine them into a
    buffer of [total] bytes. *)
Definition reassemble (env : Env) (identifier : option string)
    (total : option jsnum) : M bytes :=
  dir ← readdir env ;
  let partials := List.filter (fun x => startsWith x (partial_prefix identifier)) dir in
  let readChunks := map readChunk partials in
  chunks ← lift_exn (new_Uint8Array (typed_array_limit env) total) ;
  combine_chunks readChunks chunks.

(** [req.files[0].buffer]. *)
Definition first_buffer (req : NextApiReq) : M bytes :=
  match files req with
  | Some (f :: _) => mret (MulterFile.buffer f)
  | _ => throw TypeError
  end.

(** [x.m(...)] on a header that may be [undefined]. *)
Definition defined (x : option string) : M string :=
  match x with
  | Some s => mret s
  | None => throw TypeError
  end.

(** Lines 99-153: the reassembled bytes become a File Record and a blob. *)
Definition ingest_reassembled (env : Env) (cfg : Config) (ctx : Ctx)
    (req : NextApiReq) (chunks : bytes) : M NextApiRes :=
  let mimetype := headers req !! "x-zipline-partial-mimetype" in
  filename ← defined (headers req !! "x-zipline-partial-filename") ;
  let ext := ext_of filename in
  return_if (disabled cfg ext) (error ("disabled extension recieved: " +:+ tpl ext)) ;;
  let fileName := resolve_fileName env cfg (format ctx) 0 filename in
  let password := hashed_password env 0 req in
  compressionUsed ← (if truthy_num (imageCompressionPercent ctx)
                     then (m ← defined mimetype ; mret (startsWith m "image/"))
                     else mret false) ;
  file ← image_create
           (fileName +:+ "." +:+ (if compressionUsed : bool then "jpg" else tpl ext))
           mimetype (User.id (user ctx)) (truthy (headers req !! "embed"))
           (format ctx) password (expiry ctx) (fileMaxViews ctx) ;
  invis ← maybe_invis env cfg req 0 file ;
  datasource_save (Image.file file) chunks ;;
  mret (json_files [origin cfg req +:+ route cfg +:+ "/" +:+ url_name invis file] None).

(** [const [start, end, total] = ...] of the [content-range] header: its
    fields, and the fields as numbers. *)
Definition content_range_fields (req : NextApiReq) : list string :=
  split "/" (replace "-" "/" (replace "bytes " ""
    (tpl (headers req !! "content-range")))).

Definition content_range (req : NextApiReq) : list jsnum :=
  map Number (content_range_fields req).

(** The name of the temporary file of the chunk of the request. *)
Definition chunk_key (req : NextApiReq) : string :=
  chunk_name (headers req !! "x-zipline-partial-identifier")
           (content_range req !! 0%nat) (content_range req !! 1%nat).

Definition partial_upload (env : Env) (cfg : Config) (ctx : Ctx) (req : NextApiReq)
    : M NextApiRes :=
  let total := content_range req !! 2%nat in
  let identifier := headers req !! "x-zipline-partial-identifier" in
  let lastchunk :=
    bool_decide (headers req !! "x-zipline-partial-lastchunk" = Some "true") in
  buffer ← first_buffer req ;
  writeFile env (tempFile env identifier (content_range req !! 0%nat)
                          (content_range req !! 1%nat)) buffer ;;
  if lastchunk then
    chunks ← reassemble env identifier total ;
    ingest_reassembled env cfg ctx req chunks
  else
    mret json_success.

(** *** The whole-upload path (lines 161-289) *)

(** Lines 161-175: the cooldown check on entry. *)
Definition ratelimit_entry (env : Env) (ctx : Ctx) : M unit :=
  match User.ratelimit (user ctx) with
  | Some t =>
      let remaining := t - Date_now_entry env in
      if remaining <=? 0
      then user_update (User.id (user ctx)) None
      else respond (ratelimited remaining)
  | None => mret tt
  end.

(** [zconfig.uploader[user.administrator ? 'admin_limit' : 'user_limit']]. *)
Definition size_limit (cfg : Config) (u : User.t) : Z :=
  if User.administrator u then uploader_admin_limit cfg else uploader_user_limit cfg.

(** [imageCompressionPercent && file.mimetype.startsWith('image/')]. *)
Definition compressionUsed (ctx : Ctx) (mimetype : string) : bool :=
  truthy_num (imageCompressionPercent ctx) && startsWith mimetype "image/".

(** The quality handed to sharp. *)
Definition quality (ctx : Ctx) : Z :=
  match imageCompressionPercent ctx with
  | Some n => ToIntegerOrInfinity n
  | None => 0
  end.

(** The body of the loop of lines 180-265 for [req.files[i]]; the value is the
    URL pushed to [response.files]. *)
Definition upload_file (env : Env) (cfg : Config) (ctx : Ctx) (req : NextApiReq)
    (i : nat) (file : MulterFile.t) : M string :=
  let idx := toString (Num (Z.of_nat i)) in
  return_if (size_limit cfg (user ctx) <? MulterFile.size file)
            (error ("file[" +:+ idx +:+ "]: size too big")) ;;
  let ext := ext_of (MulterFile.originalname file) in
  return_if (disabled cfg ext)
            (error ("file[" +:+ idx +:+ "]: disabled extension recieved: " +:+ tpl ext)) ;;
  let fileName := resolve_fileName env cfg (format ctx) i (MulterFile.originalname file) in
  let password := hashed_password env i req in
  let used := compressionUsed ctx (MulterFile.mimetype file) in
  image ← image_create
            (fileName +:+ "." +:+ (if used then "jpg" else tpl ext))
            (Some (if truthy (headers req !! "uploadtext") then "text/plain"
                   else if used then "image/jpeg"
                   else MulterFile.mimetype file))
            (User.id (user ctx)) (truthy (headers req !! "embed"))
            (format ctx) password (expiry ctx) (fileMaxViews ctx) ;
  invis ← maybe_invis env cfg req i image ;
  (if used
   then datasource_save (Image.file image)
          (sharp_jpeg env (quality ctx) (MulterFile.buffer file))
   else datasource_save (Image.file image) (MulterFile.buffer file)) ;;
  let domains := User.domains (user ctx) in
  let url :=
    if (0 <? length domains)%nat
    then tpl (domains !! Math_random_index env i (length domains))
         +:+ route cfg +:+ "/" +:+ url_name invis image
    else origin cfg req +:+ route cfg +:+ "/" +:+ url_name invis image in
  (if discord_upload cfg
   then sendUpload (origin cfg req +:+ "/r/" +:+ url_name invis image)
   else mret tt) ;;
  mret url.

(** The loop itself, from index [i], with the URLs pushed so far. *)
Fixpoint upload_files (env : Env) (cfg : Config) (ctx : Ctx) (req : NextApiReq)
    (i : nat) (fs : list MulterFile.t) (urls : list string) : M (list string) :=
  match fs with
  | [] => mret urls
  | file :: rest =>
      url ← upload_file env cfg ctx req i file ;
      upload_files env cfg ctx req (S i) rest (urls ++ [url])
  end.

(** Lines 267-287: arming the cooldown after the batch. *)
Definition ratelimit_exit (env : Env) (cfg : Config) (ctx : Ctx) : M unit :=
  let u := user ctx in
  if User.administrator u && (0 <? ratelimit_admin cfg)
  then user_update (User.id u) (Some (Date_now_exit env + ratelimit_admin cfg * 1000))
  else if negb (User.administrator u) && (0 <? ratelimit_user cfg)
  then (if User.administrator u && (0 <? ratelimit_user cfg)
        then user_update (User.id u)
               (Some (Date_now_exit env + ratelimit_user cfg * 1000))
        else mret tt)
  else mret tt.

(** Lines 177-289: what follows the cooldown check. *)
Definition ingest_batch (env : Env) (cfg : Config) (ctx : Ctx) (req : NextApiReq)
    : M NextApiRes :=
  match files req with
  | None => respond (error "no files")
  | Some [] => respond (error "no files")
  | Some fs =>
      urls ← upload_files env cfg ctx req 0 fs [] ;
      ratelimit_exit env cfg ctx ;;
      mret (json_files urls (expiry ctx))
  end.

Definition whole_upload (env : Env) (cfg : Config) (ctx : Ctx) (req : NextApiReq)
    : M NextApiRes :=
  ratelimit_entry env ctx ;;
  ingest_batch env cfg ctx req.

(** The handler: the header checks, then the chunked path when a
    [content-range] header is present ("handle partial uploads before
    ratelimits"), the whole-upload path otherwise. *)
Definition handler_body (env : Env) (cfg : Config) (req : NextApiReq) : M NextApiRes :=
  ctx ← validate env req ;
  if truthy (headers req !! "content-range")
  then partial_upload env cfg ctx req
  else whole_upload env cfg ctx req.

(** What a request ends in: the response returned, or the exit taken. *)
Definition outcome_of (m : M NextApiRes) (w : World) : World * Outcome :=
  match m w with
  | (w', Next r) => (w', Responded r)
  | (w', Exit o) => (w', o)
  end.

Definition handler (env : Env) (cfg : Config) (req : NextApiReq) (w : World)
    : World * Outcome :=
  outcome_of (handler_body env cfg req) w.

(** ** The Discord OAuth handler (pages/api/auth/oauth/discord) *)

Module Discord.

(** The query handed over by [withOAuth]. *)
Record OAuthQuery : Type := {
  code : option string;
  state : option string;
  host : option string
}.

(** The three shapes of the object the handler returns. *)
Inductive OAuthResponse : Type :=
  | res_error (error_code : option Z) (error : string)
  | res_redirect (redirect : string)
  | res_user (username avatar access_token refresh_token : string).

(** The fields of [config] the handler reads. *)
Record config : Type := {
  core_https : bool;
  features_oauth_registration : bool;
  oauth_discord_client_id : option string;
  oauth_discord_client_secret : option string
}.

(** The request sent to the token endpoint; the values of the body are those
    passed to [URLSearchParams], before they are encoded. *)
Record TokenRequest : Type := {
  url : string;
  http_method : string;
  content_type : string;
  body : list (string * option string)
}.

(** What the handler reads of the answer: [resp.ok] and two fields of
    [resp.json()]. *)
Record TokenResponse : Type := {
  ok : bool;
  access_token : option string;
  refresh_token : option string
}.

(** What the handler reads of the user object of Discord. *)
Record UserJson : Type := {
  id : string;
  username : string;
  avatar : option string;
  discriminator : string
}.

(** The helpers of lib/util and lib/oauth and the network are not among the
    sources: they are parameters. *)
Record Env : Type := {
  notNull : option string -> option string -> bool;
  oauth_url : option string -> string -> option string -> string;
  fetch : TokenRequest -> TokenResponse;
  oauth_user : string -> option UserJson;
  getBase64URLFromURL : string -> string
}.

(** The calls that leave the process, in the order they are made. *)
Inductive Call : Type :=
  | FetchToken (r : TokenRequest)
  | OauthUser (token : string)
  | GetAvatar (url : string).

(** [`${config.core.https ? 'https' : 'http'}://${host}`]. *)
Definition origin (cfg : config) (q : OAuthQuery) : string :=
  (if core_https cfg then "https" else "http") +:+ "://" +:+ tpl (host q).

(** The request of lines 32-45. *)
Definition token_request (cfg : config) (q : OAuthQuery) : TokenRequest :=
  {| url := "https://discord.com/api/oauth2/token";
     http_method := "POST";
     content_type := "application/x-www-form-urlencoded";
     body := [("client_id", oauth_discord_client_id cfg);
              ("client_secret", oauth_discord_client_secret cfg);
              ("code", code q);
              ("grant_type", Some "authorization_code");
              ("redirect_uri", Some (origin cfg q +:+ "/api/auth/oauth/discord"));
              ("scope", Some "identify")] |}.

(** [x % 5] for a string [x]: the remainder has the sign of the dividend. *)
Definition mod5 (x : string) : jsnum :=
  match Number x with
  | NaN => NaN
  | Num z => Num (Z.rem z 5)
  end.

(** Lines 56-58: the URL of the avatar. *)
Definition avatar_url (u : UserJson) : string :=
  if truthy (avatar u)
  then "https://cdn.discordapp.com/avatars/" +:+ id u +:+ "/" +:+ tpl (avatar u)
       +:+ ".png"
  else "https://cdn.discordapp.com/embed/avatars/"
       +:+ toString (mod5 (discriminator u)) +:+ ".png".

(** The handler: the calls it makes and the object it returns. *)
Definition handler (env : Env) (cfg : config) (q : OAuthQuery)
    : list Call * OAuthResponse :=
  if negb (features_oauth_registration cfg)
  then ([], res_error (Some 403) "oauth registration is disabled")
  else if negb (notNull env (oauth_discord_client_id cfg)
                        (oauth_discord_client_secret cfg))
  then ([], res_error (Some 401) "Discord OAuth is not configured")
  else if negb (truthy (code q))
  then ([], res_redirect
              (oauth_url env (oauth_discord_client_id cfg) (origin cfg q) (state q)))
  else
    let resp := fetch env (token_request cfg q) in
    let calls := [FetchToken (token_request cfg q)] in
    if negb (ok resp) then (calls, res_error None "invalid request")
    else if negb (truthy (access_token resp))
    then (calls, res_error None "no access_token in response")
    else if negb (truthy (refresh_token resp))
    then (calls, res_error None "no refresh_token in response")
    else
      let calls := calls ++ [OauthUser (tpl (access_token resp))] in
      match oauth_user env (tpl (access_token resp)) with
      | None => (calls, res_error None "invalid user request")
      | Some userJson =>
          (calls ++ [GetAvatar (avatar_url userJson)],
           res_user (username userJson)
                      (getBase64URLFromURL env (avatar_url userJson))
                      (tpl (access_token resp)) (tpl (refresh_token resp)))
      end.

End Discord.

(** ** Vocabulary of the statements *)

(** The world with another temporary directory. *)
Definition with_tmpdir (m : gmap string bytes) (w : World) : World :=
  {| tmpdir := m; users := users w; images := images w;
     invisibles := invisibles w; datasource := datasource w; trace := trace w;
     outside := outside w |}.

(** The world with other writes outside that directory. *)
Definition with_outside (o : list (list string * bytes)) (w : World) : World :=
  {| tmpdir := tmpdir w; users := users w; images := images w;
     invisibles := invisibles w; datasource := datasource w; trace := trace w;
     outside := o |}.

(** The configuration with other size limits. *)
Definition with_limits (admin_limit user_limit : Z) (cfg : Config) : Config :=
  {| core_https := core_https cfg; uploader_route := uploader_route cfg;
     uploader_length := uploader_length cfg;
     uploader_format_date := uploader_format_date cfg;
     uploader_admin_limit := admin_limit; uploader_user_limit := user_limit;
     uploader_disabled_extensions := uploader_disabled_extensions cfg;
     ratelimit_admin := ratelimit_admin cfg; ratelimit_user := ratelimit_user cfg;
     discord_upload := discord_upload cfg |}.

(** A response that refuses the request. *)
Definition rejected (r : NextApiRes) : bool :=
  match r with
  | forbid _ | error _ | ratelimited _ => true
  | json_files _ _ | json_success => false
  end.

(** Where the loop copies the chunk stored under name [x]. *)
Definition chunk_offset (x : string) : Z := ToIntegerOrInfinity (start (readChunk x)).

(** The files of a directory the listing of an identifier selects. *)
Definition stored_chunks (identifier : option string) (m : gmap string bytes)
    : list (string * bytes) :=
  List.filter (fun kv => startsWith kv.1 (partial_prefix identifier)) (map_to_list m).

(** The longest typed array the host gives. *)
Definition longest (env : Env) : Z := Z.min (typed_array_limit env) (2 ^ 53 - 1).

(** The runtime reads the first [n] fields of the [content-range] header as
    [Number] does here. *)
Definition fields_exact (n : nat) (req : NextApiReq) : bool :=
  forallb exact (take n (content_range_fields req)).

(** The runtime reads the start in the name [x] of a stored chunk, its
    fourth field, as [Number] does here; a name without that field reads
    [NaN] in both. *)
Definition start_exact (x : string) : bool :=
  match split "_" x !! 3%nat with
  | Some s => exact s
  | None => true
  end.

(** The chunk lies inside a buffer of [total] bytes. *)
Definition fits (total : Z) (kv : string * bytes) : bool :=
  (0 <=? chunk_offset kv.1) && (chunk_offset kv.1 + Z.of_nat (length kv.2) <=? total).

(** Position [p] of the buffer is written by the chunk. *)
Definition covers (p : nat) (kv : string * bytes) : bool :=
  (chunk_offset kv.1 <=? Z.of_nat p)
  && (Z.of_nat p <? chunk_offset kv.1 + Z.of_nat (length kv.2)).

(** The chunk holds the bytes of [source] from its offset on. *)
Definition slice_of (source : bytes) (kv : string * bytes) : bool :=
  bool_decide (take (length kv.2) (drop (Z.to_nat (chunk_offset kv.1)) source) = kv.2).

(** The number of File Records created and of blob-store writes in a trace. *)
Definition creates (t : list Event) : nat :=
  length (List.filter (fun e => match e with EvImageCreate _ => true | _ => false end) t).

Definition saves (t : list Event) : nat :=
  length (List.filter (fun e => match e with EvSave _ _ => true | _ => false end) t).

(** The file is refused by the loop: too big for the role, or of a disabled
    extension. *)
Definition oversize (cfg : Config) (u : User.t) (f : MulterFile.t) : bool :=
  size_limit cfg u <? MulterFile.size f.

Definition offending (cfg : Config) (u : User.t) (f : MulterFile.t) : bool :=
  oversize cfg u f || disabled cfg (ext_of (MulterFile.originalname f)).

(** Events that are neither the creation of a File Record nor a write to the
    blob store. *)
Definition quiet (e : Event) : bool :=
  match e with
  | EvImageCreate _ | EvSave _ _ => false
  | _ => true
  end.

(** Every write to the blob store in the trace comes after the creation of a
    File Record of that name: as a property of the trace, and as a check that
    runs over it with the names of the records created so far. *)
Definition recorded_before_saved (t : list Event) : Prop :=
  forall pre name data post,
    t = pre ++ EvSave name data :: post ->
    exists img, EvImageCreate img ∈ pre /\ Image.file img = name.

Fixpoint well_ordered (known : list string) (t : list Event) : bool :=
  match t with
  | [] => true
  | EvImageCreate img :: t' => well_ordered (Image.file img :: known) t'
  | EvSave name _ :: t' => bool_decide (name ∈ known) && well_ordered known t'
  | _ :: t' => well_ordered known t'
  end.

(** What a run from [w] to [w'] did to the records and the blob store: it
    created the records [new], emitted the trace [t] with as many creations
    and as many writes as there are new records, each write after the
    creation of its record. *)
Definition effects (w w' : World) (t : list Event) (new : list Image.t) : Prop :=
  images w' = images w ++ new
  /\ trace w' = trace w ++ t
  /\ well_ordered [] t = true
  /\ creates t = length new
  /\ saves t = length new.

(** The bytes of [source] in the half-open range from [s] to [e]. *)
Definition chunk_of (source : bytes) (s e : Z) : bytes :=
  take (Z.to_nat (e - s)) (drop (Z.to_nat s) source).

(** The characters of a string. *)
Fixpoint chars (s : string) : list ascii :=
  match s with
  | EmptyString => []
  | String a s' => a :: chars s'
  end.

(** A digit or a letter of the Latin alphabet. *)
Definition alphanumeric (a : ascii) : bool :=
  let n := nat_of_ascii a in
  ((48 <=? n)%nat && (n <=? 57)%nat)
  || ((65 <=? n)%nat && (n <=? 90)%nat)
  || ((97 <=? n)%nat && (n <=? 122)%nat).

(** Modelled from the spec: [randomChars] of lib/util, which is not among
    the sources.  The spec says of the stem of the RANDOM format, which is
    an answer of [randomChars(zconfig.uploader.length)]: "fixed-length
    random alphanumeric string", of the "configured random length".  The
    contract of the helper is that every answer has the length asked for
    and consists of digits and letters. *)
Definition randomChars_contract (env : Env) : Prop :=
  forall i n, 0 <= n ->
    String.length (randomChars env i n) = Z.to_nat n
    /\ forallb alphanumeric (chars (randomChars env i n)) = true.

(** ** Vocabulary of the further properties *)

(** What identifies an account: everything of a user but the cooldown. *)
Definition account (u : User.t) : Z * string * string * bool * list string :=
  (User.id u, User.username u, User.token u, User.administrator u, User.domains u).

(** The key of a member of [ImageFormat]. *)
Definition format_name (f : ImageFormat) : string :=
  match f with
  | RANDOM => "RANDOM"
  | DATE => "DATE"
  | UUID => "UUID"
  | NAME => "NAME"
  end.

(** A decimal digit. *)
Definition is_digit (a : ascii) : bool :=
  let n := nat_of_ascii a in (48 <=? n)%nat && (n <=? 57)%nat.

(** The header is present and the runtime reads [NaN] from it. *)
Definition reads_NaN (h : option string) : bool :=
  match h with
  | Some s => surely_NaN s
  | None => false
  end.

(** The number of calls to [sendUpload] in a trace. *)
Definition notifications (t : list Event) : nat :=
  length (List.filter (fun e => match e with EvSendUpload _ => true | _ => false end) t).

(** The message of the error that stops the loop at the file of index [i]
    (lines 183 and 187). *)
Definition refusal (cfg : Config) (u : User.t) (i : nat) (f : MulterFile.t) : string :=
  if oversize cfg u f
  then "file[" +:+ toString (Num (Z.of_nat i)) +:+ "]: size too big"
  else "file[" +:+ toString (Num (Z.of_nat i)) +:+ "]: disabled extension recieved: "
       +:+ tpl (ext_of (MulterFile.originalname f)).

(** What every record of a request carries of the request. *)
Definition carries (ctx : Ctx) (req : NextApiReq) (img : Image.t) : Prop :=
  Image.userId img = User.id (user ctx)
  /\ Image.expires_at img = expiry ctx
  /\ Image.maxViews img = fileMaxViews ctx
  /\ Image.format img = format ctx
  /\ Image.embed img = truthy (headers req !! "embed")
  /\ (is_Some (Image.password img) <-> truthy (headers req !! "password") = true).

(** The world after a cooldown check that lets the request through: a stored
    timestamp, which has passed, is cleared. *)
Definition after_entry (ctx : Ctx) (w : World) : World :=
  match User.ratelimit (user ctx) with
  | Some _ => (user_update (User.id (user ctx)) None w).1
  | None => w
  end.

(** No cooldown is in force for the user at the time of the check. *)
Definition no_cooldown (env : Env) (u : User.t) : Prop :=
  forall t, User.ratelimit u = Some t -> t <= Date_now_entry env.

(** ** Concrete instances *)

(** Answers of the collaborators used in the examples: the random helpers
    answer by the index of the file, the host lists a directory in the order
    of its map, its temporary directory is [/tmp], it refuses no write and
    allocates typed arrays of up to 2^32 - 1 bytes. *)
Definition env0 : Env := {|
  parseExpiry := fun _ => None;
  randomChars := fun i _ => "rnd" +:+ toString (Num (Z.of_nat i));
  dayjs_format := fun _ _ => "2022-11-02";
  randomUUID := fun _ => "uuid";
  hashPassword := fun _ _ => "hash";
  sharp_jpeg := fun _ _ => [Byte.xff; Byte.xd8];
  createInvis_chars := fun _ _ => "zw";
  Math_random_index := fun _ _ => 0%nat;
  Date_now_entry := 1000;
  Date_now_exit := 1000;
  readdir_order := fun l => l;
  os_tmpdir := ["tmp"];
  fs_refuses := fun _ => None;
  typed_array_limit := 4294967295
|}.

Definition cfg0 : Config := {|
  core_https := false;
  uploader_route := "/u";
  uploader_length := 6;
  uploader_format_date := "YYYY-MM-DD";
  uploader_admin_limit := 100;
  uploader_user_limit := 4;
  uploader_disabled_extensions := ["exe"];
  ratelimit_admin := 0;
  ratelimit_user := 5;
  discord_upload := false
|}.

(** A user without cooldown and a user whose cooldown ends at 5000. *)
Definition alice : User.t := User.mk 1 "alice" "tok-a" false None [].
Definition carol : User.t := User.mk 2 "carol" "tok-c" false (Some 5000) [].

Definition w0 : World := {|
  tmpdir := ∅; users := [alice; carol]; images := []; invisibles := [];
  datasource := ∅; trace := []; outside := []
|}.

Definition post (hs : list (string * string)) (fs : option (list MulterFile.t))
    : NextApiReq :=
  {| method := "POST"; headers := list_to_map hs; files := fs |}.

(** A whole upload with the given token and extra headers. *)
Definition whole_req (tok : string) (hs : list (string * string))
    (fs : list MulterFile.t) : NextApiReq :=
  post (("authorization", tok) :: ("host", "h") :: hs) (Some fs).

(** A chunk of the upload [identifier] of a PNG image named [name], sent with
    the given token. *)
Definition chunk_req (tok identifier name range : string) (last : bool)
    (hs : list (string * string)) (data : bytes) : NextApiReq :=
  post (("authorization", tok) :: ("host", "h") :: ("content-range", range)
        :: ("x-zipline-partial-identifier", identifier)
        :: ("x-zipline-partial-filename", name)
        :: ("x-zipline-partial-mimetype", "image/png")
        :: (if last then [("x-zipline-partial-lastchunk", "true")] else [])
        ++ hs)
       (Some [MulterFile.mk "blob" "application/octet-stream" data]).

Definition png (name : string) (data : bytes) : MulterFile.t :=
  MulterFile.mk name "image/png" data.

(** What the header checks leave for a request of [alice] with a compression
    percent, if any, and no other option. *)
Definition ctx_of (u : User.t) (percent : option jsnum) : Ctx :=
  {| user := u; expiry := None; format := Some RANDOM;
     imageCompressionPercent := percent; fileMaxViews := None |}.

(** A source of four bytes sent as the chunks [0, 2) and [2, 4) of the upload
    [identifier]; the second request is flagged as the last chunk. *)
Definition first_half (identifier : string) : NextApiReq :=
  chunk_req "tok-a" identifier "a.png" "bytes 0-2/4" false [] [Byte.x01; Byte.x02].

Definition second_half (identifier : string) : NextApiReq :=
  chunk_req "tok-a" identifier "a.png" "bytes 2-4/4" true [] [Byte.x03; Byte.x04].

(** The world after the first half has been received. *)
Definition after_first_half (identifier : string) : World :=
  (handler env0 cfg0 (first_half identifier) w0).1.





(** A last chunk of an upload named [a.exe], with a gap before it. *)
Definition exe_last : NextApiReq :=
  chunk_req "tok-a" "exe" "a.exe" "bytes 2-4/4" true [] [Byte.x03; Byte.x04].

(** A batch of two files of which the second has a disabled extension. *)
Definition batch_with_exe : NextApiReq :=
  whole_req "tok-a" [] [png "a.png" [Byte.x01]; png "b.exe" [Byte.x02]].

(** A file above the limit of a user (4 bytes in [cfg0]). *)
Definition big : MulterFile.t :=
  png "big.png" [Byte.x01; Byte.x02; Byte.x03; Byte.x04; Byte.x05].

(** One image, uploaded whole with extra headers. *)
Definition one_png (tok : string) (hs : list (string * string)) : NextApiReq :=
  whole_req tok hs [png "a.png" [Byte.x01]].

(** A directory that already holds the chunk [0, 2) of the upload [ab]. *)
Definition w_resend : World :=
  with_tmpdir {[ "zipline_partial_ab_0_2" := [Byte.x01; Byte.x02] ]} w0.

Definition resend : NextApiReq :=
  chunk_req "tok-a" "ab" "a.png" "bytes 0-2/4" false [] [Byte.x09; Byte.x09].

(** An administrator, and a configuration with a cooldown of 3 seconds for
    administrators. *)
Definition dave : User.t := User.mk 3 "dave" "tok-d" true None ["https://d.example"].

Definition w_admin : World := {|
  tmpdir := ∅; users := [alice; dave]; images := []; invisibles := [];
  datasource := ∅; trace := []; outside := []
|}.

Definition cfg_admin : Config := {|
  core_https := true;
  uploader_route := "/";
  uploader_length := 6;
  uploader_format_date := "YYYY-MM-DD";
  uploader_admin_limit := 100;
  uploader_user_limit := 4;
  uploader_disabled_extensions := ["exe"];
  ratelimit_admin := 3;
  ratelimit_user := 0;
  discord_upload := true
|}.

(** A whole upload and a one-chunk upload by the administrator. *)
Definition dave_png : NextApiReq := whole_req "tok-d" [] [png "a.png" [Byte.x01]].

Definition dave_chunk : NextApiReq :=
  chunk_req "tok-d" "one" "a.png" "bytes 0-2/2" true [] [Byte.x01; Byte.x02].

(** A chunk request that carries no file part. *)
Definition no_file_chunk : NextApiReq :=
  post [("authorization", "tok-a"); ("host", "h"); ("content-range", "bytes 0-2/4");
        ("x-zipline-partial-identifier", "ab")] None.

(** The collaborators of [env0] at a later time, 6000. *)
Definition env_late : Env := {|
  parseExpiry := parseExpiry env0;
  randomChars := randomChars env0;
  dayjs_format := dayjs_format env0;
  randomUUID := randomUUID env0;
  hashPassword := hashPassword env0;
  sharp_jpeg := sharp_jpeg env0;
  createInvis_chars := createInvis_chars env0;
  Math_random_index := Math_random_index env0;
  Date_now_entry := 6000;
  Date_now_exit := 6000;
  readdir_order := readdir_order env0;
  os_tmpdir := os_tmpdir env0;
  fs_refuses := fs_refuses env0;
  typed_array_limit := typed_array_limit env0
|}.

(** The collaborators of [env0] with a [randomChars] that answers as many
    letters [a] as it is asked for. *)
Fixpoint letters (n : nat) : string :=
  match n with
  | O => EmptyString
  | S n' => String "a" (letters n')
  end.

Definition env_letters : Env := {|
  parseExpiry := parseExpiry env0;
  randomChars := fun _ n => letters (Z.to_nat n);
  dayjs_format := dayjs_format env0;
  randomUUID := randomUUID env0;
  hashPassword := hashPassword env0;
  sharp_jpeg := sharp_jpeg env0;
  createInvis_chars := createInvis_chars env0;
  Math_random_index := Math_random_index env0;
  Date_now_entry := Date_now_entry env0;
  Date_now_exit := Date_now_exit env0;
  readdir_order := readdir_order env0;
  os_tmpdir := os_tmpdir env0;
  fs_refuses := fs_refuses env0;
  typed_array_limit := typed_array_limit env0
|}.

(** An image uploaded with a format selector that is no format, and what
    the header checks leave of it. *)
Definition webp_selector : NextApiReq := one_png "tok-a" [("format", "webp")].

Definition ctx_webp : Ctx :=
  {| user := alice; expiry := None; format := None;
     imageCompressionPercent := None; fileMaxViews := None |}.

(** A request with a token no user has. *)
Definition unknown_token : NextApiReq := whole_req "nope" [] [png "a.png" [Byte.x01]].

(** An image uploaded with a password, the embed flag and a maximum of
    views, and what the header checks leave of it. *)
Definition with_options : NextApiReq :=
  one_png "tok-a" [("password", "pw"); ("embed", "true"); ("max-views", "3")].

Definition ctx_options : Ctx :=
  {| user := alice; expiry := None; format := Some RANDOM;
     imageCompressionPercent := None; fileMaxViews := Some (Num 3) |}.

(** A file with three segments in its name, under the format [NAME]. *)
Definition archive : MulterFile.t :=
  MulterFile.mk "archive.tar.gz" "application/gzip" [Byte.x01].

Definition ctx_name : Ctx :=
  {| user := alice; expiry := None; format := Some NAME;
     imageCompressionPercent := None; fileMaxViews := None |}.

(** Answers of Discord used in the examples. *)
Definition erin : Discord.UserJson :=
  {| Discord.id := "42"; Discord.username := "erin"; Discord.avatar := None;
     Discord.discriminator := "0007" |}.

Definition discord_env : Discord.Env := {|
  Discord.notNull := fun a b => match a, b with Some _, Some _ => true | _, _ => false end;
  Discord.oauth_url := fun client origin _ => origin +:+ "/authorize?client_id=" +:+ tpl client;
  Discord.fetch := fun _ => {| Discord.ok := true; Discord.access_token := Some "at";
                               Discord.refresh_token := Some "rt" |};
  Discord.oauth_user := fun _ => Some erin;
  Discord.getBase64URLFromURL := fun u => "data:" +:+ u
|}.

Definition discord_cfg : Discord.config := {|
  Discord.core_https := true;
  Discord.features_oauth_registration := true;
  Discord.oauth_discord_client_id := Some "cid";
  Discord.oauth_discord_client_secret := Some "secret"
|}.

Definition discord_query : Discord.OAuthQuery :=
  {| Discord.code := Some "c0de"; Discord.state := None; Discord.host := Some "h" |}.

(** * Properties *)

(** ** The runtime fragment at the strings of the handler *)

Example split_name :
  split "_" "zipline_partial_ab12_0_99" = ["zipline"; "partial"; "ab12"; "0"; "99"].
Proof. reflexivity. Qed.

Example split_trailing : split "." "archive.tar." = ["archive"; "tar"; ""].
Proof. reflexivity. Qed.

Example ext_of_dotless : ext_of "README" = Some "README".
Proof. reflexivity. Qed.

Example content_range_of_header :
  map Number (split "/" (replace "-" "/" (replace "bytes " "" "bytes 0-99/300")))
  = [Num 0; Num 99; Num 300].
Proof. reflexivity. Qed.

Example Number_of_text : Number "b" = NaN /\ Number "" = Num 0 /\ Number "-7" = Num (-7).
Proof. by vm_compute. Qed.

Example toUpperCase_mixed : toUpperCase "Uuid" = "UUID".
Proof. reflexivity. Qed.

Example set_inside :
  Uint8Array_set [Byte.x00; Byte.x00; Byte.x00] [Byte.x01; Byte.x02] (Num 1)
  = inr [Byte.x00; Byte.x01; Byte.x02].
Proof. reflexivity. Qed.

Example set_outside :
  Uint8Array_set [Byte.x00; Byte.x00; Byte.x00] [Byte.x01; Byte.x02] (Num 2)
  = inl RangeError.
Proof. reflexivity. Qed.

Example set_at_NaN :
  Uint8Array_set [Byte.x00; Byte.x00; Byte.x00] [Byte.x01; Byte.x02] NaN
  = inr [Byte.x01; Byte.x02; Byte.x00].
Proof. reflexivity. Qed.

(** ** Strings *)

Lemma append_cons (a : ascii) (s t : string) : String a s +:+ t = String a (s +:+ t).
Proof. reflexivity. Qed.

Lemma append_assoc (s t u : string) : (s +:+ t) +:+ u = s +:+ t +:+ u.
Proof.
  induction s as [|a s IH]; [done|]. rewrite !append_cons. by rewrite IH.
Qed.

Lemma prefix_append (s t : string) : String.prefix s (s +:+ t) = true.
Proof.
  induction s as [|a s IH]; [by destruct t|]. rewrite append_cons. simpl.
  by destruct (ascii_dec a a).
Qed.

(** ** The monad *)

Lemma bind_next {A B} (m : M A) (k : A -> M B) w w' a :
  m w = (w', Next a) -> (m ≫= k) w = k a w'.
Proof. intros H. unfold mbind, M_bind. by rewrite H. Qed.

Lemma bind_exit {A B} (m : M A) (k : A -> M B) w w' o :
  m w = (w', Exit o) -> (m ≫= k) w = (w', Exit o).
Proof. intros H. unfold mbind, M_bind. by rewrite H. Qed.

Lemma return_if_false {B} r (k : unit -> M B) w :
  (return_if false r ≫= k) w = k tt w.
Proof. reflexivity. Qed.

Lemma return_if_true {B} r (k : unit -> M B) w :
  (return_if true r ≫= k) w = (w, Exit (Responded r)).
Proof. reflexivity. Qed.

(** One step of a hypothesis [H : (return_if b r ≫= k) w = _] with [b] known. *)
Ltac step_if H :=
  lazymatch type of H with
  | (@mbind _ _ _ ?B _ (return_if true _) _ = _) =>
      rewrite (@return_if_true B) in H
  | (@mbind _ _ _ ?B _ (return_if false _) _ = _) =>
      rewrite (@return_if_false B) in H
  end.

(** The same for the goal. *)
Ltac step_if_goal :=
  lazymatch goal with
  | |- context [@mbind _ _ _ ?B _ (return_if true _) _] =>
      rewrite (@return_if_true B)
  | |- context [@mbind _ _ _ ?B _ (return_if false _) _] =>
      rewrite (@return_if_false B)
  end.

(** ** The header checks *)

(** The header checks read the world and leave it as it is; when they stop
    the request, they stop it with a refusal. *)
Lemma validate_inv env req w w' s :
  validate env req w = (w', s) ->
  w' = w /\
  match s with
  | Next ctx =>
      user_findFirst (tpl (headers req !! "authorization")) w = Some (user ctx)
      /\ format ctx = parse_format (headers req !! "format")
      /\ imageCompressionPercent ctx
         = Number_or_null (headers req !! "image-compression-percent")
      /\ (imageCompressionPercent ctx = None
          \/ exists q, imageCompressionPercent ctx = Some (Num q) /\ 0 <= q <= 100)
  | Exit o => exists r, o = Responded r /\ rejected r = true
  end.
Proof.
  unfold validate. intros H.
  destruct (negb (String.eqb (method req) "POST")).
  { step_if H. inversion H; subst. split; [done|]. by eexists. }
  step_if H.
  destruct (negb (truthy (headers req !! "authorization"))).
  { step_if H. inversion H; subst. split; [done|]. by eexists. }
  step_if H.
  unfold mbind at 1, M_bind at 1 in H.
  destruct (user_findFirst _ w) as [u|] eqn:Hu.
  2:{ inversion H; subst. split; [done|]. by eexists. }
  assert (Hexp : exists x, (if truthy (headers req !! "expires-at")
            then match parseExpiry env (tpl (headers req !! "expires-at")) with
                 | Some d => mret (Some d)
                 | None => respond (error "invalid date")
                 end
            else mret None) w = (w, x)
            /\ match x with Next _ => True | Exit o => o = Responded (error "invalid date") end).
  { destruct (truthy _); [destruct (parseExpiry _ _)|]; by eexists. }
  destruct Hexp as (x & Hx & Hxx).
  destruct x as [e|o].
  2:{ rewrite (bind_exit (B:=Ctx) _ _ _ _ _ Hx) in H. inversion H; subst.
      split; [done|]. by eexists. }
  rewrite (bind_next (B:=Ctx) _ _ _ _ _ Hx) in H.
  destruct (isNaN (Number_or_null (headers req !! "image-compression-percent")))
    eqn:Hnan.
  { step_if H. inversion H; subst. split; [done|]. by eexists. }
  step_if H.
  destruct (js_lt (Number_or_null (headers req !! "image-compression-percent")) 0
            || js_gt (Number_or_null (headers req !! "image-compression-percent")) 100)
    eqn:Hrange.
  { step_if H. inversion H; subst. split; [done|]. by eexists. }
  step_if H.
  destruct (isNaN (Number_or_null (headers req !! "max-views"))).
  { step_if H. inversion H; subst. split; [done|]. by eexists. }
  step_if H.
  destruct (js_lt (Number_or_null (headers req !! "max-views")) 0).
  { step_if H. inversion H; subst. split; [done|]. by eexists. }
  step_if H.
  inversion H; subst. simpl. repeat split; try done.
  destruct (Number_or_null (headers req !! "image-compression-percent")) as [[|q]|];
    [done| |by left].
  right. exists q. split; [done|]. simpl in Hrange.
  apply orb_false_elim in Hrange as [H1 H2].
  apply Z.ltb_ge in H1, H2. lia.
Qed.

Lemma validate_world env req w w' s : validate env req w = (w', s) -> w' = w.
Proof. intros H. by apply validate_inv in H as [-> _]. Qed.

(** ** Dispatch *)

Lemma handler_refused env cfg req w o :
  validate env req w = (w, Exit o) -> handler env cfg req w = (w, o).
Proof.
  intros H. unfold handler, outcome_of, handler_body.
  by rewrite (bind_exit (B:=NextApiRes) _ _ _ _ _ H).
Qed.

Lemma handler_partial env cfg req w ctx :
  validate env req w = (w, Next ctx) ->
  truthy (headers req !! "content-range") = true ->
  handler env cfg req w = outcome_of (partial_upload env cfg ctx req) w.
Proof.
  intros H Hcr. unfold handler, outcome_of, handler_body.
  rewrite (bind_next (B:=NextApiRes) _ _ _ _ _ H). by rewrite Hcr.
Qed.

Lemma handler_whole env cfg req w ctx :
  validate env req w = (w, Next ctx) ->
  truthy (headers req !! "content-range") = false ->
  handler env cfg req w = outcome_of (whole_upload env cfg ctx req) w.
Proof.
  intros H Hcr. unfold handler, outcome_of, handler_body.
  rewrite (bind_next (B:=NextApiRes) _ _ _ _ _ H). by rewrite Hcr.
Qed.

(** ** One iteration of the whole-upload loop *)

(** An offending file stops the request and leaves the world as it is. *)
Lemma upload_file_offending env cfg ctx req i f w :
  offending cfg (user ctx) f = true ->
  exists msg, upload_file env cfg ctx req i f w = (w, Exit (Responded (error msg))).
Proof.
  unfold offending, oversize, upload_file. intros H.
  destruct (size_limit cfg (user ctx) <? MulterFile.size f).
  { step_if_goal. by eexists. }
  step_if_goal. simpl in H. rewrite H. step_if_goal. by eexists.
Qed.

(** Any other file is ingested: its record is created, then its bytes are
    written under the name of the record. *)
Lemma upload_file_ingests env cfg ctx req i f w :
  offending cfg (user ctx) f = false ->
  let used := compressionUsed ctx (MulterFile.mimetype f) in
  let img := Image.mk (Z.of_nat (length (images w)) + 1)
    (resolve_fileName env cfg (format ctx) i (MulterFile.originalname f) +:+ "."
       +:+ (if used then "jpg" else tpl (ext_of (MulterFile.originalname f))))
    (Some (if truthy (headers req !! "uploadtext") then "text/plain"
           else if used then "image/jpeg" else MulterFile.mimetype f))
    (User.id (user ctx)) (truthy (headers req !! "embed")) (format ctx)
    (hashed_password env i req) (expiry ctx) (fileMaxViews ctx) in
  let data := if used then sharp_jpeg env (quality ctx) (MulterFile.buffer f)
              else MulterFile.buffer f in
  exists w' url pre post,
    upload_file env cfg ctx req i f w = (w', Next url)
    /\ tmpdir w' = tmpdir w /\ users w' = users w
    /\ images w' = images w ++ [img]
    /\ datasource w' = <[Image.file img := data]> (datasource w)
    /\ trace w' = trace w ++ EvImageCreate img :: pre ++ EvSave (Image.file img) data :: post
    /\ forallb quiet pre = true /\ forallb quiet post = true.
Proof.
  intros H used img data. unfold offending, oversize in H.
  apply orb_false_elim in H as [H1 H2]. unfold upload_file. rewrite H1. step_if_goal.
  rewrite H2. step_if_goal.
  fold used. subst img data.
  unfold mbind, M_bind, image_create, maybe_invis, createInvisImage,
    datasource_save, sendUpload, mret, M_ret, emit.
  destruct (truthy (headers req !! "zws")), used, (discord_upload cfg); simpl;
    rewrite <- ?app_assoc; simpl;
    first [ by (eexists _, _, [_], _; repeat (split; [reflexivity|]); done)
          | by (eexists _, _, [], _; repeat (split; [reflexivity|]); done) ].
Qed.

(** ** Traces *)

Lemma well_ordered_mono t : forall known known',
  known ⊆ known' -> well_ordered known t = true -> well_ordered known' t = true.
Proof.
  induction t as [|e t IH]; intros known known' Hsub H; [done|].
  destruct e; simpl in *.
  - eapply IH; [|exact H].
    intros x [->|Hx]%elem_of_cons; [left|right; by apply Hsub].
  - by eapply IH.
  - apply andb_prop in H as [H1 H2]. apply andb_true_intro. split.
    + apply bool_decide_eq_true. apply bool_decide_eq_true in H1. by apply Hsub.
    + by eapply IH.
  - by eapply IH.
  - by eapply IH.
Qed.

Lemma well_ordered_quiet t known : forallb quiet t = true -> well_ordered known t = true.
Proof.
  induction t as [|e t IH]; [done|]. simpl. intros H.
  apply andb_prop in H as [H1 H2]. destruct e; try done; by apply IH.
Qed.

Lemma well_ordered_app t1 : forall known t2,
  well_ordered known t1 = true -> well_ordered [] t2 = true ->
  well_ordered known (t1 ++ t2) = true.
Proof.
  induction t1 as [|e t1 IH]; intros known t2 H1 H2; simpl.
  - eapply well_ordered_mono; [|done]. by intros x Hx%elem_of_nil.
  - destruct e; simpl in *; try by apply IH.
    apply andb_prop in H1 as [Ha Hb]. rewrite Ha. by apply IH.
Qed.

Lemma well_ordered_ingest img pre data post :
  forallb quiet pre = true -> forallb quiet post = true ->
  well_ordered [] (EvImageCreate img :: pre ++ EvSave (Image.file img) data :: post) = true.
Proof.
  intros Hpre Hpost. simpl. generalize [Image.file img] (list_elem_of_here (Image.file img) []).
  induction pre as [|e pre IH]; intros known Hin; simpl.
  - rewrite bool_decide_true by done. by apply well_ordered_quiet.
  - simpl in Hpre. apply andb_prop in Hpre as [He Hpre].
    destruct e; try done; by apply IH.
Qed.

Lemma well_ordered_sound t : forall known,
  well_ordered known t = true ->
  forall pre name data post,
    t = pre ++ EvSave name data :: post ->
    name ∈ known \/ exists img, EvImageCreate img ∈ pre /\ Image.file img = name.
Proof.
  induction t as [|e t IH]; intros known H pre name data post Heq.
  { by destruct pre. }
  destruct pre as [|e' pre]; simpl in Heq; inversion Heq; subst.
  - simpl in H. apply andb_prop in H as [H _]. left. by apply bool_decide_eq_true in H.
  - destruct e'; simpl in H.
    + destruct (IH _ H _ _ _ _ eq_refl) as [Hin|(img' & Hin & Hf)].
      * apply elem_of_cons in Hin as [->|Hin]; [|by left].
        right. exists img. split; [left|done].
      * right. exists img'. split; [by right|done].
    + destruct (IH _ H _ _ _ _ eq_refl) as [Hin|(img' & Hin & Hf)]; [by left|].
      right. exists img'. split; [by right|done].
    + apply andb_prop in H as [_ H].
      destruct (IH _ H _ _ _ _ eq_refl) as [Hin|(img' & Hin & Hf)]; [by left|].
      right. exists img'. split; [by right|done].
    + destruct (IH _ H _ _ _ _ eq_refl) as [Hin|(img' & Hin & Hf)]; [by left|].
      right. exists img'. split; [by right|done].
    + destruct (IH _ H _ _ _ _ eq_refl) as [Hin|(img' & Hin & Hf)]; [by left|].
      right. exists img'. split; [by right|done].
Qed.

Lemma well_ordered_recorded t : well_ordered [] t = true -> recorded_before_saved t.
Proof.
  intros H pre name data post Heq.
  destruct (well_ordered_sound t [] H pre name data post Heq) as [Hin|?]; [|done].
  by apply elem_of_nil in Hin.
Qed.

Lemma creates_app t1 t2 : creates (t1 ++ t2) = (creates t1 + creates t2)%nat.
Proof. unfold creates. by rewrite List.filter_app, length_app. Qed.

Lemma saves_app t1 t2 : saves (t1 ++ t2) = (saves t1 + saves t2)%nat.
Proof. unfold saves. by rewrite List.filter_app, length_app. Qed.

Lemma creates_quiet t : forallb quiet t = true -> creates t = 0%nat.
Proof.
  induction t as [|e t IH]; [done|]. simpl. intros H.
  apply andb_prop in H as [H1 H2]. unfold creates in *. destruct e; try done; by apply IH.
Qed.

Lemma saves_quiet t : forallb quiet t = true -> saves t = 0%nat.
Proof.
  induction t as [|e t IH]; [done|]. simpl. intros H.
  apply andb_prop in H as [H1 H2]. unfold saves in *. destruct e; try done; by apply IH.
Qed.

(** ** The whole-upload loop *)

(** The loop ingests the files in order up to the first offending one, where
    it stops the request with an error; what was ingested before stays. *)
Lemma upload_files_run env cfg ctx req fs : forall i urls w,
  exists w' s t new,
    upload_files env cfg ctx req i fs urls w = (w', s)
    /\ tmpdir w' = tmpdir w /\ users w' = users w
    /\ images w' = images w ++ new
    /\ trace w' = trace w ++ t
    /\ well_ordered [] t = true
    /\ creates t = length new /\ saves t = length new
    /\ match s with
       | Next _ =>
           length new = length fs
           /\ forallb (fun f => negb (offending cfg (user ctx) f)) fs = true
       | Exit o =>
           (exists msg, o = Responded (error msg))
           /\ exists f, fs !! length new = Some f
                        /\ offending cfg (user ctx) f = true
                        /\ forallb (fun f => negb (offending cfg (user ctx) f))
                                   (take (length new) fs) = true
       end.
Proof.
  induction fs as [|f fs IH]; intros i urls w; simpl.
  { exists w, (Next urls), [], []. rewrite !app_nil_r. by repeat split. }
  destruct (offending cfg (user ctx) f) eqn:Hoff.
  - destruct (upload_file_offending env cfg ctx req i f w Hoff) as [msg Hrun].
    exists w, (Exit (Responded (error msg))), [], [].
    rewrite (bind_exit (B:=list string) _ _ _ _ _ Hrun), !app_nil_r.
    repeat split; try done; [by eexists|]. exists f. by repeat split.
  - destruct (upload_file_ingests env cfg ctx req i f w Hoff)
      as (w1 & url & pre & post & Hrun & Htmp & Husers & Himg & _ & Htr & Hpre & Hpost).
    rewrite (bind_next (B:=list string) _ _ _ _ _ Hrun).
    destruct (IH (S i) (urls ++ [url]) w1)
      as (w' & s & t & new & Hrest & Htmp' & Husers' & Himg' & Htr' & Hord & Hc & Hs & Hend).
    eexists w', s, ((_ :: pre ++ _ :: post) ++ t), (_ :: new).
    split; [exact Hrest|].
    split; [congruence|]. split; [congruence|].
    split. { rewrite Himg', Himg. by rewrite <- app_assoc. }
    split. { rewrite Htr', Htr. by rewrite <- app_assoc. }
    split. { apply well_ordered_app; [|done]. by apply well_ordered_ingest. }
    split.
    { rewrite creates_app, Hc.
      change (?a :: pre ++ ?b :: post) with ([a] ++ pre ++ [b] ++ post).
      by rewrite !creates_app, (creates_quiet pre), (creates_quiet post). }
    split.
    { rewrite saves_app, Hs.
      change (?a :: pre ++ ?b :: post) with ([a] ++ pre ++ [b] ++ post).
      by rewrite !saves_app, (saves_quiet pre), (saves_quiet post). }
    destruct s as [urls'|o].
    + destruct Hend as [Hlen Hall]. split; [simpl; by rewrite Hlen|].
      change (forallb ?g (f :: fs)) with (g f && forallb g fs).
      cbv beta. by rewrite ?Hoff.
    + destruct Hend as (Hmsg & f' & Hk & Hoff' & Hall). split; [done|].
      exists f'. split; [done|]. split; [done|].
      change (take (length (?x :: new)) (f :: fs)) with (f :: take (length new) fs).
      change (forallb ?g (f :: ?l)) with (g f && forallb g l).
      cbv beta. by rewrite ?Hoff.
Qed.

(** ** Effects of the whole-upload path *)

Lemma effects_refl w : effects w w [] [].
Proof. unfold effects. by rewrite !app_nil_r. Qed.

Lemma effects_trans w1 w2 w3 t1 t2 new1 new2 :
  effects w1 w2 t1 new1 -> effects w2 w3 t2 new2 ->
  effects w1 w3 (t1 ++ t2) (new1 ++ new2).
Proof.
  intros (Hi1 & Ht1 & Ho1 & Hc1 & Hs1) (Hi2 & Ht2 & Ho2 & Hc2 & Hs2).
  unfold effects. rewrite Hi2, Hi1, Ht2, Ht1, <- !app_assoc.
  rewrite creates_app, saves_app, length_app, Hc1, Hc2, Hs1, Hs2.
  repeat split. by apply well_ordered_app.
Qed.

Lemma effects_quiet w w' t :
  images w' = images w -> trace w' = trace w ++ t -> forallb quiet t = true ->
  effects w w' t [].
Proof.
  intros Hi Ht Hq. unfold effects. rewrite Hi, Ht, app_nil_r.
  rewrite creates_quiet, saves_quiet by done.
  repeat split. by apply well_ordered_quiet.
Qed.

Lemma user_update_run uid r w :
  exists w', user_update uid r w = (w', Next tt)
    /\ tmpdir w' = tmpdir w /\ datasource w' = datasource w
    /\ users w' = map (set_ratelimit uid r) (users w)
    /\ effects w w' [EvUserUpdate uid r] [].
Proof.
  eexists. split; [reflexivity|]. do 3 (split; [done|]).
  by apply effects_quiet.
Qed.

Lemma ratelimit_exit_run env cfg ctx w :
  exists w' t, ratelimit_exit env cfg ctx w = (w', Next tt)
    /\ tmpdir w' = tmpdir w /\ datasource w' = datasource w
    /\ effects w w' t [].
Proof.
  unfold ratelimit_exit.
  destruct (User.administrator (user ctx) && (0 <? ratelimit_admin cfg)).
  { destruct (user_update_run (User.id (user ctx))
               (Some (Date_now_exit env + ratelimit_admin cfg * 1000)) w)
      as (w' & H & ? & ? & ? & ?). by eexists w', _. }
  destruct (negb (User.administrator (user ctx)) && (0 <? ratelimit_user cfg)).
  2:{ exists w, []. do 3 (split; [done|]). apply effects_refl. }
  destruct (User.administrator (user ctx) && (0 <? ratelimit_user cfg)).
  { destruct (user_update_run (User.id (user ctx))
               (Some (Date_now_exit env + ratelimit_user cfg * 1000)) w)
      as (w' & H & ? & ? & ? & ?). by eexists w', _. }
  exists w, []. do 3 (split; [done|]). apply effects_refl.
Qed.

(** The batch after the cooldown check: the run never throws; an offending
    file at index [i] stops it with an error after at most [i] records. *)
Lemma ingest_batch_run env cfg ctx req w :
  exists w' s t new,
    ingest_batch env cfg ctx req w = (w', s)
    /\ tmpdir w' = tmpdir w
    /\ effects w w' t new
    /\ (match s with
        | Next r => rejected r = false
        | Exit o => exists msg, o = Responded (error msg)
        end)
    /\ forall fs i f,
         files req = Some fs -> fs !! i = Some f ->
         offending cfg (user ctx) f = true ->
         (exists msg, s = Exit (Responded (error msg))) /\ (length new <= i)%nat.
Proof.
  unfold ingest_batch.
  destruct (files req) as [[|f0 fs0]|] eqn:Hfiles.
  3:{ exists w, (Exit (Responded (error "no files"))), [], [].
      do 2 (split; [done|]). split; [apply effects_refl|].
      split; [by eexists|]. done. }
  { exists w, (Exit (Responded (error "no files"))), [], [].
    do 2 (split; [done|]). split; [apply effects_refl|].
    split; [by eexists|]. intros fs i f [= <-] Hi. by destruct i. }
  destruct (upload_files_run env cfg ctx req (f0 :: fs0) 0%nat [] w)
    as (w1 & s & t & new & Hrun & Htmp & Husers & Himg & Htr & Hord & Hc & Hs & Hend).
  assert (Heff : effects w w1 t new) by done.
  destruct s as [urls|o].
  - rewrite (bind_next (B:=NextApiRes) _ _ _ _ _ Hrun).
    destruct (ratelimit_exit_run env cfg ctx w1) as (w2 & t2 & Hexit & Htmp2 & _ & Heff2).
    rewrite (bind_next (B:=NextApiRes) _ _ _ _ _ Hexit).
    exists w2, (Next (json_files urls (expiry ctx))), (t ++ t2), (new ++ []).
    split; [done|]. split; [congruence|].
    split; [by eapply effects_trans|]. split; [done|].
    intros fs i f [= <-] Hi Hoff. destruct Hend as [_ Hall].
    rewrite forallb_forall in Hall.
    assert (Hin : In f (f0 :: fs0)).
    { apply list_elem_of_In, list_elem_of_lookup. eauto. }
    apply Hall in Hin. by rewrite Hoff in Hin.
  - rewrite (bind_exit (B:=NextApiRes) _ _ _ _ _ Hrun).
    exists w1, (Exit o), t, new. destruct Hend as ([msg ->] & f' & Hk & Hoff' & Hall).
    do 3 (split; [done|]). split; [by eexists|].
    intros fs i f [= <-] Hi Hoff. split; [by eexists|].
    destruct (decide (length new <= i)%nat) as [|Hgt]; [done|]. exfalso.
    rewrite forallb_forall in Hall.
    assert (Hin : In f (take (length new) (f0 :: fs0))).
    { apply list_elem_of_In, list_elem_of_lookup. exists i.
      rewrite lookup_take_lt by lia. done. }
    apply Hall in Hin. by rewrite Hoff in Hin.
Qed.

Lemma ratelimit_entry_run env ctx w :
  (exists remaining,
      ratelimit_entry env ctx w = (w, Exit (Responded (ratelimited remaining))))
  \/ (exists w' t, ratelimit_entry env ctx w = (w', Next tt)
        /\ tmpdir w' = tmpdir w /\ effects w w' t []).
Proof.
  unfold ratelimit_entry. destruct (User.ratelimit (user ctx)) as [t|].
  2:{ right. exists w, []. do 2 (split; [done|]). apply effects_refl. }
  destruct (t - Date_now_entry env <=? 0).
  - right. destruct (user_update_run (User.id (user ctx)) None w)
      as (w' & H & ? & ? & ? & ?). by eexists w', _.
  - left. by eexists.
Qed.

(** The whole-upload path always answers; an offending file at index [i]
    makes the answer a refusal, with at most [i] records created. *)
Lemma whole_upload_run env cfg ctx req w :
  exists w' r t new,
    outcome_of (whole_upload env cfg ctx req) w = (w', Responded r)
    /\ tmpdir w' = tmpdir w
    /\ effects w w' t new
    /\ forall fs i f,
         files req = Some fs -> fs !! i = Some f ->
         offending cfg (user ctx) f = true ->
         rejected r = true /\ (length new <= i)%nat.
Proof.
  unfold outcome_of, whole_upload.
  destruct (ratelimit_entry_run env ctx w) as [[rem H]|(w1 & t1 & H & Htmp1 & Heff1)].
  { rewrite (bind_exit (B:=NextApiRes) _ _ _ _ _ H).
    exists w, (ratelimited rem), [], []. do 2 (split; [done|]).
    split; [apply effects_refl|]. intros. split; [done|]. simpl. lia. }
  rewrite (bind_next (B:=NextApiRes) _ _ _ _ _ H).
  destruct (ingest_batch_run env cfg ctx req w1)
    as (w2 & s & t2 & new & Hrun & Htmp2 & Heff2 & Hs & Hoff).
  rewrite Hrun. destruct s as [r|o].
  - exists w2, r, (t1 ++ t2), ([] ++ new). split; [done|]. split; [congruence|].
    split; [by eapply effects_trans|]. intros fs i f Hfs Hi Ho.
    by destruct (Hoff fs i f Hfs Hi Ho) as [[msg ?] _].
  - destruct Hs as [msg ->].
    exists w2, (error msg), (t1 ++ t2), ([] ++ new). split; [done|].
    split; [congruence|]. split; [by eapply effects_trans|].
    intros fs i f Hfs Hi Ho. split; [done|].
    by destruct (Hoff fs i f Hfs Hi Ho) as [_ ?].
Qed.

(** ** Effects of the chunked path *)

Lemma with_tmpdir_id w : with_tmpdir (tmpdir w) w = w.
Proof. by destruct w. Qed.

Lemma with_tmpdir_twice m m' w : with_tmpdir m (with_tmpdir m' w) = with_tmpdir m w.
Proof. done. Qed.

(** A write is refused and changes nothing, or changes the files only. *)
Lemma writeFile_run env path data w :
  (exists e, writeFile env path data w = (w, Exit (Thrown e)))
  \/ (exists m o,
        writeFile env path data w = (with_outside o (with_tmpdir m w), Next tt)).
Proof.
  unfold writeFile. destruct (fs_refuses env path) as [e|]; [left; by exists e|].
  right. destruct (entry_of (os_tmpdir env) path) as [name|].
  - by exists (<[name := data]> (tmpdir w)), (outside w).
  - by exists (tmpdir w), (outside w ++ [(path, data)]).
Qed.

Lemma effects_frame w w' :
  images w' = images w -> trace w' = trace w -> effects w w' [] [].
Proof. intros Hi Ht. unfold effects. by rewrite Hi, Ht, !app_nil_r. Qed.

(** The loop over the chunks touches the temporary directory only. *)
Lemma combine_chunks_frame cs : forall buf w w' s,
  combine_chunks cs buf w = (w', s) -> exists m, w' = with_tmpdir m w.
Proof.
  induction cs as [|c cs IH]; intros buf w w' s H; simpl in H.
  { inversion H; subst. eexists. symmetry. apply with_tmpdir_id. }
  unfold mbind, M_bind, readFile, unlink in H.
  destruct (tmpdir w !! filename c) as [data|] eqn:Hlook.
  2:{ inversion H; subst. eexists. symmetry. apply with_tmpdir_id. }
  simpl in H. rewrite Hlook in H.
  destruct (Uint8Array_set buf data (start c)) as [e|buf']; simpl in H.
  { inversion H; subst. by eexists. }
  apply IH in H as [m ->]. by eexists.
Qed.

Lemma reassemble_frame env identifier total w w' s :
  reassemble env identifier total w = (w', s) -> exists m, w' = with_tmpdir m w.
Proof.
  unfold reassemble, mbind, M_bind, readdir. intros H.
  destruct (new_Uint8Array (typed_array_limit env) total) as [e|buf]; simpl in H.
  { inversion H; subst. eexists. symmetry. apply with_tmpdir_id. }
  by apply combine_chunks_frame in H.
Qed.

(** When the file name is present, its extension is not disabled, and the
    mimetype is present whenever a compression percent is in force, the
    reassembled bytes are recorded and then written as they are. *)
Lemma ingest_reassembled_ok env cfg ctx req chunks w filename :
  headers req !! "x-zipline-partial-filename" = Some filename ->
  disabled cfg (ext_of filename) = false ->
  (truthy_num (imageCompressionPercent ctx) = true ->
   is_Some (headers req !! "x-zipline-partial-mimetype")) ->
  exists w' url img pre,
    ingest_reassembled env cfg ctx req chunks w = (w', Next (json_files [url] None))
    /\ tmpdir w' = tmpdir w /\ users w' = users w
    /\ images w' = images w ++ [img]
    /\ Image.mimetype img = headers req !! "x-zipline-partial-mimetype"
    /\ datasource w' = <[Image.file img := chunks]> (datasource w)
    /\ trace w' = trace w ++ EvImageCreate img :: pre ++ [EvSave (Image.file img) chunks]
    /\ forallb quiet pre = true.
Proof.
  intros Hname Hext Hmime. unfold ingest_reassembled. rewrite Hname.
  rewrite (bind_next (B:=NextApiRes) (defined (Some filename)) _ w w filename eq_refl).
  rewrite Hext. step_if_goal.
  destruct (truthy_num (imageCompressionPercent ctx)).
  - destruct Hmime as [m Hm]; [done|]. rewrite Hm.
    unfold mbind, M_bind, defined, image_create, maybe_invis, createInvisImage,
      datasource_save, mret, M_ret, emit.
    destruct (truthy (headers req !! "zws")); simpl; rewrite <- ?app_assoc; simpl;
      first [ by (eexists _, _, _, [_]; repeat (split; [reflexivity|]); done)
            | by (eexists _, _, _, []; repeat (split; [reflexivity|]); done) ].
  - unfold mbind, M_bind, defined, image_create, maybe_invis, createInvisImage,
      datasource_save, mret, M_ret, emit.
    destruct (truthy (headers req !! "zws")); simpl; rewrite <- ?app_assoc; simpl;
      first [ by (eexists _, _, _, [_]; repeat (split; [reflexivity|]); done)
            | by (eexists _, _, _, []; repeat (split; [reflexivity|]); done) ].
Qed.

Lemma effects_ingest w w' img pre data post :
  images w' = images w ++ [img] ->
  trace w' = trace w ++ EvImageCreate img :: pre ++ EvSave (Image.file img) data :: post ->
  forallb quiet pre = true -> forallb quiet post = true ->
  effects w w' (EvImageCreate img :: pre ++ EvSave (Image.file img) data :: post) [img].
Proof.
  intros Hi Ht Hpre Hpost. unfold effects. split; [done|]. split; [done|].
  split; [by apply well_ordered_ingest|].
  change (?a :: pre ++ ?b :: post) with ([a] ++ pre ++ [b] ++ post).
  by rewrite !creates_app, !saves_app, (creates_quiet pre), (creates_quiet post),
    (saves_quiet pre), (saves_quiet post).
Qed.

(** Whatever the headers, the ingestion of the reassembled bytes leaves the
    temporary directory and the users alone. *)
Lemma ingest_reassembled_run env cfg ctx req chunks w :
  exists w' s t new,
    ingest_reassembled env cfg ctx req chunks w = (w', s)
    /\ tmpdir w' = tmpdir w /\ users w' = users w /\ effects w w' t new.
Proof.
  destruct (headers req !! "x-zipline-partial-filename") as [filename|] eqn:Hname.
  2:{ exists w, (Exit (Thrown TypeError)), [], []. unfold ingest_reassembled.
      rewrite Hname. do 3 (split; [done|]). apply effects_refl. }
  destruct (disabled cfg (ext_of filename)) eqn:Hext.
  { eexists w, _, [], []. unfold ingest_reassembled. rewrite Hname.
    rewrite (bind_next (B:=NextApiRes) (defined (Some filename)) _ w w filename eq_refl).
    rewrite Hext. step_if_goal. do 3 (split; [done|]). apply effects_refl. }
  destruct (truthy_num (imageCompressionPercent ctx)) eqn:Hpct.
  - destruct (headers req !! "x-zipline-partial-mimetype") as [m|] eqn:Hm.
    + destruct (ingest_reassembled_ok env cfg ctx req chunks w filename Hname Hext)
        as (w' & url & img & pre & Hrun & ? & ? & ? & ? & ? & ? & ?).
      { intros _. rewrite Hm. by eexists. }
      eexists w', _, _, [img]. do 3 (split; [done|]). by apply effects_ingest.
    + eexists w, (Exit (Thrown TypeError)), [], []. unfold ingest_reassembled.
      rewrite Hname.
      rewrite (bind_next (B:=NextApiRes) (defined (Some filename)) _ w w filename eq_refl).
      rewrite Hext. step_if_goal. rewrite Hpct, Hm.
      do 3 (split; [done|]). apply effects_refl.
  - destruct (ingest_reassembled_ok env cfg ctx req chunks w filename Hname Hext)
      as (w' & url & img & pre & Hrun & ? & ? & ? & ? & ? & ? & ?).
    { by rewrite Hpct. }
    eexists w', _, _, [img]. do 3 (split; [done|]). by apply effects_ingest.
Qed.

Lemma effects_with_tmpdir m w : effects w (with_tmpdir m w) [] [].
Proof. unfold effects. simpl. by rewrite !app_nil_r. Qed.

(** The chunked path: it never touches the users, and what it records and
    writes is in order. *)
Lemma partial_upload_run env cfg ctx req w :
  exists w' o t new,
    outcome_of (partial_upload env cfg ctx req) w = (w', o)
    /\ users w' = users w /\ effects w w' t new.
Proof.
  unfold outcome_of, partial_upload, first_buffer.
  destruct (files req) as [[|f fs]|].
  1,3: by exists w, (Thrown TypeError), [], []; do 2 (split; [done|]); apply effects_refl.
  unfold mbind at 1, M_bind at 1, mret at 1, M_ret at 1.
  destruct (writeFile_run env
              (tempFile env (headers req !! "x-zipline-partial-identifier")
                        (content_range req !! 0%nat) (content_range req !! 1%nat))
              (MulterFile.buffer f) w) as [[e Hw]|(m0 & o0 & Hw)].
  { rewrite (bind_exit (B:=NextApiRes) _ _ _ _ _ Hw).
    exists w, (Thrown e), [], []. do 2 (split; [done|]). apply effects_refl. }
  rewrite (bind_next (B:=NextApiRes) _ _ _ _ _ Hw).
  set (w1 := with_outside o0 (with_tmpdir m0 w)).
  destruct (bool_decide _).
  2:{ exists w1, (Responded json_success), [], []. do 2 (split; [done|]).
      by apply effects_frame. }
  destruct (reassemble env (headers req !! "x-zipline-partial-identifier")
              (content_range req !! 2%nat) w1) as [w2 s] eqn:Hre.
  destruct (reassemble_frame _ _ _ _ _ _ Hre) as [m ->].
  destruct s as [chunks|o].
  2:{ rewrite (bind_exit (B:=NextApiRes) _ _ _ _ _ Hre).
      eexists _, _, [], []. split; [reflexivity|]. split; [done|].
      by apply effects_frame. }
  rewrite (bind_next (B:=NextApiRes) _ _ _ _ _ Hre).
  destruct (ingest_reassembled_run env cfg ctx req chunks (with_tmpdir m w1))
    as (w3 & s & t & new & Hrun & Htmp & Husers & Heff).
  rewrite Hrun.
  assert (Heff' : effects w w3 t new).
  { apply (effects_trans w (with_tmpdir m w1) w3 [] t [] new); [|done].
    by apply effects_frame. }
  destruct s; eexists _, _, t, new; (split; [reflexivity|]); by split.
Qed.

(** ** Effects of the handler *)

Lemma handler_effects env cfg req w :
  exists w' o t new, handler env cfg req w = (w', o) /\ effects w w' t new.
Proof.
  destruct (validate env req w) as [w0 s] eqn:Hv.
  pose proof (validate_world _ _ _ _ _ Hv) as ->.
  destruct s as [ctx|o].
  2:{ rewrite (handler_refused _ _ _ _ _ Hv). exists w, o, [], [].
      split; [done|]. apply effects_refl. }
  destruct (truthy (headers req !! "content-range")) eqn:Hcr.
  - rewrite (handler_partial _ _ _ _ _ Hv Hcr).
    destruct (partial_upload_run env cfg ctx req w) as (w' & o & t & new & H & _ & Heff).
    by exists w', o, t, new.
  - rewrite (handler_whole _ _ _ _ _ Hv Hcr).
    destruct (whole_upload_run env cfg ctx req w) as (w' & r & t & new & H & _ & Heff & _).
    by exists w', (Responded r), t, new.
Qed.

(** * The claims *)

(** ** C6: the record comes before the bytes *)

(** C6.  In every run of the handler, on the whole-upload path and on the
    chunked path, each write to the blob store comes strictly after the
    creation, in the same run, of a File Record whose stored file name is the
    key written: the blob store is never written for an upload whose record
    does not exist yet. *)
Theorem C6_record_created_before_blob_written env cfg req w :
  exists t,
    trace (handler env cfg req w).1 = trace w ++ t /\ recorded_before_saved t.
Proof.
  destruct (handler_effects env cfg req w) as (w' & o & t & new & H & _ & Ht & Hord & _).
  exists t. rewrite H. split; [done|]. by apply well_ordered_recorded.
Qed.

(** ** C10: the size limit *)

Lemma handler_offending env cfg req w fs i f :
  truthy (headers req !! "content-range") = false ->
  files req = Some fs -> fs !! i = Some f ->
  (forall ctx, validate env req w = (w, Next ctx) -> offending cfg (user ctx) f = true) ->
  exists w' r t new,
    handler env cfg req w = (w', Responded r) /\ rejected r = true
    /\ effects w w' t new /\ (length new <= i)%nat.
Proof.
  intros Hcr Hfs Hi Hoff.
  destruct (validate env req w) as [w0 s] eqn:Hv.
  pose proof (validate_world _ _ _ _ _ Hv) as ->.
  destruct s as [ctx|o].
  - rewrite (handler_whole _ _ _ _ _ Hv Hcr).
    destruct (whole_upload_run env cfg ctx req w) as (w' & r & t & new & H & _ & Heff & Hrej).
    destruct (Hrej fs i f Hfs Hi (Hoff ctx eq_refl)) as [? ?].
    by exists w', r, t, new.
  - rewrite (handler_refused _ _ _ _ _ Hv).
    destruct (validate_inv _ _ _ _ _ Hv) as [_ (r & -> & Hr)].
    exists w, r, [], []. split; [done|]. split; [done|].
    split; [apply effects_refl|]. simpl. lia.
Qed.

Lemma partial_upload_limits env cfg ctx req a b :
  partial_upload env (with_limits a b cfg) ctx req = partial_upload env cfg ctx req.
Proof. reflexivity. Qed.

(** C10.  A whole-upload request with a file, at index [i] of the batch,
    larger than the limit of the role of the authenticated user
    ([admin_limit] for an administrator, [user_limit] otherwise) is refused,
    and the records the run has created are at most [i], those of earlier
    files: the record of that file is not created.  On the chunked path the
    limits are not read: the handler does the same whatever their values. *)
Theorem C10_size_limit_on_whole_uploads_only env cfg req w u fs i f :
  user_findFirst (tpl (headers req !! "authorization")) w = Some u ->
  truthy (headers req !! "content-range") = false ->
  files req = Some fs ->
  fs !! i = Some f ->
  size_limit cfg u < MulterFile.size f ->
  (exists w' r t new,
      handler env cfg req w = (w', Responded r)
      /\ rejected r = true
      /\ images w' = images w ++ new
      /\ trace w' = trace w ++ t
      /\ (length new <= i)%nat /\ (creates t <= i)%nat /\ (saves t <= i)%nat)
  /\ (forall req' w0 admin_limit user_limit,
        truthy (headers req' !! "content-range") = true ->
        handler env (with_limits admin_limit user_limit cfg) req' w0
        = handler env cfg req' w0).
Proof.
  intros Hu Hcr Hfs Hi Hsize. split.
  - destruct (handler_offending env cfg req w fs i f Hcr Hfs Hi)
      as (w' & r & t & new & H & Hr & (Himg & Htr & _ & Hc & Hs) & Hlen).
    { intros ctx Hv. destruct (validate_inv _ _ _ _ _ Hv) as [_ [Hu' _]].
      rewrite Hu in Hu'. injection Hu' as ->.
      unfold offending, oversize. apply orb_true_intro. left. by apply Z.ltb_lt. }
    exists w', r, t, new. rewrite Hc, Hs. by repeat split.
  - intros req' w0 a b Hcr'. unfold handler, outcome_of, handler_body.
    destruct (validate env req' w0) as [w1 [ctx|o]] eqn:Hv.
    + rewrite !(bind_next (B:=NextApiRes) _ _ _ _ _ Hv).
      by rewrite Hcr', partial_upload_limits.
    + by rewrite !(bind_exit (B:=NextApiRes) _ _ _ _ _ Hv).
Qed.

(** ** C4: disabled extensions *)

(** C4, amended.  A whole-upload request with a file of a disabled extension
    at index [i] of the batch is refused; no File Record is created and no
    bytes are written for that file or for a later one: the run has created
    at most [i] records and written at most [i] blobs, those of files before
    it. *)
Theorem C4_disabled_extension_stops_the_batch env cfg req w fs i f :
  truthy (headers req !! "content-range") = false ->
  files req = Some fs ->
  fs !! i = Some f ->
  disabled cfg (ext_of (MulterFile.originalname f)) = true ->
  exists w' r t new,
    handler env cfg req w = (w', Responded r)
    /\ rejected r = true
    /\ images w' = images w ++ new
    /\ trace w' = trace w ++ t
    /\ (length new <= i)%nat /\ (creates t <= i)%nat /\ (saves t <= i)%nat.
Proof.
  intros Hcr Hfs Hi Hdis.
  destruct (handler_offending env cfg req w fs i f Hcr Hfs Hi)
    as (w' & r & t & new & H & Hr & (Himg & Htr & _ & Hc & Hs) & Hlen).
  { intros ctx _. unfold offending. rewrite Hdis. apply orb_true_r. }
  exists w', r, t, new. rewrite Hc, Hs. by repeat split.
Qed.

(** ** C7: the cooldown check on entry *)

Lemma set_ratelimit_token uid r u : User.token (set_ratelimit uid r u) = User.token u.
Proof. unfold set_ratelimit. by destruct (User.id u =? uid). Qed.

Lemma find_set_ratelimit tok uid r us :
  List.find (fun u => String.eqb (User.token u) tok) (map (set_ratelimit uid r) us)
  = set_ratelimit uid r <$> List.find (fun u => String.eqb (User.token u) tok) us.
Proof.
  induction us as [|u us IH]; [done|]. simpl. rewrite set_ratelimit_token.
  by destruct (String.eqb (User.token u) tok).
Qed.

(** C7, amended.  A request without [content-range] header that passes the
    header checks, from a user with a stored cooldown timestamp [t]: when [t]
    is in the future the request is refused with [t - now] remaining
    milliseconds and nothing changes; when [t] has passed, the stored
    timestamp of the user is cleared and the request goes on with the batch
    from there. *)
Theorem C7_cooldown_gates_whole_uploads env cfg req w ctx t :
  validate env req w = (w, Next ctx) ->
  truthy (headers req !! "content-range") = false ->
  User.ratelimit (user ctx) = Some t ->
  (Date_now_entry env < t ->
     handler env cfg req w
     = (w, Responded (ratelimited (t - Date_now_entry env))))
  /\ (t <= Date_now_entry env ->
      exists w1,
        user_update (User.id (user ctx)) None w = (w1, Next tt)
        /\ User.ratelimit <$> user_findFirst (tpl (headers req !! "authorization")) w1
           = Some None
        /\ handler env cfg req w = outcome_of (ingest_batch env cfg ctx req) w1).
Proof.
  intros Hv Hcr Ht. rewrite (handler_whole _ _ _ _ _ Hv Hcr).
  unfold outcome_of, whole_upload, ratelimit_entry. rewrite Ht. split; intros Hnow.
  - assert (Hle : (t - Date_now_entry env <=? 0) = false) by (apply Z.leb_gt; lia).
    by rewrite Hle.
  - assert (Hle : (t - Date_now_entry env <=? 0) = true) by (apply Z.leb_le; lia).
    rewrite Hle. eexists. split; [reflexivity|]. split; [|reflexivity].
    destruct (validate_inv _ _ _ _ _ Hv) as [_ [Hu _]].
    unfold user_findFirst in *. simpl. rewrite find_set_ratelimit, Hu. simpl.
    unfold set_ratelimit. by rewrite Z.eqb_refl.
Qed.

(** ** C3: arming the cooldown *)

(** For a user who is not an administrator the code after the loop changes
    nothing, whatever the configured durations. *)
Lemma ratelimit_exit_nonadmin env cfg ctx w :
  User.administrator (user ctx) = false ->
  ratelimit_exit env cfg ctx w = (w, Next tt).
Proof.
  intros H. unfold ratelimit_exit. rewrite H. simpl.
  by destruct (0 <? ratelimit_user cfg).
Qed.

(** ** C8: the format selector *)

Lemma existsb_eqb_false (s : string) (l : list string) :
  s ∉ l -> existsb (String.eqb s) l = false.
Proof.
  induction l as [|x l IH]; [done|]. intros H. simpl.
  apply not_elem_of_cons in H as [Hne Hl].
  apply String.eqb_neq in Hne. rewrite Hne. by apply IH.
Qed.

Lemma unknown_format_random env cfg req w ctx i original :
  validate env req w = (w, Next ctx) ->
  (headers req !! "format" = None
   \/ exists s, headers req !! "format" = Some s
                /\ toUpperCase s ∉ ["RANDOM"; "DATE"; "UUID"; "NAME"]) ->
  resolve_fileName env cfg (format ctx) i original
  = randomChars env i (uploader_length cfg).
Proof.
  intros Hv Hsel. destruct (validate_inv _ _ _ _ _ Hv) as [_ (_ & -> & _)].
  assert (Hfmt : parse_format (headers req !! "format") = Some RANDOM
                 \/ parse_format (headers req !! "format") = None).
  { destruct Hsel as [->|(s & -> & Hs)]; [by left|].
    unfold parse_format, rawFormat. change (default "" (Some s)) with s.
    destruct (String.eqb (toUpperCase s) "") eqn:He; [by left|]. right.
    rewrite existsb_eqb_false; [done|]. unfold ImageFormat_keys.
    rewrite !not_elem_of_cons in *. tauto. }
  by destruct Hfmt as [-> | ->].
Qed.

(** The name and the blob of a chunked upload that is ingested. *)
Lemma ingest_reassembled_name env cfg ctx req chunks w w' r :
  ingest_reassembled env cfg ctx req chunks w = (w', Next r) ->
  exists filename img (used : bool),
    headers req !! "x-zipline-partial-filename" = Some filename
    /\ images w' = images w ++ [img]
    /\ Image.file img
       = resolve_fileName env cfg (format ctx) 0 filename +:+ "."
         +:+ (if used then "jpg" else tpl (ext_of filename))
    /\ datasource w' !! Image.file img = Some chunks.
Proof.
  unfold ingest_reassembled.
  destruct (headers req !! "x-zipline-partial-filename") as [filename|]; [|done].
  rewrite (bind_next (B:=NextApiRes) (defined (Some filename)) _ w w filename eq_refl).
  destruct (disabled cfg (ext_of filename)).
  { step_if_goal. done. }
  step_if_goal.
  destruct (truthy_num (imageCompressionPercent ctx)).
  - destruct (headers req !! "x-zipline-partial-mimetype") as [m|]; [|done].
    unfold mbind, M_bind, defined, image_create, maybe_invis, createInvisImage,
      datasource_save, mret, M_ret, emit.
    destruct (truthy (headers req !! "zws")); simpl; intros [= <- _]; simpl;
      (eexists filename, _, (startsWith m "image/"); split; [reflexivity|];
       split; [reflexivity|]; split; [reflexivity|]; apply lookup_insert_eq).
  - unfold mbind, M_bind, defined, image_create, maybe_invis, createInvisImage,
      datasource_save, mret, M_ret, emit.
    destruct (truthy (headers req !! "zws")); simpl; intros [= <- _]; simpl;
      (eexists filename, _, false; split; [reflexivity|];
       split; [reflexivity|]; split; [reflexivity|]; apply lookup_insert_eq).
Qed.

(** Every record of a request is named by the switch on the format: in the
    loop over the files, after a reassembly, and so in the handler. *)
Lemma upload_files_names env cfg ctx req fs : forall i urls w w' s,
  upload_files env cfg ctx req i fs urls w = (w', s) ->
  exists new,
    images w' = images w ++ new
    /\ Forall (fun img => exists k original ext,
                 Image.file img
                 = resolve_fileName env cfg (format ctx) k original +:+ "." +:+ ext)
              new.
Proof.
  induction fs as [|f fs IH]; intros i urls w w' s H; simpl in H.
  { injection H as <- _. exists []. by rewrite app_nil_r. }
  destruct (offending cfg (user ctx) f) eqn:Hoff.
  - destruct (upload_file_offending env cfg ctx req i f w Hoff) as [msg Hrun].
    rewrite (bind_exit (B:=list string) _ _ _ _ _ Hrun) in H.
    injection H as <- _. exists []. by rewrite app_nil_r.
  - destruct (upload_file_ingests env cfg ctx req i f w Hoff)
      as (w1 & url & pre & post & Hrun & _ & _ & Himg & _).
    rewrite (bind_next (B:=list string) _ _ _ _ _ Hrun) in H.
    destruct (IH _ _ _ _ _ H) as (new & Himg' & Hall).
    eexists (_ :: new). split. { rewrite Himg', Himg. by rewrite <- app_assoc. }
    constructor; [|done]. cbn [Image.file]. by eexists i, _, _.
Qed.

Lemma whole_upload_names env cfg ctx req w :
  exists new,
    images (outcome_of (whole_upload env cfg ctx req) w).1 = images w ++ new
    /\ Forall (fun img => exists k original ext,
                 Image.file img
                 = resolve_fileName env cfg (format ctx) k original +:+ "." +:+ ext)
              new.
Proof.
  unfold outcome_of, whole_upload.
  destruct (ratelimit_entry_run env ctx w) as [[rem H]|(w1 & t1 & H & _ & Hi1 & _)].
  { rewrite (bind_exit (B:=NextApiRes) _ _ _ _ _ H). exists []. by rewrite app_nil_r. }
  rewrite (bind_next (B:=NextApiRes) _ _ _ _ _ H). rewrite app_nil_r in Hi1.
  unfold ingest_batch. destruct (files req) as [[|f0 fs0]|].
  1,3: exists []; simpl; by rewrite app_nil_r.
  destruct (upload_files env cfg ctx req 0 (f0 :: fs0) [] w1) as [w2 s] eqn:Hrun.
  destruct (upload_files_names _ _ _ _ _ _ _ _ _ _ Hrun) as (new & Himg & Hall).
  exists new. split; [|done]. destruct s as [urls|o].
  - rewrite (bind_next (B:=NextApiRes) _ _ _ _ _ Hrun).
    destruct (ratelimit_exit_run env cfg ctx w2) as (w3 & t3 & Hexit & _ & _ & Hi3 & _).
    rewrite (bind_next (B:=NextApiRes) _ _ _ _ _ Hexit). simpl.
    rewrite app_nil_r in Hi3. by rewrite Hi3, Himg, Hi1.
  - rewrite (bind_exit (B:=NextApiRes) _ _ _ _ _ Hrun). simpl. by rewrite Himg, Hi1.
Qed.

Lemma ingest_reassembled_names env cfg ctx req chunks w :
  exists new,
    images (ingest_reassembled env cfg ctx req chunks w).1 = images w ++ new
    /\ Forall (fun img => exists k original ext,
                 Image.file img
                 = resolve_fileName env cfg (format ctx) k original +:+ "." +:+ ext)
              new.
Proof.
  destruct (ingest_reassembled env cfg ctx req chunks w) as [w' [r|o]] eqn:Hrun.
  - destruct (ingest_reassembled_name _ _ _ _ _ _ _ _ Hrun)
      as (filename & img & used & _ & Himg & Hfile & _).
    exists [img]. split; [done|]. constructor; [|done]. by eexists 0%nat, _, _.
  - exists []. rewrite app_nil_r. simpl.
    revert Hrun. unfold ingest_reassembled.
    destruct (headers req !! "x-zipline-partial-filename") as [filename|]; [|by intros [= <- _]].
    rewrite (bind_next (B:=NextApiRes) (defined (Some filename)) _ w w filename eq_refl).
    destruct (disabled cfg (ext_of filename)).
    { step_if_goal. by intros [= <- _]. }
    step_if_goal.
    destruct (truthy_num (imageCompressionPercent ctx)).
    + destruct (headers req !! "x-zipline-partial-mimetype") as [m|]; [|by intros [= <- _]].
      unfold mbind, M_bind, defined, image_create, maybe_invis, createInvisImage,
        datasource_save, mret, M_ret, emit.
      destruct (truthy (headers req !! "zws")); simpl; by intros [=].
    + unfold mbind, M_bind, defined, image_create, maybe_invis, createInvisImage,
        datasource_save, mret, M_ret, emit.
      destruct (truthy (headers req !! "zws")); simpl; by intros [=].
Qed.

Lemma partial_upload_names env cfg ctx req w :
  exists new,
    images (outcome_of (partial_upload env cfg ctx req) w).1 = images w ++ new
    /\ Forall (fun img => exists k original ext,
                 Image.file img
                 = resolve_fileName env cfg (format ctx) k original +:+ "." +:+ ext)
              new.
Proof.
  unfold outcome_of, partial_upload, first_buffer.
  destruct (files req) as [[|f fs]|].
  1,3: exists []; simpl; by rewrite app_nil_r.
  unfold mbind at 1, M_bind at 1, mret at 1, M_ret at 1.
  destruct (writeFile_run env
              (tempFile env (headers req !! "x-zipline-partial-identifier")
                        (content_range req !! 0%nat) (content_range req !! 1%nat))
              (MulterFile.buffer f) w) as [[e Hw]|(m0 & o0 & Hw)].
  { rewrite (bind_exit (B:=NextApiRes) _ _ _ _ _ Hw). exists []. simpl.
    by rewrite app_nil_r. }
  rewrite (bind_next (B:=NextApiRes) _ _ _ _ _ Hw).
  set (w1 := with_outside o0 (with_tmpdir m0 w)).
  destruct (bool_decide _).
  2:{ exists []. simpl. by rewrite app_nil_r. }
  destruct (reassemble env (headers req !! "x-zipline-partial-identifier")
              (content_range req !! 2%nat) w1) as [w2 s] eqn:Hre.
  destruct (reassemble_frame _ _ _ _ _ _ Hre) as [m ->].
  destruct s as [chunks|o].
  2:{ rewrite (bind_exit (B:=NextApiRes) _ _ _ _ _ Hre). exists []. simpl.
      by rewrite app_nil_r. }
  rewrite (bind_next (B:=NextApiRes) _ _ _ _ _ Hre).
  destruct (ingest_reassembled_names env cfg ctx req chunks (with_tmpdir m w1))
    as (new & Himg & Hall).
  exists new. split; [|done].
  destruct (ingest_reassembled env cfg ctx req chunks (with_tmpdir m w1)) as [w3 [r|o]];
    exact Himg.
Qed.

Lemma handler_names env cfg req w ctx :
  validate env req w = (w, Next ctx) ->
  exists new,
    images (handler env cfg req w).1 = images w ++ new
    /\ Forall (fun img => exists k original ext,
                 Image.file img
                 = resolve_fileName env cfg (format ctx) k original +:+ "." +:+ ext)
              new.
Proof.
  intros Hv. destruct (truthy (headers req !! "content-range")) eqn:Hcr.
  - rewrite (handler_partial _ _ _ _ _ Hv Hcr). apply partial_upload_names.
  - rewrite (handler_whole _ _ _ _ _ Hv Hcr). apply whole_upload_names.
Qed.

(** C8.  When the [format] header is absent, or its upper-case form is none
    of RANDOM, DATE, UUID and NAME, every upload of the request that is
    ingested, a file of a whole upload as well as a reassembled chunked
    upload, gets a File Record whose file name is the stem
    [randomChars(zconfig.uploader.length)], a dot and the extension, and its
    bytes are in the blob store under that name; the stem is the very stem
    of the RANDOM case of the switch, and, [randomChars] keeping its
    contract, it has the configured length and consists of digits and
    letters.  So every File Record the handler creates for the request,
    whatever its answer, is named by such a stem, a dot and an extension. *)
Theorem C8_unknown_format_names_as_random env cfg req w ctx :
  validate env req w = (w, Next ctx) ->
  (headers req !! "format" = None
   \/ exists s, headers req !! "format" = Some s
                /\ toUpperCase s ∉ ["RANDOM"; "DATE"; "UUID"; "NAME"]) ->
  randomChars_contract env ->
  0 <= uploader_length cfg ->
  (forall i f w1 w2 url,
     upload_file env cfg ctx req i f w1 = (w2, Next url) ->
     let stem := randomChars env i (uploader_length cfg) in
     exists img,
       images w2 = images w1 ++ [img]
       /\ Image.file img
          = stem +:+ "."
            +:+ (if compressionUsed ctx (MulterFile.mimetype f) then "jpg"
                 else tpl (ext_of (MulterFile.originalname f)))
       /\ is_Some (datasource w2 !! Image.file img)
       /\ stem = resolve_fileName env cfg (Some RANDOM) i (MulterFile.originalname f)
       /\ String.length stem = Z.to_nat (uploader_length cfg)
       /\ forallb alphanumeric (chars stem) = true)
  /\ (forall chunks w1 w2 r,
        ingest_reassembled env cfg ctx req chunks w1 = (w2, Next r) ->
        let stem := randomChars env 0 (uploader_length cfg) in
        exists filename img (used : bool),
          headers req !! "x-zipline-partial-filename" = Some filename
          /\ images w2 = images w1 ++ [img]
          /\ Image.file img
             = stem +:+ "." +:+ (if used then "jpg" else tpl (ext_of filename))
          /\ datasource w2 !! Image.file img = Some chunks
          /\ stem = resolve_fileName env cfg (Some RANDOM) 0 filename
          /\ String.length stem = Z.to_nat (uploader_length cfg)
          /\ forallb alphanumeric (chars stem) = true)
  /\ (exists new,
        images (handler env cfg req w).1 = images w ++ new
        /\ Forall (fun img => exists i ext,
                     let stem := randomChars env i (uploader_length cfg) in
                     Image.file img = stem +:+ "." +:+ ext
                     /\ String.length stem = Z.to_nat (uploader_length cfg)
                     /\ forallb alphanumeric (chars stem) = true)
                  new).
Proof.
  intros Hv Hsel Hrandom Hlen. split; [|split].
  - intros i f w1 w2 url Hrun stem.
    destruct (offending cfg (user ctx) f) eqn:Hoff.
    { destruct (upload_file_offending env cfg ctx req i f w1 Hoff) as [msg H].
      rewrite H in Hrun. discriminate. }
    destruct (upload_file_ingests env cfg ctx req i f w1 Hoff)
      as (w' & url' & pre & post & H & _ & _ & Himg & Hds & _).
    rewrite H in Hrun. injection Hrun as <- <-.
    eexists. split; [exact Himg|]. cbn [Image.file].
    rewrite (unknown_format_random env cfg req w ctx i _ Hv Hsel). fold stem.
    split; [done|]. split.
    { rewrite Hds. cbn [Image.file].
      rewrite (unknown_format_random env cfg req w ctx i _ Hv Hsel).
      rewrite lookup_insert_eq. by eexists. }
    split; [done|]. apply (Hrandom i _ Hlen).
  - intros chunks w1 w2 r Hrun stem.
    destruct (ingest_reassembled_name _ _ _ _ _ _ _ _ Hrun)
      as (filename & img & used & Hname & Himg & Hfile & Hds).
    rewrite (unknown_format_random env cfg req w ctx 0 _ Hv Hsel) in Hfile.
    exists filename, img, used. do 2 (split; [done|]). split; [done|].
    split; [done|]. split; [done|]. apply (Hrandom 0%nat _ Hlen).
  - destruct (handler_names env cfg req w ctx Hv) as (new & Himg & Hall).
    exists new. split; [done|]. eapply Forall_impl; [exact Hall|].
    intros img (k & original & ext & Hfile).
    rewrite (unknown_format_random env cfg req w ctx k _ Hv Hsel) in Hfile.
    exists k, ext. split; [done|]. apply (Hrandom k _ Hlen).
Qed.

(** ** The names of the chunks *)

Lemma split_app_nosep (c : ascii) (s2 : string) : forall s1,
  c ∉ chars s1 -> split c (s1 +:+ String c s2) = s1 :: split c s2.
Proof.
  induction s1 as [|a s1 IH]; intros Hc.
  - change ("" +:+ String c s2) with (String c s2). simpl. by rewrite Ascii.eqb_refl.
  - simpl in Hc. apply not_elem_of_cons in Hc as [Hne Hc].
    rewrite append_cons. simpl. rewrite IH by done.
    apply not_eq_sym, Ascii.eqb_neq in Hne. by rewrite Hne.
Qed.

Lemma split_nosep (c : ascii) : forall s, c ∉ chars s -> split c s = [s].
Proof.
  induction s as [|a s IH]; intros Hc; [done|].
  simpl in Hc. apply not_elem_of_cons in Hc as [Hne Hc]. simpl.
  rewrite IH by done. apply not_eq_sym, Ascii.eqb_neq in Hne. by rewrite Hne.
Qed.

Lemma uint_chars (d : uint) : "_"%char ∉ chars (NilEmpty.string_of_uint d).
Proof.
  induction d; simpl; [apply not_elem_of_nil|..];
    (apply not_elem_of_cons; split; [done|assumption]).
Qed.

(** The decimal form of a number contains no underscore. *)
Lemma toString_chars (n : jsnum) : "_"%char ∉ chars (toString n).
Proof.
  destruct n as [|z]; simpl.
  { repeat (apply not_elem_of_cons; split; [done|]). apply not_elem_of_nil. }
  assert (Hu : forall d, "_"%char ∉ chars (NilZero.string_of_uint d)).
  { intros d. pose proof (uint_chars d) as H. destruct d; try done.
    simpl. apply not_elem_of_cons. split; [done|apply not_elem_of_nil]. }
  destruct (Z.to_int z) as [d|d]; simpl; [apply Hu|].
  apply not_elem_of_cons. split; [done|apply Hu].
Qed.

(** Parsing the decimal form of an integer gives the integer back. *)
Lemma Number_toString (z : Z) : Number (toString (Num z)) = Num z.
Proof.
  unfold Number, toString.
  assert (Hparse : NilZero.int_of_string (NilZero.string_of_int (Z.to_int z))
                   = Some (Z.to_int z)).
  { apply NilZero.isi; destruct z as [|p|p]; simpl; try done;
      intros [= H]; by apply (Unsigned.to_uint_nonnil p). }
  destruct (String.eqb _ "") eqn:He.
  { apply String.eqb_eq in He. rewrite He in Hparse. done. }
  by rewrite Hparse, DecimalZ.of_to.
Qed.

(** For an identifier without underscore, the start that the loop reads back
    from the name of a chunk is the start the name was built from. *)
Lemma chunk_offset_chunk_name (identifier : string) (s : Z) (e : option jsnum) :
  "_"%char ∉ chars identifier ->
  chunk_offset (chunk_name (Some identifier) (Some (Num s)) e) = s.
Proof.
  intros Hid. unfold chunk_offset, readChunk, chunk_name. cbn [start tpl tpl_num].
  change ("zipline_partial_" +:+ identifier +:+ "_" +:+ toString (Num s) +:+ "_"
          +:+ tpl_num e)
    with ("zipline" +:+ String "_" ("partial" +:+ String "_" (identifier
          +:+ String "_" (toString (Num s) +:+ String "_" (tpl_num e))))).
  rewrite (split_app_nosep "_" _ "zipline").
  2:{ simpl. repeat (apply not_elem_of_cons; split; [done|]). apply not_elem_of_nil. }
  rewrite (split_app_nosep "_" _ "partial").
  2:{ simpl. repeat (apply not_elem_of_cons; split; [done|]). apply not_elem_of_nil. }
  rewrite (split_app_nosep "_" _ identifier) by done.
  rewrite (split_app_nosep "_" _ (toString (Num s))) by apply toString_chars.
  cbn [lookup list_lookup Number_opt]. by rewrite Number_toString.
Qed.

(** ** The names of the chunks are an encoding *)

Lemma chars_append (s t : string) : chars (s +:+ t) = chars s ++ chars t.
Proof.
  induction s as [|a s IH]; [done|]. rewrite append_cons. simpl. by rewrite IH.
Qed.

(** Two strings that end in a separator followed by a field without
    separator are equal only if the fields and what precedes them are. *)
Lemma append_sep_inj (c : ascii) (x y : string) : forall a b,
  c ∉ chars x -> c ∉ chars y ->
  a +:+ String c x = b +:+ String c y -> a = b /\ x = y.
Proof.
  induction a as [|d a IH]; intros [|d' b] Hx Hy Heq.
  - by injection Heq.
  - exfalso. change ("" +:+ String c x) with (String c x) in Heq.
    rewrite append_cons in Heq. injection Heq as -> ->.
    apply Hx. rewrite chars_append. apply elem_of_app. right. left.
  - exfalso. change ("" +:+ String c y) with (String c y) in Heq.
    rewrite append_cons in Heq. injection Heq as -> <-.
    apply Hy. rewrite chars_append. apply elem_of_app. right. left.
  - rewrite !append_cons in Heq. injection Heq as -> Heq.
    destruct (IH b Hx Hy Heq) as [-> ->]. done.
Qed.

Lemma tpl_num_chars (x : option jsnum) : "_"%char ∉ chars (tpl_num x).
Proof.
  destruct x as [n|]; [apply toString_chars|]. simpl.
  repeat (apply not_elem_of_cons; split; [done|]). apply not_elem_of_nil.
Qed.

Lemma tpl_num_inj (x y : option jsnum) : tpl_num x = tpl_num y -> x = y.
Proof.
  intros H. assert (HN : Number (tpl_num x) = Number (tpl_num y)) by by rewrite H.
  destruct x as [[|z]|], y as [[|z']|]; try done; unfold tpl_num in HN;
    rewrite ?Number_toString in HN;
    change (Number (toString NaN)) with NaN in HN;
    change (Number "undefined") with NaN in HN;
    try discriminate HN.
  by injection HN as ->.
Qed.

Lemma chunk_name_shape identifier s e :
  chunk_name identifier s e
  = "zipline_partial_"
    +:+ (tpl identifier +:+ String "_"%char (tpl_num s)) +:+ String "_"%char (tpl_num e).
Proof. unfold chunk_name. by rewrite append_assoc. Qed.

(** The name of a chunk determines the identifier as it is written in it, the
    start and the end. *)
Lemma chunk_name_inj identifier s e identifier' s' e' :
  chunk_name identifier s e = chunk_name identifier' s' e' ->
  tpl identifier = tpl identifier' /\ s = s' /\ e = e'.
Proof.
  rewrite !chunk_name_shape. intros H. apply String.app_inj in H.
  apply append_sep_inj in H as [H He]; [|apply tpl_num_chars..].
  apply append_sep_inj in H as [Hi Hs]; [|apply tpl_num_chars..].
  split; [done|]. split; by apply tpl_num_inj.
Qed.

(** ** The path of a chunk *)

Lemma uint_slash (d : uint) : "/"%char ∉ chars (NilEmpty.string_of_uint d).
Proof.
  induction d; simpl; [apply not_elem_of_nil|..];
    (apply not_elem_of_cons; split; [done|assumption]).
Qed.

Lemma tpl_num_slash (x : option jsnum) : "/"%char ∉ chars (tpl_num x).
Proof.
  destruct x as [[|z]|]; simpl;
    try (repeat (apply not_elem_of_cons; split; [done|]); apply not_elem_of_nil).
  assert (Hu : forall d, "/"%char ∉ chars (NilZero.string_of_uint d)).
  { intros d. pose proof (uint_slash d) as H. destruct d; try done.
    simpl. apply not_elem_of_cons. split; [done|apply not_elem_of_nil]. }
  destruct (Z.to_int z) as [d|d]; simpl; [apply Hu|].
  apply not_elem_of_cons. split; [done|apply Hu].
Qed.

(** A name without separator that is neither empty nor [.] nor [..] is
    joined to a directory as one of its entries. *)
Lemma join_plain (base : list string) (name : string) :
  "/"%char ∉ chars name -> name <> "" -> name <> "." -> name <> ".." ->
  join base name = base ++ [name].
Proof.
  intros Hsep H0 H1 H2. unfold join. rewrite (split_nosep "/" name Hsep). simpl.
  apply String.eqb_neq in H0, H1, H2. rewrite H0, H1, H2. simpl.
  by rewrite rev_involutive.
Qed.

Lemma entry_of_entry (base : list string) (name : string) :
  entry_of base (base ++ [name]) = Some name.
Proof. unfold entry_of. rewrite last_snoc. by rewrite bool_decide_true. Qed.

(** For an identifier without separator, the path of a chunk is the entry of
    the temporary directory named by the template literal. *)
Lemma tempFile_entry env identifier s e :
  "/"%char ∉ chars (tpl identifier) ->
  tempFile env identifier s e = os_tmpdir env ++ [chunk_name identifier s e].
Proof.
  intros Hid. unfold tempFile. apply join_plain.
  - unfold chunk_name. rewrite !chars_append. intros Hin.
    repeat (apply elem_of_app in Hin as [Hin|Hin]).
    + simpl in Hin. repeat (apply elem_of_cons in Hin as [Hin|Hin]; [done|]).
      by apply elem_of_nil in Hin.
    + done.
    + simpl in Hin. apply elem_of_cons in Hin as [Hin|Hin]; [done|].
      by apply elem_of_nil in Hin.
    + by apply tpl_num_slash in Hin.
    + simpl in Hin. apply elem_of_cons in Hin as [Hin|Hin]; [done|].
      by apply elem_of_nil in Hin.
    + by apply tpl_num_slash in Hin.
  - by rewrite chunk_name_shape.
  - by rewrite chunk_name_shape.
  - by rewrite chunk_name_shape.
Qed.

(** Such a chunk, when the host accepts the write, is stored as that entry. *)
Lemma writeFile_here env identifier s e data w :
  "/"%char ∉ chars (tpl identifier) ->
  fs_refuses env (tempFile env identifier s e) = None ->
  writeFile env (tempFile env identifier s e) data w
  = (with_tmpdir (<[chunk_name identifier s e := data]> (tmpdir w)) w, Next tt).
Proof.
  intros Hid Hok. unfold writeFile. rewrite Hok.
  by rewrite (tempFile_entry env identifier s e Hid), entry_of_entry.
Qed.

(** ** C9: a chunk that is not the last one *)

(** C9, amended.  A request with a [content-range] header that passes the
    header checks, carries a file part and is not flagged as the last chunk,
    whose identifier holds no path separator, whose start and end the
    runtime reads as this fragment does, and whose write the host accepts,
    is answered [{success: true}]; the bytes of its first file part are
    stored in the entry of the temporary directory named from the
    identifier, the start and the end, a name that determines all three;
    every file of the temporary directory under another name, so every
    chunk of another identifier without separator, start or end, is left as
    it was; no File Record is created, nothing is written to the blob store
    or outside the directory, and no user is changed. *)
Theorem C9_intermediate_chunk_is_only_stored env cfg req w ctx f fs :
  validate env req w = (w, Next ctx) ->
  truthy (headers req !! "content-range") = true ->
  files req = Some (f :: fs) ->
  headers req !! "x-zipline-partial-lastchunk" <> Some "true" ->
  let identifier := headers req !! "x-zipline-partial-identifier" in
  let start := content_range req !! 0%nat in
  let end_ := content_range req !! 1%nat in
  "/"%char ∉ chars (tpl identifier) ->
  fields_exact 2 req = true ->
  fs_refuses env (tempFile env identifier start end_) = None ->
  exists w',
    handler env cfg req w = (w', Responded json_success)
    /\ tempFile env identifier start end_
       = os_tmpdir env ++ [chunk_name identifier start end_]
    /\ tmpdir w' !! chunk_name identifier start end_ = Some (MulterFile.buffer f)
    /\ (forall name, name <> chunk_name identifier start end_ ->
          tmpdir w' !! name = tmpdir w !! name)
    /\ (forall identifier' start' end',
          "/"%char ∉ chars (tpl identifier') ->
          (tpl identifier', start', end') <> (tpl identifier, start, end_) ->
          tempFile env identifier' start' end'
          = os_tmpdir env ++ [chunk_name identifier' start' end']
          /\ tmpdir w' !! chunk_name identifier' start' end'
             = tmpdir w !! chunk_name identifier' start' end')
    /\ images w' = images w
    /\ invisibles w' = invisibles w
    /\ datasource w' = datasource w
    /\ users w' = users w
    /\ trace w' = trace w
    /\ outside w' = outside w.
Proof.
  intros Hv Hcr Hfs Hlast identifier start end_ Hid _ Hok.
  rewrite (handler_partial _ _ _ _ _ Hv Hcr).
  unfold outcome_of, partial_upload, first_buffer. rewrite Hfs.
  rewrite bool_decide_false by done.
  unfold mbind at 1, M_bind at 1, mret at 1, M_ret at 1.
  fold identifier start end_.
  rewrite (bind_next (B:=NextApiRes) _ _ _ _ _
             (writeFile_here env identifier start end_ (MulterFile.buffer f) w Hid Hok)).
  eexists. split; [reflexivity|]. simpl.
  split; [by apply tempFile_entry|].
  split; [by rewrite lookup_insert_eq|].
  split; [intros name Hne; by rewrite lookup_insert_ne|].
  split; [|done].
  intros identifier' start' end' Hid' Hne. split; [by apply tempFile_entry|].
  rewrite lookup_insert_ne; [done|].
  intros Heq. apply chunk_name_inj in Heq as (Hi & Hs & He). apply Hne. congruence.
Qed.

(** ** C2: compression *)

Lemma split_nonempty c s : split c s <> [].
Proof.
  destruct s as [|a s]; [done|]. simpl.
  destruct (Ascii.eqb a c); [done|]. by destruct (split c s).
Qed.

Lemma split_app_sep_length (c : ascii) (t : string) : forall s,
  (2 <= length (split c (s +:+ String c t)))%nat.
Proof.
  induction s as [|a s IH]; simpl.
  - rewrite Ascii.eqb_refl. simpl.
    pose proof (split_nonempty c t). destruct (split c t); [done|]. simpl. lia.
  - destruct (Ascii.eqb a c); [simpl; lia|].
    destruct (split c (s +:+ String c t)); simpl in *; lia.
Qed.

Lemma last_split_app_sep (c : ascii) (t : string) : forall s,
  last (split c (s +:+ String c t)) = last (split c t).
Proof.
  induction s as [|a s IH]; simpl.
  - rewrite Ascii.eqb_refl. simpl.
    pose proof (split_nonempty c t). by destruct (split c t).
  - pose proof (split_app_sep_length c t s) as Hlen. rewrite <- IH.
    destruct (split c (s +:+ String c t)) as [|x [|y r]]; simpl in Hlen; try lia.
    by destruct (Ascii.eqb a c).
Qed.

(** The extension of a name that ends in [.jpg]. *)
Lemma ext_of_jpg stem : ext_of (stem +:+ "." +:+ "jpg") = Some "jpg".
Proof.
  unfold ext_of, pop. change ("." +:+ "jpg") with (String "."%char "jpg").
  by rewrite last_split_app_sep.
Qed.

(** C2, amended.  For a file of a whole upload that is ingested, in a request
    whose compression percent, if any, is not 0: when a percent (within
    0-100) was supplied and the mimetype of the file begins with [image/],
    the bytes written are the JPEG recompression at that quality, the
    extension of the stored file name is [jpg] and the mimetype of the record
    is [image/jpeg], or [text/plain] when the [uploadtext] header is present;
    otherwise the bytes are written as received, under the original
    extension, and the mimetype of the record is that of the file, or
    [text/plain] under [uploadtext]. *)
Theorem C2_compression_of_whole_uploads env cfg req w0 ctx i f w w' url :
  validate env req w0 = (w0, Next ctx) ->
  imageCompressionPercent ctx <> Some (Num 0) ->
  upload_file env cfg ctx req i f w = (w', Next url) ->
  let stem := resolve_fileName env cfg (format ctx) i (MulterFile.originalname f) in
  let text := truthy (headers req !! "uploadtext") in
  exists img,
    images w' = images w ++ [img] /\
    match imageCompressionPercent ctx with
    | Some (Num q) =>
        0 <= q <= 100 /\
        if startsWith (MulterFile.mimetype f) "image/"
        then Image.file img = stem +:+ "." +:+ "jpg"
             /\ ext_of (Image.file img) = Some "jpg"
             /\ Image.mimetype img = Some (if text then "text/plain" else "image/jpeg")
             /\ datasource w' !! Image.file img
                = Some (sharp_jpeg env q (MulterFile.buffer f))
        else Image.file img
             = stem +:+ "." +:+ tpl (ext_of (MulterFile.originalname f))
             /\ Image.mimetype img
                = Some (if text then "text/plain" else MulterFile.mimetype f)
             /\ datasource w' !! Image.file img = Some (MulterFile.buffer f)
    | _ =>
        Image.file img = stem +:+ "." +:+ tpl (ext_of (MulterFile.originalname f))
        /\ Image.mimetype img
           = Some (if text then "text/plain" else MulterFile.mimetype f)
        /\ datasource w' !! Image.file img = Some (MulterFile.buffer f)
    end.
Proof.
  intros Hv Hzero Hrun stem text.
  destruct (offending cfg (user ctx) f) eqn:Hoff.
  { destruct (upload_file_offending env cfg ctx req i f w Hoff) as [msg H].
    rewrite H in Hrun. discriminate. }
  destruct (upload_file_ingests env cfg ctx req i f w Hoff)
    as (w1 & url1 & pre & post & H & _ & _ & Himg & Hds & _).
  rewrite H in Hrun. injection Hrun as <- <-.
  eexists. split; [exact Himg|]. rewrite Hds, lookup_insert_eq. cbn [Image.file Image.mimetype].
  destruct (validate_inv _ _ _ _ _ Hv) as [_ (_ & _ & _ & Hpct)].
  unfold compressionUsed, quality.
  destruct Hpct as [-> | (q & Hp & Hq)]; [done|]. rewrite Hp in *.
  split; [done|]. simpl.
  assert (Hq0 : (q =? 0) = false) by (apply Z.eqb_neq; intros ->; by apply Hzero).
  rewrite Hq0. simpl. fold stem text.
  destruct (startsWith (MulterFile.mimetype f) "image/"); [|done].
  repeat split. apply ext_of_jpg.
Qed.

(** ** Reassembly *)

(** A chunk that fits is copied; the other positions keep their bytes. *)
Lemma Uint8Array_set_fits (target src : bytes) (x : string) :
  fits (Z.of_nat (length target)) (x, src) = true ->
  exists target',
    Uint8Array_set target src (start (readChunk x)) = inr target'
    /\ length target' = length target
    /\ forall p : nat,
         target' !! p
         = if covers p (x, src)
           then src !! (p - Z.to_nat (chunk_offset x))%nat
           else target !! p.
Proof.
  unfold fits, covers, chunk_offset, Uint8Array_set. cbn [fst snd].
  set (off := ToIntegerOrInfinity (start (readChunk x))). intros H.
  apply andb_prop in H as [H0 H1]. apply Z.leb_le in H0, H1.
  assert (Hneg : (off <? 0) = false) by (apply Z.ltb_ge; lia).
  assert (Hfit : (Z.of_nat (length target) <? off + Z.of_nat (length src)) = false)
    by (apply Z.ltb_ge; lia).
  rewrite Hneg, Hfit. eexists. split; [reflexivity|]. split.
  - rewrite !length_app, length_take, length_drop. lia.
  - intros p.
    destruct (off <=? Z.of_nat p) eqn:Hlo; simpl.
    + apply Z.leb_le in Hlo.
      rewrite lookup_app_r by (rewrite length_take; lia).
      rewrite length_take, Nat.min_l by lia.
      destruct (Z.of_nat p <? off + Z.of_nat (length src)) eqn:Hhi.
      * apply Z.ltb_lt in Hhi. by rewrite lookup_app_l by lia.
      * apply Z.ltb_ge in Hhi. rewrite lookup_app_r by lia.
        rewrite lookup_drop. f_equal. lia.
    + apply Z.leb_gt in Hlo. rewrite lookup_app_l by (rewrite length_take; lia).
      apply lookup_take_lt. lia.
Qed.

Lemma slice_of_lookup (source src : bytes) (x : string) (p : nat) :
  slice_of source (x, src) = true ->
  0 <= chunk_offset x ->
  covers p (x, src) = true ->
  src !! (p - Z.to_nat (chunk_offset x))%nat = source !! p.
Proof.
  unfold slice_of, covers. simpl. intros Hs H0 Hc.
  apply bool_decide_eq_true in Hs. apply andb_prop in Hc as [Hlo Hhi].
  apply Z.leb_le in Hlo. apply Z.ltb_lt in Hhi.
  rewrite <- Hs at 1. rewrite lookup_take_lt by lia.
  rewrite lookup_drop. f_equal. lia.
Qed.

(** One turn of the loop. *)
Lemma combine_chunks_cons x cs buf w :
  combine_chunks (readChunk x :: cs) buf w
  = match tmpdir w !! x with
    | Some d =>
        match Uint8Array_set buf d (start (readChunk x)) with
        | inr buf1 => combine_chunks cs buf1 (with_tmpdir (delete x (tmpdir w)) w)
        | inl e => (with_tmpdir (delete x (tmpdir w)) w, Exit (Thrown e))
        end
    | None => (w, Exit (Thrown ENOENT))
    end.
Proof.
  cbn [combine_chunks]. unfold mbind, M_bind, readFile, unlink.
  change (filename (readChunk x)) with x.
  destruct (tmpdir w !! x) as [d|] eqn:Hd; [|done]. rewrite Hd.
  by destruct (Uint8Array_set buf d (start (readChunk x))).
Qed.

(** The loop, on a list of distinct names of files that fit in the buffer:
    every file is read and deleted; a position no chunk covers keeps its
    byte, and a position some chunk covers gets the byte of the source when
    the chunks are slices of that source. *)
Lemma combine_chunks_run (names : list string) : forall (buf : bytes) (w : World),
  NoDup names ->
  (forall x, x ∈ names ->
     exists d, tmpdir w !! x = Some d /\ fits (Z.of_nat (length buf)) (x, d) = true) ->
  exists buf' m',
    combine_chunks (map readChunk names) buf w = (with_tmpdir m' w, Next buf')
    /\ (forall k, m' !! k = if bool_decide (k ∈ names) then None else tmpdir w !! k)
    /\ length buf' = length buf
    /\ (forall p : nat,
          (forall x d, x ∈ names -> tmpdir w !! x = Some d -> covers p (x, d) = false) ->
          buf' !! p = buf !! p)
    /\ (forall source,
          (forall x d, x ∈ names -> tmpdir w !! x = Some d ->
                       slice_of source (x, d) = true) ->
          forall (p : nat) x d,
            x ∈ names -> tmpdir w !! x = Some d -> covers p (x, d) = true ->
            buf' !! p = source !! p).
Proof.
  induction names as [|x names IH]; intros buf w Hnd Hfiles.
  { exists buf, (tmpdir w). rewrite with_tmpdir_id. split; [done|].
    split; [done|]. split; [done|]. split; [done|].
    intros source _ p x d Hin. by apply elem_of_nil in Hin. }
  apply NoDup_cons in Hnd as [Hx Hnd].
  destruct (Hfiles x) as (d & Hd & Hfit); [left|].
  destruct (Uint8Array_set_fits buf d x Hfit) as (buf1 & Hset & Hlen1 & Hlook1).
  set (w1 := with_tmpdir (delete x (tmpdir w)) w).
  assert (Hother : forall y, y ∈ names -> tmpdir w1 !! y = tmpdir w !! y).
  { intros y Hy. simpl. apply lookup_delete_ne. by intros ->. }
  destruct (IH buf1 w1 Hnd) as (buf' & m' & Hrun & Hm' & Hlen & Hgap & Hsrc).
  { intros y Hy. rewrite Hother by done. rewrite Hlen1. apply Hfiles. by right. }
  exists buf', m'. split.
  { change (map readChunk (x :: names)) with (readChunk x :: map readChunk names).
    rewrite combine_chunks_cons, Hd, Hset. fold w1. by rewrite Hrun. }
  split.
  { intros k. rewrite Hm'. simpl. destruct (decide (k = x)) as [->|Hne].
    - rewrite bool_decide_false by done. rewrite lookup_delete_eq.
      by rewrite bool_decide_true by left.
    - rewrite lookup_delete_ne by done.
      destruct (bool_decide (k ∈ names)) eqn:Hk.
      + apply bool_decide_eq_true in Hk. by rewrite bool_decide_true by (by right).
      + apply bool_decide_eq_false in Hk. rewrite bool_decide_false; [done|].
        intros [?|?]%elem_of_cons; done. }
  split; [congruence|]. split.
  - intros p Hunc. rewrite Hgap.
    + rewrite Hlook1. by rewrite (Hunc x d) by (done || left).
    + intros y dy Hy Hdy. rewrite Hother in Hdy by done. apply Hunc; [by right|done].
  - intros source Hslices p y dy Hy Hdy Hcov.
    assert (Hcase : (exists z dz, z ∈ names /\ tmpdir w !! z = Some dz
                                /\ covers p (z, dz) = true)
                    \/ (forall z dz, z ∈ names -> tmpdir w !! z = Some dz
                                   -> covers p (z, dz) = false)).
    { clear -names. induction names as [|z names IHn]; [right; intros ? ? []%elem_of_nil|].
      destruct (tmpdir w !! z) as [dz|] eqn:Hz.
      - destruct (covers p (z, dz)) eqn:Hc.
        + left. exists z, dz. split; [left|done].
        + destruct IHn as [(z' & dz' & Hin & ? & ?)|Hno].
          * left. exists z', dz'. split; [by right|done].
          * right. intros z' dz' [->|Hin]%elem_of_cons Hz'; [congruence|by eapply Hno].
      - destruct IHn as [(z' & dz' & Hin & ? & ?)|Hno].
        + left. exists z', dz'. split; [by right|done].
        + right. intros z' dz' [->|Hin]%elem_of_cons Hz'; [congruence|by eapply Hno]. }
    destruct Hcase as [(z & dz & Hz & Hdz & Hcz)|Hno].
    + apply (Hsrc source) with z dz; try done.
      * intros y' dy' Hy' Hdy'. rewrite Hother in Hdy' by done.
        apply Hslices; [by right|done].
      * by rewrite Hother.
    + rewrite Hgap.
      2:{ intros z dz Hz Hdz. rewrite Hother in Hdz by done. by eapply Hno. }
      apply elem_of_cons in Hy as [->|Hy]; [|by rewrite (Hno y dy) in Hcov].
      assert (dy = d) as -> by congruence.
      rewrite Hlook1, Hcov. apply slice_of_lookup; [| |done].
      * apply Hslices; [left|done].
      * unfold fits in Hfit. simpl in Hfit. apply andb_prop in Hfit as [H0 _].
        by apply Z.leb_le in H0.
Qed.

Lemma elem_of_stored_chunks identifier (m : gmap string bytes) x d :
  (x, d) ∈ stored_chunks identifier m
  <-> m !! x = Some d /\ startsWith x (partial_prefix identifier) = true.
Proof.
  unfold stored_chunks. rewrite list_elem_of_In, filter_In, <- list_elem_of_In.
  by rewrite elem_of_map_to_list.
Qed.

(** Reassembly into a buffer of [t] bytes that the host allocates, when the
    host lists the directory completely and every stored chunk of the
    identifier fits: no exception is
    raised, the chunks of the identifier are deleted, positions that no chunk
    covers are zero, and positions that a chunk covers hold the byte of the
    source when the chunks are slices of that source. *)
Lemma reassemble_run env identifier (t : Z) (w : World) :
  (forall l, readdir_order env l ≡ₚ l) ->
  0 <= t ->
  t <= longest env ->
  forallb (fits t) (stored_chunks identifier (tmpdir w)) = true ->
  exists buf m',
    reassemble env identifier (Some (Num t)) w = (with_tmpdir m' w, Next buf)
    /\ (forall k, m' !! k = if startsWith k (partial_prefix identifier)
                            then None else tmpdir w !! k)
    /\ length buf = Z.to_nat t
    /\ (forall p : nat,
          (p < Z.to_nat t)%nat ->
          existsb (covers p) (stored_chunks identifier (tmpdir w)) = false ->
          buf !! p = Some Byte.x00)
    /\ (forall source,
          forallb (slice_of source) (stored_chunks identifier (tmpdir w)) = true ->
          forall p : nat,
            existsb (covers p) (stored_chunks identifier (tmpdir w)) = true ->
            buf !! p = source !! p).
Proof.
  intros Hperm Ht Hlong Hfits.
  set (m := tmpdir w) in *.
  set (names := List.filter (fun x => startsWith x (partial_prefix identifier))
                  (readdir_order env (map fst (map_to_list m)))).
  assert (Hnames : forall x, x ∈ names
            <-> is_Some (m !! x) /\ startsWith x (partial_prefix identifier) = true).
  { intros x. unfold names. rewrite list_elem_of_In, filter_In, <- list_elem_of_In.
    rewrite (Hperm _). change (map fst (map_to_list m)) with ((map_to_list m).*1).
    rewrite list_elem_of_fmap. split.
    - intros [([x' d] & -> & Hin) Hp]. apply elem_of_map_to_list in Hin.
      split; [by eexists|done].
    - intros [[d Hd] Hp]. split; [|done]. exists (x, d). split; [done|].
      by apply elem_of_map_to_list. }
  assert (Hnd : NoDup names).
  { unfold names. apply NoDup_ListNoDup, List.NoDup_filter, NoDup_ListNoDup.
    rewrite (Hperm _). apply NoDup_fst_map_to_list. }
  rewrite forallb_forall in Hfits.
  destruct (combine_chunks_run names (replicate (Z.to_nat t) Byte.x00) w Hnd)
    as (buf & m' & Hrun & Hm' & Hlen & Hgap & Hsrc).
  { intros x [[d Hd] Hp]%Hnames. exists d. split; [done|].
    rewrite length_replicate, Z2Nat.id by done.
    apply Hfits, list_elem_of_In, elem_of_stored_chunks. by split. }
  exists buf, m'. split.
  { unfold reassemble, readdir. unfold mbind at 1, M_bind at 1. fold m names.
    unfold new_Uint8Array. fold (longest env).
    assert (Hneg : (t <? 0) = false) by (apply Z.ltb_ge; lia).
    assert (Hbig : (longest env <? t) = false) by (apply Z.ltb_ge; lia).
    rewrite Hneg, Hbig. unfold lift_exn. unfold mbind at 1, M_bind at 1, mret, M_ret.
    exact Hrun. }
  split.
  { intros k. rewrite Hm'. fold m.
    destruct (startsWith k (partial_prefix identifier)) eqn:Hp.
    - destruct (m !! k) as [d|] eqn:Hk.
      + rewrite bool_decide_true; [done|]. apply Hnames. split; [by eexists|done].
      + by destruct (bool_decide _).
    - rewrite bool_decide_false; [done|]. intros [_ ?]%Hnames. congruence. }
  split; [by rewrite Hlen, length_replicate|]. split.
  - intros p Hp Hunc. rewrite Hgap.
    + by apply lookup_replicate_2.
    + intros x d Hx Hd. destruct (covers p (x, d)) eqn:Hc; [|done].
      assert (existsb (covers p) (stored_chunks identifier m) = true); [|congruence].
      apply existsb_exists. exists (x, d). split; [|done].
      apply list_elem_of_In, elem_of_stored_chunks. split; [done|]. by apply Hnames in Hx as [_ ?].
  - intros source Hslices p Hcov. rewrite forallb_forall in Hslices.
    apply existsb_exists in Hcov as ([x d] & Hin & Hc).
    apply list_elem_of_In, elem_of_stored_chunks in Hin as [Hd Hp].
    apply (Hsrc source) with x d; try done.
    + intros y dy Hy Hdy. apply Hslices, list_elem_of_In, elem_of_stored_chunks.
      split; [done|]. by apply Hnames in Hy as [_ ?].
    + apply Hnames. split; [by eexists|done].
Qed.

(** The last chunk of an upload, stored as an entry of the directory: what
    the handler does is what the ingestion of the reassembled bytes does. *)
Lemma last_chunk_steps env cfg req w ctx f fs :
  validate env req w = (w, Next ctx) ->
  truthy (headers req !! "content-range") = true ->
  files req = Some (f :: fs) ->
  headers req !! "x-zipline-partial-lastchunk" = Some "true" ->
  let identifier := headers req !! "x-zipline-partial-identifier" in
  "/"%char ∉ chars (tpl identifier) ->
  fs_refuses env (tempFile env identifier (content_range req !! 0%nat)
                           (content_range req !! 1%nat)) = None ->
  let w1 := with_tmpdir (<[chunk_key req := MulterFile.buffer f]> (tmpdir w)) w in
  handler env cfg req w
  = outcome_of (chunks ← reassemble env identifier (content_range req !! 2%nat) ;
                ingest_reassembled env cfg ctx req chunks) w1.
Proof.
  intros Hv Hcr Hfs Hlast identifier Hid Hok w1.
  rewrite (handler_partial _ _ _ _ _ Hv Hcr).
  unfold outcome_of, partial_upload, first_buffer. rewrite Hfs, Hlast.
  rewrite bool_decide_true by done.
  unfold mbind at 1, M_bind at 1, mret at 1, M_ret at 1.
  fold identifier.
  by rewrite (bind_next (B:=NextApiRes) _ _ _ _ _
                (writeFile_here env identifier (content_range req !! 0%nat)
                   (content_range req !! 1%nat) (MulterFile.buffer f) w Hid Hok)).
Qed.

(** The last chunk of an upload, when every stored chunk fits: the request is
    answered with one URL, one record is created and the reassembled buffer
    is what is written. *)
Lemma last_chunk_run env cfg req w ctx f fs filename t :
  (forall l, readdir_order env l ≡ₚ l) ->
  validate env req w = (w, Next ctx) ->
  truthy (headers req !! "content-range") = true ->
  files req = Some (f :: fs) ->
  headers req !! "x-zipline-partial-lastchunk" = Some "true" ->
  content_range req !! 2%nat = Some (Num t) ->
  0 <= t ->
  t <= longest env ->
  "/"%char ∉ chars (tpl (headers req !! "x-zipline-partial-identifier")) ->
  fs_refuses env (tempFile env (headers req !! "x-zipline-partial-identifier")
                           (content_range req !! 0%nat)
                           (content_range req !! 1%nat)) = None ->
  headers req !! "x-zipline-partial-filename" = Some filename ->
  disabled cfg (ext_of filename) = false ->
  (truthy_num (imageCompressionPercent ctx) = true ->
   is_Some (headers req !! "x-zipline-partial-mimetype")) ->
  let w1 := with_tmpdir (<[chunk_key req := MulterFile.buffer f]> (tmpdir w)) w in
  let identifier := headers req !! "x-zipline-partial-identifier" in
  forallb (fits t) (stored_chunks identifier (tmpdir w1)) = true ->
  exists w' w2 url img buf,
    reassemble env identifier (Some (Num t)) w1 = (w2, Next buf)
    /\ handler env cfg req w = (w', Responded (json_files [url] None))
    /\ images w' = images w ++ [img]
    /\ Image.mimetype img = headers req !! "x-zipline-partial-mimetype"
    /\ datasource w' = <[Image.file img := buf]> (datasource w)
    /\ (forall k, tmpdir w' !! k = if startsWith k (partial_prefix identifier)
                                   then None else tmpdir w !! k).
Proof.
  intros Hperm Hv Hcr Hfs Hlast Ht Ht0 Hlong Hid Hok Hname Hext Hmime w1 identifier Hfits.
  destruct (reassemble_run env identifier t w1 Hperm Ht0 Hlong Hfits)
    as (buf & m' & Hre & Hm' & _).
  destruct (ingest_reassembled_ok env cfg ctx req buf (with_tmpdir m' w1) filename
              Hname Hext Hmime)
    as (w' & url & img & pre & Hrun & Htmp & _ & Himg & Hmt & Hds & _).
  exists w', (with_tmpdir m' w1), url, img, buf. split; [done|]. split.
  { rewrite (last_chunk_steps env cfg req w ctx f fs Hv Hcr Hfs Hlast Hid Hok).
    rewrite Ht. fold identifier w1. unfold outcome_of.
    rewrite (bind_next (B:=NextApiRes) _ _ _ _ _ Hre). by rewrite Hrun. }
  split; [done|]. split; [done|]. split; [done|].
  intros k. rewrite Htmp. simpl. rewrite Hm'. simpl.
  destruct (startsWith k (partial_prefix identifier)) eqn:Hp; [done|].
  apply lookup_insert_ne. intros <-.
  unfold chunk_key, chunk_name, startsWith, partial_prefix in Hp. fold identifier in Hp.
  pose proof (prefix_append ("zipline_partial_" +:+ tpl identifier)
                ("_" +:+ tpl_num (content_range req !! 0%nat) +:+ "_"
                 +:+ tpl_num (content_range req !! 1%nat))) as Hpre.
  rewrite append_assoc in Hpre. congruence.
Qed.

(** ** C5: gaps *)


Lemma chunk_name_startsWith identifier s e :
  startsWith (chunk_name identifier s e) (partial_prefix identifier) = true.
Proof.
  unfold startsWith, chunk_name, partial_prefix.
  pose proof (prefix_append ("zipline_partial_" +:+ tpl identifier)
                ("_" +:+ tpl_num s +:+ "_" +:+ tpl_num e)) as H.
  by rewrite append_assoc in H.
Qed.

Lemma length_chunk_of (source : bytes) (s e : Z) :
  0 <= s <= e -> e <= Z.of_nat (length source) ->
  Z.of_nat (length (chunk_of source s e)) = e - s.
Proof.
  intros Hs He. unfold chunk_of. rewrite length_take, length_drop. lia.
Qed.

Lemma take_length_take {A} (n : nat) (l : list A) : take (length (take n l)) l = take n l.
Proof.
  rewrite length_take. rewrite <- (take_take l n (length l)). by rewrite firstn_all.
Qed.

(** ** Reassembly of a complete upload *)

(** The round trip, where it holds.  For an identifier without underscore
    and without path separator, whose chunk the host accepts to write, and a
    source no longer than the longest typed array of the host (so shorter
    than 2^53 bytes, and every number of the header and of the names is one
    the runtime reads as this fragment does): when the temporary directory
    holds, among the names that begin with the prefix of the identifier,
    exactly the chunks of a list of declared ranges (the one of the request
    included), each with the bytes of the source in its half-open range, and
    the ranges lie in the source and cover it, the last chunk is answered
    with one URL and the bytes written to the blob store are the source, in
    whatever order the host lists the directory. *)
Theorem reassembly_round_trip env cfg req w ctx f fs filename identifier
    (source : bytes) (ranges : list (Z * Z)) :
  (forall l, readdir_order env l ≡ₚ l) ->
  validate env req w = (w, Next ctx) ->
  truthy (headers req !! "content-range") = true ->
  files req = Some (f :: fs) ->
  headers req !! "x-zipline-partial-lastchunk" = Some "true" ->
  content_range req !! 2%nat = Some (Num (Z.of_nat (length source))) ->
  headers req !! "x-zipline-partial-filename" = Some filename ->
  disabled cfg (ext_of filename) = false ->
  (truthy_num (imageCompressionPercent ctx) = true ->
   is_Some (headers req !! "x-zipline-partial-mimetype")) ->
  headers req !! "x-zipline-partial-identifier" = Some identifier ->
  "_"%char ∉ chars identifier ->
  "/"%char ∉ chars identifier ->
  fs_refuses env (tempFile env (Some identifier) (content_range req !! 0%nat)
                           (content_range req !! 1%nat)) = None ->
  Z.of_nat (length source) <= longest env ->
  let dir := <[chunk_key req := MulterFile.buffer f]> (tmpdir w) in
  let key := fun s e => chunk_name (Some identifier) (Some (Num s)) (Some (Num e)) in
  (forall x d, dir !! x = Some d ->
     startsWith x (partial_prefix (Some identifier)) = true ->
     exists s e, (s, e) ∈ ranges /\ x = key s e /\ d = chunk_of source s e) ->
  (forall s e, (s, e) ∈ ranges -> dir !! key s e = Some (chunk_of source s e)) ->
  (forall s e, (s, e) ∈ ranges -> 0 <= s <= e /\ e <= Z.of_nat (length source)) ->
  (forall p, 0 <= p < Z.of_nat (length source) ->
     exists s e, (s, e) ∈ ranges /\ s <= p < e) ->
  exists w' url img,
    handler env cfg req w = (w', Responded (json_files [url] None))
    /\ images w' = images w ++ [img]
    /\ datasource w' !! Image.file img = Some source.
Proof.
  intros Hperm Hv Hcr Hfs Hlast Ht Hname Hext Hmime Hid Hunder Hsep Hok Hlong dir key
    Honly Hall Hin Hcover.
  set (t := Z.of_nat (length source)) in *.
  set (w1 := with_tmpdir dir w).
  assert (Hstored : forall x d, (x, d) ∈ stored_chunks (Some identifier) dir ->
            exists s e, (s, e) ∈ ranges /\ 0 <= s <= e /\ e <= t
                        /\ chunk_offset x = s /\ d = chunk_of source s e).
  { intros x d [Hd Hp]%elem_of_stored_chunks.
    destruct (Honly x d Hd Hp) as (s & e & Hse & -> & ->).
    exists s, e. destruct (Hin s e Hse) as [? ?].
    do 3 (split; [done|]). split; [by apply chunk_offset_chunk_name|done]. }
  assert (Hfits : forallb (fits t) (stored_chunks (Some identifier) (tmpdir w1)) = true).
  { apply forallb_forall. intros [x d] Hxd%list_elem_of_In.
    destruct (Hstored x d Hxd) as (s & e & _ & Hs & He & Hoff & ->).
    unfold fits. cbn [fst snd]. rewrite Hoff, length_chunk_of by done.
    apply andb_true_intro. split; [apply Z.leb_le|apply Z.leb_le]; lia. }
  rewrite <- Hid in Hfits, Hok.
  assert (Hsep' : "/"%char ∉ chars (tpl (headers req !! "x-zipline-partial-identifier")))
    by by rewrite Hid.
  destruct (last_chunk_run env cfg req w ctx f fs filename t Hperm Hv Hcr Hfs Hlast
              Ht ltac:(lia) Hlong Hsep' Hok Hname Hext Hmime Hfits)
    as (w' & w2 & url & img & buf & Hre & Hrun & Himg & _ & Hds & _).
  destruct (reassemble_run env (headers req !! "x-zipline-partial-identifier") t w1
              Hperm ltac:(lia) Hlong Hfits)
    as (buf' & m' & Hre' & _ & Hlen & _ & Hsrc).
  fold dir w1 in Hre. rewrite Hre in Hre'. injection Hre' as _ ->.
  rewrite Hid in Hsrc.
  exists w', url, img. split; [done|]. split; [done|].
  rewrite Hds, lookup_insert_eq. f_equal.
  apply list_eq. intros p.
  destruct (decide (p < length source)%nat) as [Hp|Hp].
  2:{ rewrite !lookup_ge_None_2; [done|lia|]. rewrite Hlen. unfold t. lia. }
  apply (Hsrc source).
  - apply forallb_forall. intros [x d] Hxd%list_elem_of_In.
    destruct (Hstored x d Hxd) as (s & e & _ & Hs & He & Hoff & ->).
    unfold slice_of. cbn [fst snd]. rewrite Hoff. apply bool_decide_eq_true.
    unfold chunk_of. apply take_length_take.
  - destruct (Hcover (Z.of_nat p)) as (s & e & Hse & Hps); [lia|].
    destruct (Hin s e Hse) as [Hs He].
    apply existsb_exists. exists (key s e, chunk_of source s e). split.
    + apply list_elem_of_In, elem_of_stored_chunks. split; [by apply Hall|].
      apply chunk_name_startsWith.
    + unfold covers. cbn [fst snd]. unfold key.
      rewrite !chunk_offset_chunk_name, length_chunk_of by done.
      apply andb_true_intro. split; [apply Z.leb_le|apply Z.ltb_lt]; lia.
Qed.

(** * The claims at concrete requests *)

(** ** C1: reassembly *)

(** C1, evaluated.  A source of four bytes is sent as the chunks [0, 2) and
    [2, 4) of an upload whose identifier is [a_b]; the ranges cover the
    source exactly.  The start of both chunks is read back from the fourth
    field of the name, which is the [b] of the identifier: it is not a
    number, both chunks are copied at offset 0, and the bytes written to the
    blob store are not the source.  With the identifier [ab] the same
    requests store the source. *)
Lemma C1_underscore_identifier_is_misassembled :
  let w' := (handler env0 cfg0 (second_half "a_b") (after_first_half "a_b")).1 in
  let w'' := (handler env0 cfg0 (second_half "ab") (after_first_half "ab")).1 in
  chunk_key (first_half "a_b") = "zipline_partial_a_b_0_2"
  /\ chunk_key (second_half "a_b") = "zipline_partial_a_b_2_4"
  /\ start (readChunk "zipline_partial_a_b_2_4") = NaN
  /\ chunk_offset "zipline_partial_a_b_2_4" = 0
  /\ datasource w' !! "rnd0.png" = Some [Byte.x01; Byte.x02; Byte.x00; Byte.x00]
  /\ datasource w'' !! "rnd0.png" = Some [Byte.x01; Byte.x02; Byte.x03; Byte.x04].
Proof. by vm_compute. Qed.

(** The listing of an identifier also selects the chunks of every identifier
    it is a prefix of: the last chunk of the upload [ab] reads, copies and
    deletes a chunk of the upload [abc]. *)
Lemma listing_selects_longer_identifiers :
  let other := chunk_req "tok-a" "abc" "c.png" "bytes 0-2/4" false []
                         [Byte.x07; Byte.x08] in
  let w1 := (handler env0 cfg0 other (after_first_half "ab")).1 in
  let w' := (handler env0 cfg0 (second_half "ab") w1).1 in
  tmpdir w1 !! "zipline_partial_abc_0_2" = Some [Byte.x07; Byte.x08]
  /\ tmpdir w' !! "zipline_partial_abc_0_2" = None
  /\ datasource w' !! "rnd0.png" = Some [Byte.x07; Byte.x08; Byte.x03; Byte.x04].
Proof. by vm_compute. Qed.

(** The round trip at the upload [ab]: the hypotheses of
    [reassembly_round_trip] hold there. *)
Lemma reassembly_round_trip_ab :
  exists w' url img,
    handler env0 cfg0 (second_half "ab") (after_first_half "ab")
    = (w', Responded (json_files [url] None))
    /\ images w' = images (after_first_half "ab") ++ [img]
    /\ datasource w' !! Image.file img
       = Some [Byte.x01; Byte.x02; Byte.x03; Byte.x04].
Proof.
  apply (reassembly_round_trip env0 cfg0 (second_half "ab") (after_first_half "ab")
           (ctx_of alice None)
           (MulterFile.mk "blob" "application/octet-stream" [Byte.x03; Byte.x04])
           [] "a.png" "ab"
           [Byte.x01; Byte.x02; Byte.x03; Byte.x04] [(0, 2); (2, 4)]).
  - intros l. reflexivity.
  - by vm_compute.
  - by vm_compute.
  - by vm_compute.
  - by vm_compute.
  - by vm_compute.
  - by vm_compute.
  - by vm_compute.
  - intros H. by vm_compute in H.
  - by vm_compute.
  - apply (bool_decide_unpack _). by vm_compute.
  - apply (bool_decide_unpack _). by vm_compute.
  - by vm_compute.
  - by vm_compute.
  - intros x d Hx Hp. apply elem_of_map_to_list in Hx. vm_compute in Hx.
    apply elem_of_cons in Hx as [[= -> ->]|Hx].
    { exists 2, 4. split; [right; left|by vm_compute]. }
    apply elem_of_cons in Hx as [[= -> ->]|Hx].
    { exists 0, 2. split; [left|by vm_compute]. }
    by apply elem_of_nil in Hx.
  - intros s e Hse.
    apply elem_of_cons in Hse as [[= -> ->]|Hse]; [by vm_compute|].
    apply elem_of_cons in Hse as [[= -> ->]|Hse]; [by vm_compute|].
    by apply elem_of_nil in Hse.
  - intros s e Hse.
    apply elem_of_cons in Hse as [[= -> ->]|Hse]; [simpl; lia|].
    apply elem_of_cons in Hse as [[= -> ->]|Hse]; [simpl; lia|].
    by apply elem_of_nil in Hse.
  - intros p Hp. simpl in Hp.
    destruct (decide (p < 2)) as [Hlt|Hge].
    + exists 0, 2. split; [left|lia].
    + exists 2, 4. split; [right; left|lia].
Defined.

(** ** C2: compression *)

(** C2 fails as stated, at three requests of a PNG image.  Uploaded whole
    with percent 80 and the [uploadtext] header, the image is recompressed
    and stored as [.jpg], but the mimetype of its record is [text/plain], not
    [image/jpeg].  Uploaded as one chunk with percent 80, it is stored as
    [.jpg] with the mimetype [image/png] and its bytes are written as
    received, not recompressed.  Uploaded whole with percent 0, which is in
    the range, it is not recompressed. *)
Lemma C2_counterexample :
  let with_text := one_png "tok-a" [("image-compression-percent", "80");
                                    ("uploadtext", "true")] in
  let chunked := chunk_req "tok-a" "one" "a.png" "bytes 0-2/2" true
                   [("image-compression-percent", "80")] [Byte.x01; Byte.x02] in
  let zero := one_png "tok-a" [("image-compression-percent", "0")] in
  (map (fun r => (Image.file r, Image.mimetype r))
       (images (handler env0 cfg0 with_text w0).1)
   = [("rnd0.jpg", Some "text/plain")]
   /\ datasource (handler env0 cfg0 with_text w0).1 !! "rnd0.jpg"
      = Some (sharp_jpeg env0 80 [Byte.x01]))
  /\ (map (fun r => (Image.file r, Image.mimetype r))
          (images (handler env0 cfg0 chunked w0).1)
      = [("rnd0.jpg", Some "image/png")]
      /\ datasource (handler env0 cfg0 chunked w0).1 !! "rnd0.jpg"
         = Some [Byte.x01; Byte.x02]
      /\ sharp_jpeg env0 80 [Byte.x01; Byte.x02] <> [Byte.x01; Byte.x02])
  /\ (validate env0 zero w0 = (w0, Next (ctx_of alice (Some (Num 0))))
      /\ map (fun r => (Image.file r, Image.mimetype r))
             (images (handler env0 cfg0 zero w0).1)
         = [("rnd0.png", Some "image/png")]
      /\ datasource (handler env0 cfg0 zero w0).1 !! "rnd0.png" = Some [Byte.x01]).
Proof. by vm_compute. Qed.

(** C2, amended, at a PNG image uploaded whole with percent 80. *)
Lemma C2_witness :
  let req := one_png "tok-a" [("image-compression-percent", "80")] in
  let ctx := ctx_of alice (Some (Num 80)) in
  let f := png "a.png" [Byte.x01] in
  exists img,
    images (upload_file env0 cfg0 ctx req 0 f w0).1 = images w0 ++ [img]
    /\ Image.file img = "rnd0.jpg"
    /\ ext_of (Image.file img) = Some "jpg"
    /\ Image.mimetype img = Some "image/jpeg"
    /\ datasource (upload_file env0 cfg0 ctx req 0 f w0).1 !! Image.file img
       = Some (sharp_jpeg env0 80 [Byte.x01]).
Proof.
  intros req ctx f.
  destruct (C2_compression_of_whole_uploads env0 cfg0 req w0 ctx 0 f w0
              (upload_file env0 cfg0 ctx req 0 f w0).1 "http://h/u/rnd0.jpg")
    as (img & Himg & _ & Hfile & Hext & Hmime & Hdata).
  - by vm_compute.
  - discriminate.
  - by vm_compute.
  - exists img. split; [exact Himg|]. split; [exact Hfile|]. split; [exact Hext|].
    split; [exact Hmime|exact Hdata].
Defined.

(** ** C3: arming the cooldown *)

(** C3, evaluated.  A user who is not an administrator uploads one file with
    a user cooldown of 5 seconds configured: the upload succeeds and the
    stored cooldown timestamp of the user is still null, not
    [now + 5000]. *)
Lemma C3_cooldown_of_a_user_is_never_armed :
  let out := handler env0 cfg0 (one_png "tok-a" []) w0 in
  User.administrator alice = false
  /\ ratelimit_user cfg0 = 5
  /\ out.2 = Responded (json_files ["http://h/u/rnd0.png"] None)
  /\ User.ratelimit <$> user_findFirst "tok-a" out.1 = Some None
  /\ User.ratelimit <$> user_findFirst "tok-a" out.1
     <> Some (Some (Date_now_exit env0 + ratelimit_user cfg0 * 1000)).
Proof. by vm_compute. Qed.

(** ** C4: disabled extensions *)

(** C4 fails as stated when the offending file is the second of the batch:
    the request is refused, but the first file already has its File Record
    and its bytes in the blob store. *)
Lemma C4_counterexample :
  let out := handler env0 cfg0 batch_with_exe w0 in
  disabled cfg0 (ext_of "b.exe") = true
  /\ out.2 = Responded (error "file[1]: disabled extension recieved: exe")
  /\ map Image.file (images out.1) = ["rnd0.png"]
  /\ datasource out.1 !! "rnd0.png" = Some [Byte.x01].
Proof. by vm_compute. Qed.

(** C4, amended, at that batch. *)
Lemma C4_witness :
  exists w' r t new,
    handler env0 cfg0 batch_with_exe w0 = (w', Responded r)
    /\ rejected r = true
    /\ images w' = images w0 ++ new
    /\ trace w' = trace w0 ++ t
    /\ (length new <= 1)%nat /\ (creates t <= 1)%nat /\ (saves t <= 1)%nat.
Proof.
  apply (C4_disabled_extension_stops_the_batch env0 cfg0 batch_with_exe w0
           [png "a.png" [Byte.x01]; png "b.exe" [Byte.x02]] 1
           (png "b.exe" [Byte.x02])); by vm_compute.
Defined.

(** ** C5: gaps *)



(** ** C7: the cooldown check on entry *)

(** C7 fails as stated on the chunked path: a chunk sent by a user whose
    cooldown ends at 5000, received at 1000, is stored and acknowledged, and
    the stored timestamp stays. *)
Lemma C7_counterexample :
  let req := chunk_req "tok-c" "cd" "a.png" "bytes 0-2/4" false []
                       [Byte.x01; Byte.x02] in
  let out := handler env0 cfg0 req w0 in
  User.ratelimit <$> user_findFirst "tok-c" w0 = Some (Some 5000)
  /\ Date_now_entry env0 = 1000
  /\ out.2 = Responded json_success
  /\ out.2 <> Responded (ratelimited 4000)
  /\ tmpdir out.1 !! "zipline_partial_cd_0_2" = Some [Byte.x01; Byte.x02]
  /\ User.ratelimit <$> user_findFirst "tok-c" out.1 = Some (Some 5000).
Proof. by vm_compute. Qed.

(** C7, amended, at a whole upload of the same user: refused with 4000
    milliseconds remaining. *)
Lemma C7_witness :
  handler env0 cfg0 (one_png "tok-c" []) w0 = (w0, Responded (ratelimited 4000)).
Proof.
  destruct (C7_cooldown_gates_whole_uploads env0 cfg0 (one_png "tok-c" []) w0
              (ctx_of carol None) 5000) as [Hfuture _].
  - by vm_compute.
  - by vm_compute.
  - by vm_compute.
  - apply Hfuture. by vm_compute.
Defined.

(** ** C8: the format selector *)

Lemma letters_contract (n : nat) :
  String.length (letters n) = n /\ forallb alphanumeric (chars (letters n)) = true.
Proof. induction n as [|n [IH1 IH2]]; [done|]. simpl. by rewrite IH1, IH2. Qed.

(** C8 at the selector [webp], with a [randomChars] that keeps its contract:
    an image uploaded whole is stored as [aaaaaa.png], the one File Record
    of the request. *)
Lemma C8_witness :
  (exists img,
    images (upload_file env_letters cfg0 ctx_webp webp_selector 0
              (png "a.png" [Byte.x01]) w0).1
    = images w0 ++ [img]
    /\ Image.file img
       = randomChars env_letters 0 (uploader_length cfg0) +:+ "."
         +:+ (if compressionUsed ctx_webp (MulterFile.mimetype (png "a.png" [Byte.x01]))
              then "jpg"
              else tpl (ext_of (MulterFile.originalname (png "a.png" [Byte.x01]))))
    /\ is_Some (datasource (upload_file env_letters cfg0 ctx_webp webp_selector 0
                              (png "a.png" [Byte.x01]) w0).1 !! Image.file img)
    /\ randomChars env_letters 0 (uploader_length cfg0)
       = resolve_fileName env_letters cfg0 (Some RANDOM) 0
           (MulterFile.originalname (png "a.png" [Byte.x01]))
    /\ String.length (randomChars env_letters 0 (uploader_length cfg0))
       = Z.to_nat (uploader_length cfg0)
    /\ forallb alphanumeric (chars (randomChars env_letters 0 (uploader_length cfg0)))
       = true)
  /\ (exists new,
        images (handler env_letters cfg0 webp_selector w0).1 = images w0 ++ new
        /\ Forall (fun img => exists i ext,
                     let stem := randomChars env_letters i (uploader_length cfg0) in
                     Image.file img = stem +:+ "." +:+ ext
                     /\ String.length stem = Z.to_nat (uploader_length cfg0)
                     /\ forallb alphanumeric (chars stem) = true)
                  new)
  /\ (handler env_letters cfg0 webp_selector w0).2
     = Responded (json_files ["http://h/u/aaaaaa.png"] None)
  /\ map Image.file (images (handler env_letters cfg0 webp_selector w0).1)
     = ["aaaaaa.png"].
Proof.
  destruct (C8_unknown_format_names_as_random env_letters cfg0 webp_selector w0 ctx_webp)
    as (Hwhole & _ & Hall).
  - by vm_compute.
  - right. exists "webp". split; [by vm_compute|].
    apply (bool_decide_unpack _). by vm_compute.
  - intros i n Hn. apply letters_contract.
  - by vm_compute.
  - split; [|split; [exact Hall|by vm_compute]].
    apply (Hwhole 0%nat (png "a.png" [Byte.x01]) w0 _ "http://h/u/aaaaaa.png").
    by vm_compute.
Defined.

(** ** C9: a chunk that is not the last one *)

(** C9 fails as stated when the range is sent again: the chunk stored before
    under the identifier [ab] and the range 0-2 is replaced by the bytes of
    the new request. *)
Lemma C9_counterexample :
  let out := handler env0 cfg0 resend w_resend in
  tmpdir w_resend !! "zipline_partial_ab_0_2" = Some [Byte.x01; Byte.x02]
  /\ out.2 = Responded json_success
  /\ tmpdir out.1 !! "zipline_partial_ab_0_2" = Some [Byte.x09; Byte.x09]
  /\ tmpdir out.1 !! "zipline_partial_ab_0_2"
     <> tmpdir w_resend !! "zipline_partial_ab_0_2".
Proof. by vm_compute. Qed.

(** C9, amended, at the first half of the upload [ab]: the chunk is stored
    as the entry [zipline_partial_ab_0_2] of [/tmp], and a chunk of the
    upload [abc] would be left alone. *)
Lemma C9_witness :
  exists w',
    handler env0 cfg0 (first_half "ab") w0 = (w', Responded json_success)
    /\ tempFile env0 (Some "ab") (Some (Num 0)) (Some (Num 2))
       = ["tmp"; "zipline_partial_ab_0_2"]
    /\ tmpdir w' !! "zipline_partial_ab_0_2" = Some [Byte.x01; Byte.x02]
    /\ tmpdir w' !! chunk_name (Some "abc") (Some (Num 0)) (Some (Num 2))
       = tmpdir w0 !! chunk_name (Some "abc") (Some (Num 0)) (Some (Num 2))
    /\ images w' = images w0
    /\ datasource w' = datasource w0
    /\ users w' = users w0
    /\ trace w' = trace w0
    /\ outside w' = outside w0.
Proof.
  destruct (C9_intermediate_chunk_is_only_stored env0 cfg0 (first_half "ab") w0
              (ctx_of alice None)
              (MulterFile.mk "blob" "application/octet-stream" [Byte.x01; Byte.x02]) [])
    as (w' & Hrun & Hpath & Hkey & _ & Hother & Himg & _ & Hds & Husers & Htr & Hout).
  - by vm_compute.
  - by vm_compute.
  - by vm_compute.
  - by vm_compute.
  - apply (bool_decide_unpack _). by vm_compute.
  - by vm_compute.
  - by vm_compute.
  - exists w'. split; [exact Hrun|]. split; [exact Hpath|]. split; [exact Hkey|].
    split.
    { apply (Hother (Some "abc") (Some (Num 0)) (Some (Num 2))); [|by vm_compute].
      apply (bool_decide_unpack _). by vm_compute. }
    split; [exact Himg|]. split; [exact Hds|]. split; [exact Husers|].
    split; [exact Htr|exact Hout].
Defined.

(** ** C10: the size limit *)

(** C10 at a file of five bytes sent by a user whose limit is four. *)
Lemma C10_witness :
  (exists w' r t new,
      handler env0 cfg0 (whole_req "tok-a" [] [big]) w0 = (w', Responded r)
      /\ rejected r = true
      /\ images w' = images w0 ++ new
      /\ trace w' = trace w0 ++ t
      /\ (length new <= 0)%nat /\ (creates t <= 0)%nat /\ (saves t <= 0)%nat)
  /\ (forall req' w admin_limit user_limit,
        truthy (headers req' !! "content-range") = true ->
        handler env0 (with_limits admin_limit user_limit cfg0) req' w
        = handler env0 cfg0 req' w).
Proof.
  apply (C10_size_limit_on_whole_uploads_only env0 cfg0
           (whole_req "tok-a" [] [big]) w0 alice [big] 0 big); by vm_compute.
Defined.

(** * Further properties of the upload handler *)

(** ** What the header checks let through *)

(** A request that passes lines 21-58 is a POST of a known token whose
    options are all well formed. *)
Lemma validate_options env req w w' ctx :
  validate env req w = (w', Next ctx) ->
  method req = "POST"
  /\ truthy (headers req !! "authorization") = true
  /\ user_findFirst (tpl (headers req !! "authorization")) w = Some (user ctx)
  /\ (if truthy (headers req !! "expires-at")
      then parseExpiry env (tpl (headers req !! "expires-at")) = expiry ctx
           /\ is_Some (expiry ctx)
      else expiry ctx = None)
  /\ imageCompressionPercent ctx
     = Number_or_null (headers req !! "image-compression-percent")
  /\ isNaN (imageCompressionPercent ctx) = false
  /\ js_lt (imageCompressionPercent ctx) 0 = false
  /\ js_gt (imageCompressionPercent ctx) 100 = false
  /\ fileMaxViews ctx = Number_or_null (headers req !! "max-views")
  /\ isNaN (fileMaxViews ctx) = false
  /\ js_lt (fileMaxViews ctx) 0 = false.
Proof.
  unfold validate. intros H.
  destruct (negb (String.eqb (method req) "POST")) eqn:Hm;
    [step_if H; discriminate|].
  step_if H. apply negb_false_iff, String.eqb_eq in Hm.
  destruct (negb (truthy (headers req !! "authorization"))) eqn:Ha;
    [step_if H; discriminate|].
  step_if H. apply negb_false_iff in Ha. unfold mbind at 1, M_bind at 1 in H.
  destruct (user_findFirst _ w) as [u|] eqn:Hu; [|discriminate].
  destruct (truthy (headers req !! "expires-at")) eqn:He.
  - destruct (parseExpiry env (tpl (headers req !! "expires-at"))) as [d|] eqn:Hd;
      [|discriminate].
    rewrite (bind_next (B:=Ctx) (mret (Some d)) _ w w (Some d) eq_refl) in H.
    destruct (isNaN (Number_or_null (headers req !! "image-compression-percent")))
      eqn:Hnan; [step_if H; discriminate|]. step_if H.
    destruct (js_lt (Number_or_null (headers req !! "image-compression-percent")) 0
              || js_gt (Number_or_null (headers req !! "image-compression-percent")) 100)
      eqn:Hrange; [step_if H; discriminate|]. step_if H.
    destruct (isNaN (Number_or_null (headers req !! "max-views"))) eqn:Hvn;
      [step_if H; discriminate|]. step_if H.
    destruct (js_lt (Number_or_null (headers req !! "max-views")) 0) eqn:Hvl;
      [step_if H; discriminate|]. step_if H.
    apply orb_false_elim in Hrange as [? ?].
    injection H as <- <-. simpl. by repeat split.
  - rewrite (bind_next (B:=Ctx) (mret None) _ w w None eq_refl) in H.
    destruct (isNaN (Number_or_null (headers req !! "image-compression-percent")))
      eqn:Hnan; [step_if H; discriminate|]. step_if H.
    destruct (js_lt (Number_or_null (headers req !! "image-compression-percent")) 0
              || js_gt (Number_or_null (headers req !! "image-compression-percent")) 100)
      eqn:Hrange; [step_if H; discriminate|]. step_if H.
    destruct (isNaN (Number_or_null (headers req !! "max-views"))) eqn:Hvn;
      [step_if H; discriminate|]. step_if H.
    destruct (js_lt (Number_or_null (headers req !! "max-views")) 0) eqn:Hvl;
      [step_if H; discriminate|]. step_if H.
    apply orb_false_elim in Hrange as [? ?].
    injection H as <- <-. simpl. by repeat split.
Qed.

(** ** Strings the runtime reads as [NaN] *)

Lemma uint_of_char_not_digit (a : ascii) (d : option uint) :
  occurs a "0123456789" = false -> uint_of_char a d = None.
Proof.
  destruct d as [d|]; [|done].
  destruct a as [[] [] [] [] [] [] [] []]; try done; by vm_compute.
Qed.

Lemma begins_no_literal_not_digit (a : ascii) :
  begins_no_literal a = true -> occurs a "0123456789" = false.
Proof. destruct a as [[] [] [] [] [] [] [] []]; by vm_compute. Qed.

Lemma in_no_literal_not_digit (a : ascii) :
  in_no_literal a = true -> occurs a "0123456789" = false.
Proof. destruct a as [[] [] [] [] [] [] [] []]; by vm_compute. Qed.

Lemma in_no_literal_not_minus (a : ascii) :
  in_no_literal a = true -> Ascii.eqb a "-" = false.
Proof. destruct a as [[] [] [] [] [] [] [] []]; by vm_compute. Qed.

Lemma begins_no_literal_not_minus (a : ascii) :
  begins_no_literal a = true -> Ascii.eqb a "-" = false.
Proof. destruct a as [[] [] [] [] [] [] [] []]; by vm_compute. Qed.

Lemma uint_of_string_holds (s : string) :
  holds in_no_literal s = true -> NilEmpty.uint_of_string s = None.
Proof.
  induction s as [|a s IH]; [done|]. simpl. intros H.
  apply orb_prop in H as [H|H].
  - by apply uint_of_char_not_digit, in_no_literal_not_digit.
  - by rewrite IH.
Qed.

(** On such a string [Number] is [NaN] here too. *)
Lemma surely_NaN_Number (s : string) : surely_NaN s = true -> Number s = NaN.
Proof.
  destruct s as [|a s]; [done|]. unfold surely_NaN, Number. intros H.
  change (String.eqb (String a s) "") with false. cbn iota.
  unfold NilZero.int_of_string.
  destruct (Ascii.eqb a "-") eqn:Ha.
  - apply orb_prop in H as [H|H].
    { apply begins_no_literal_not_minus in H. congruence. }
    simpl in H. apply orb_prop in H as [H|H].
    { apply in_no_literal_not_minus in H. congruence. }
    unfold NilZero.uint_of_string. destruct s; [done|].
    by rewrite (uint_of_string_holds _ H).
  - unfold NilZero.uint_of_string.
    apply orb_prop in H as [H|H].
    + simpl. by rewrite (uint_of_char_not_digit a _ (begins_no_literal_not_digit a H)).
    + by rewrite (uint_of_string_holds _ H).
Qed.

Lemma reads_NaN_isNaN (h : option string) :
  reads_NaN h = true -> isNaN (Number_or_null h) = true.
Proof.
  destruct h as [[|a s]|]; [done| |done]. intros H. unfold Number_or_null.
  change (truthy (Some (String a s))) with true. cbn [tpl].
  by rewrite (surely_NaN_Number _ H).
Qed.

(** A request with a wrong method, without a known token, or with an option
    that is not well formed (an expiry that does not parse; a compression
    percent that is no number, is a negative integer or an integer above
    100; a maximum of views that is no number or is a negative integer) is
    refused by a [forbid] or an [error], whatever else it carries, chunk or
    files, and nothing is changed: no chunk is stored, no record created, no
    blob written, no cooldown touched.  "No number" is a header from which
    the runtime certainly reads [NaN]; the integers are read exactly as to
    their sign and their order with 100.  The options are checked once
    multer has parsed the body. *)
Theorem malformed_requests_change_nothing env cfg req w :
  (method req <> "POST"
   \/ truthy (headers req !! "authorization") = false
   \/ user_findFirst (tpl (headers req !! "authorization")) w = None
   \/ (truthy (headers req !! "expires-at") = true
       /\ parseExpiry env (tpl (headers req !! "expires-at")) = None)
   \/ reads_NaN (headers req !! "image-compression-percent") = true
   \/ js_lt (Number_or_null (headers req !! "image-compression-percent")) 0 = true
   \/ js_gt (Number_or_null (headers req !! "image-compression-percent")) 100 = true
   \/ reads_NaN (headers req !! "max-views") = true
   \/ js_lt (Number_or_null (headers req !! "max-views")) 0 = true) ->
  exists r,
    handler env cfg req w = (w, Responded r)
    /\ rejected r = true
    /\ (forall remaining, r <> ratelimited remaining).
Proof.
  intros Hmal.
  assert (Hbad :
    method req <> "POST"
    \/ truthy (headers req !! "authorization") = false
    \/ user_findFirst (tpl (headers req !! "authorization")) w = None
    \/ (truthy (headers req !! "expires-at") = true
        /\ parseExpiry env (tpl (headers req !! "expires-at")) = None)
    \/ isNaN (Number_or_null (headers req !! "image-compression-percent")) = true
    \/ js_lt (Number_or_null (headers req !! "image-compression-percent")) 0 = true
    \/ js_gt (Number_or_null (headers req !! "image-compression-percent")) 100 = true
    \/ isNaN (Number_or_null (headers req !! "max-views")) = true
    \/ js_lt (Number_or_null (headers req !! "max-views")) 0 = true).
  { destruct Hmal as [?|[?|[?|[?|[H|[?|[?|[H|?]]]]]]]]; auto 10.
    - do 4 right. left. by apply reads_NaN_isNaN.
    - do 7 right. left. by apply reads_NaN_isNaN. }
  clear Hmal. destruct (validate env req w) as [w0 s] eqn:Hv.
  pose proof (validate_world _ _ _ _ _ Hv) as ->.
  destruct s as [ctx|o].
  - exfalso.
    destruct (validate_options _ _ _ _ _ Hv)
      as (Hm & Ha & Hu & He & Hp & Hp1 & Hp2 & Hp3 & Hx & Hx1 & Hx2).
    rewrite Hp in Hp1, Hp2, Hp3. rewrite Hx in Hx1, Hx2.
    destruct Hbad as [?|[?|[?|[[He1 He2]|[?|[?|[?|[?|?]]]]]]]]; try congruence.
    rewrite He1 in He. destruct He as [He [d Hd]]. congruence.
  - rewrite (handler_refused _ _ _ _ _ Hv).
    assert (Hr : exists r, o = Responded r /\ rejected r = true
                           /\ forall remaining, r <> ratelimited remaining).
    { clear Hbad. unfold validate in Hv.
      destruct (negb (String.eqb (method req) "POST"));
        [step_if Hv; injection Hv as <-; by eexists|]. step_if Hv.
      destruct (negb (truthy (headers req !! "authorization")));
        [step_if Hv; injection Hv as <-; by eexists|]. step_if Hv.
      unfold mbind at 1, M_bind at 1 in Hv.
      destruct (user_findFirst _ w) as [u|]; [|injection Hv as <-; by eexists].
      destruct (truthy (headers req !! "expires-at"));
        [destruct (parseExpiry env _) as [d|]; [|injection Hv as <-; by eexists]|].
      - rewrite (bind_next (B:=Ctx) (mret (Some d)) _ w w (Some d) eq_refl) in Hv.
        destruct (isNaN (Number_or_null (headers req !! "image-compression-percent")));
          [step_if Hv; injection Hv as <-; by eexists|]. step_if Hv.
        destruct (js_lt (Number_or_null (headers req !! "image-compression-percent")) 0
                  || js_gt (Number_or_null (headers req !! "image-compression-percent")) 100);
          [step_if Hv; injection Hv as <-; by eexists|]. step_if Hv.
        destruct (isNaN (Number_or_null (headers req !! "max-views")));
          [step_if Hv; injection Hv as <-; by eexists|]. step_if Hv.
        destruct (js_lt (Number_or_null (headers req !! "max-views")) 0);
          [step_if Hv; injection Hv as <-; by eexists|]. step_if Hv.
        discriminate.
      - rewrite (bind_next (B:=Ctx) (mret None) _ w w None eq_refl) in Hv.
        destruct (isNaN (Number_or_null (headers req !! "image-compression-percent")));
          [step_if Hv; injection Hv as <-; by eexists|]. step_if Hv.
        destruct (js_lt (Number_or_null (headers req !! "image-compression-percent")) 0
                  || js_gt (Number_or_null (headers req !! "image-compression-percent")) 100);
          [step_if Hv; injection Hv as <-; by eexists|]. step_if Hv.
        destruct (isNaN (Number_or_null (headers req !! "max-views")));
          [step_if Hv; injection Hv as <-; by eexists|]. step_if Hv.
        destruct (js_lt (Number_or_null (headers req !! "max-views")) 0);
          [step_if Hv; injection Hv as <-; by eexists|]. step_if Hv.
        discriminate. }
    destruct Hr as (r & -> & Hr & Hn). by exists r.
Qed.

(** ** The whole-upload loop in detail *)

Lemma upload_file_refusal env cfg ctx req i f w :
  offending cfg (user ctx) f = true ->
  upload_file env cfg ctx req i f w
  = (w, Exit (Responded (error (refusal cfg (user ctx) i f)))).
Proof.
  unfold offending, refusal, oversize, upload_file. intros H.
  destruct (size_limit cfg (user ctx) <? MulterFile.size f).
  { step_if_goal. reflexivity. }
  step_if_goal. simpl in H. rewrite H. step_if_goal. reflexivity.
Qed.

Lemma hashed_password_some env i req :
  is_Some (hashed_password env i req) <-> truthy (headers req !! "password") = true.
Proof.
  unfold hashed_password. destruct (truthy (headers req !! "password")).
  - split; [done|]. by eexists.
  - split; [by intros [? ?]|done].
Qed.

(** The records of the loop carry the options of the request; when the loop
    ends, one URL was pushed per file; when it stops, it stops at the first
    offending file with the message that names its index. *)
Lemma upload_files_detail env cfg ctx req fs : forall i urls w w' s,
  upload_files env cfg ctx req i fs urls w = (w', s) ->
  exists new,
    images w' = images w ++ new
    /\ Forall (carries ctx req) new
    /\ match s with
       | Next urls' => length urls' = (length urls + length fs)%nat
       | Exit o =>
           exists f, fs !! length new = Some f
                     /\ o = Responded (error (refusal cfg (user ctx)
                                                      (i + length new) f))
       end.
Proof.
  induction fs as [|f fs IH]; intros i urls w w' s H; simpl in H.
  { injection H as <- <-. exists []. rewrite app_nil_r. repeat split; [done|].
    simpl. lia. }
  destruct (offending cfg (user ctx) f) eqn:Hoff.
  - rewrite (bind_exit (B:=list string) _ _ _ _ _
               (upload_file_refusal env cfg ctx req i f w Hoff)) in H.
    injection H as <- <-. exists []. rewrite app_nil_r. repeat split; [done|].
    exists f. simpl. by rewrite Nat.add_0_r.
  - destruct (upload_file_ingests env cfg ctx req i f w Hoff)
      as (w1 & url & pre & post & Hrun & _ & _ & Himg & _).
    rewrite (bind_next (B:=list string) _ _ _ _ _ Hrun) in H.
    destruct (IH _ _ _ _ _ H) as (new & Himg' & Hall & Hend).
    eexists (_ :: new). split.
    { rewrite Himg', Himg. by rewrite <- app_assoc. }
    split.
    { constructor; [|done]. unfold carries. cbn [Image.userId Image.expires_at
        Image.maxViews Image.format Image.embed Image.password].
      do 5 (split; [done|]). apply hashed_password_some. }
    destruct s as [urls'|o].
    + rewrite Hend, length_app. simpl. lia.
    + destruct Hend as (f' & Hf' & ->). exists f'. split; [done|].
      simpl. do 4 f_equal. lia.
Qed.

(** ** A whole upload always gets an answer *)

(** On the whole-upload path no statement of the handler's own raises an
    exception: once multer has parsed the body, and as long as the
    collaborators answer, every request without [content-range] header is
    answered, by [forbid], [error], [ratelimited] or the list of URLs, never
    by [{success: true}]. *)
Theorem whole_uploads_are_always_answered env cfg req w :
  truthy (headers req !! "content-range") = false ->
  exists r,
    (handler env cfg req w).2 = Responded r /\ r <> json_success.
Proof.
  intros Hcr. destruct (validate env req w) as [w0 s] eqn:Hv.
  pose proof (validate_world _ _ _ _ _ Hv) as ->. destruct s as [ctx|o].
  2:{ rewrite (handler_refused _ _ _ _ _ Hv).
      destruct (validate_inv _ _ _ _ _ Hv) as [_ (r & -> & Hr)].
      exists r. split; [done|]. by intros ->. }
  rewrite (handler_whole _ _ _ _ _ Hv Hcr). unfold outcome_of, whole_upload.
  destruct (ratelimit_entry_run env ctx w) as [[rem H]|(w1 & t1 & H & _)].
  { rewrite (bind_exit (B:=NextApiRes) _ _ _ _ _ H). by eexists. }
  rewrite (bind_next (B:=NextApiRes) _ _ _ _ _ H). unfold ingest_batch.
  destruct (files req) as [[|f0 fs0]|]; [by eexists| |by eexists].
  destruct (upload_files env cfg ctx req 0 (f0 :: fs0) [] w1) as [w2 s] eqn:Hrun.
  destruct (upload_files_detail _ _ _ _ _ _ _ _ _ _ Hrun) as (new & _ & _ & Hend).
  destruct s as [urls|o].
  - rewrite (bind_next (B:=NextApiRes) _ _ _ _ _ Hrun).
    destruct (ratelimit_exit_run env cfg ctx w2) as (w3 & t3 & Hexit & _).
    rewrite (bind_next (B:=NextApiRes) _ _ _ _ _ Hexit). by eexists.
  - rewrite (bind_exit (B:=NextApiRes) _ _ _ _ _ Hrun).
    destruct Hend as (f & _ & ->). by eexists.
Qed.

(** ** The steps of a whole upload that is let in *)

Lemma whole_upload_steps env cfg req w ctx fs :
  validate env req w = (w, Next ctx) ->
  truthy (headers req !! "content-range") = false ->
  no_cooldown env (user ctx) ->
  files req = Some fs -> fs <> [] ->
  handler env cfg req w
  = match upload_files env cfg ctx req 0 fs [] (after_entry ctx w) with
    | (w2, Next urls) =>
        ((ratelimit_exit env cfg ctx w2).1, Responded (json_files urls (expiry ctx)))
    | (w2, Exit o) => (w2, o)
    end.
Proof.
  intros Hv Hcr Hcool Hfs Hne. rewrite (handler_whole _ _ _ _ _ Hv Hcr).
  unfold outcome_of, whole_upload.
  assert (Hentry : ratelimit_entry env ctx w = (after_entry ctx w, Next tt)).
  { unfold ratelimit_entry, after_entry.
    destruct (User.ratelimit (user ctx)) as [t|] eqn:Ht; [|done].
    assert (Hle : (t - Date_now_entry env <=? 0) = true).
    { apply Z.leb_le. specialize (Hcool t Ht). lia. }
    by rewrite Hle. }
  rewrite (bind_next (B:=NextApiRes) _ _ _ _ _ Hentry).
  unfold ingest_batch. rewrite Hfs. destruct fs as [|f0 fs0]; [done|].
  destruct (upload_files env cfg ctx req 0 (f0 :: fs0) [] (after_entry ctx w))
    as [w2 [urls|o]] eqn:Hrun.
  - rewrite (bind_next (B:=NextApiRes) _ _ _ _ _ Hrun).
    destruct (ratelimit_exit_run env cfg ctx w2) as (w3 & t3 & Hexit & _).
    rewrite (bind_next (B:=NextApiRes) _ _ _ _ _ Hexit). by rewrite Hexit.
  - by rewrite (bind_exit (B:=NextApiRes) _ _ _ _ _ Hrun).
Qed.

Lemma images_after_entry ctx w : images (after_entry ctx w) = images w.
Proof. unfold after_entry. by destruct (User.ratelimit (user ctx)). Qed.

Lemma images_ratelimit_exit env cfg ctx w :
  images (ratelimit_exit env cfg ctx w).1 = images w.
Proof.
  destruct (ratelimit_exit_run env cfg ctx w) as (w' & t & H & _ & _ & Hi & _).
  rewrite H. simpl. by rewrite Hi, app_nil_r.
Qed.

(** ** The error names the file that stopped the batch *)

(** When a whole upload is let in and the first offending file of the batch
    (too big for the role, or of a disabled extension) is at index [k], the
    request is answered by the error of that file, whose message carries
    [k], size before extension, and exactly the [k] files before it have
    their records. *)
Theorem error_names_the_first_offending_file env cfg req w ctx fs k f :
  validate env req w = (w, Next ctx) ->
  truthy (headers req !! "content-range") = false ->
  no_cooldown env (user ctx) ->
  files req = Some fs ->
  fs !! k = Some f ->
  offending cfg (user ctx) f = true ->
  forallb (fun f => negb (offending cfg (user ctx) f)) (take k fs) = true ->
  exists w' new,
    handler env cfg req w
    = (w', Responded (error (refusal cfg (user ctx) k f)))
    /\ images w' = images w ++ new
    /\ length new = k
    /\ Forall (carries ctx req) new.
Proof.
  intros Hv Hcr Hcool Hfs Hk Hoff Hbefore.
  assert (Hne : fs <> []) by (intros ->; done).
  rewrite (whole_upload_steps env cfg req w ctx fs Hv Hcr Hcool Hfs Hne).
  destruct (upload_files_run env cfg ctx req fs 0%nat [] (after_entry ctx w))
    as (w2 & s & t & new & Hrun & _ & _ & Himg & _ & _ & _ & _ & Hend).
  rewrite Hrun.
  destruct (upload_files_detail _ _ _ _ _ _ _ _ _ _ Hrun) as (new' & Himg' & Hall & Hend').
  rewrite Himg in Himg'. apply app_inv_head in Himg' as <-.
  rewrite forallb_forall in Hbefore.
  destruct s as [urls|o].
  { exfalso. destruct Hend as [_ Hok]. rewrite forallb_forall in Hok.
    assert (Hin : In f fs) by (apply list_elem_of_In, list_elem_of_lookup; eauto).
    apply Hok in Hin. by rewrite Hoff in Hin. }
  destruct Hend as (_ & f1 & Hf1 & Hoff1 & Hok).
  destruct Hend' as (f2 & Hf2 & ->). rewrite forallb_forall in Hok.
  assert (Hlen : length new = k).
  { destruct (Nat.lt_trichotomy (length new) k) as [Hlt|[Heq|Hgt]]; [|done|].
    - exfalso. assert (Hin : In f1 (take k fs)).
      { apply list_elem_of_In, list_elem_of_lookup. exists (length new).
        by rewrite lookup_take_lt. }
      apply Hbefore in Hin. by rewrite Hoff1 in Hin.
    - exfalso. assert (Hin : In f (take (length new) fs)).
      { apply list_elem_of_In, list_elem_of_lookup. exists k.
        by rewrite lookup_take_lt. }
      apply Hok in Hin. by rewrite Hoff in Hin. }
  rewrite Hlen in Hf2. assert (f2 = f) as -> by congruence.
  exists w2, new. rewrite Himg, images_after_entry, Hlen. by repeat split.
Qed.

(** ** A batch without offending file *)

(** When a whole upload is let in and no file of a batch that is not empty
    is offending, the answer is the list of one URL per file, with the
    expiry of the request; one record per file is created, each carrying the
    options of the request. *)
Theorem clean_batch_is_ingested_whole env cfg req w ctx fs :
  validate env req w = (w, Next ctx) ->
  truthy (headers req !! "content-range") = false ->
  no_cooldown env (user ctx) ->
  files req = Some fs ->
  fs <> [] ->
  forallb (fun f => negb (offending cfg (user ctx) f)) fs = true ->
  exists w' urls new,
    handler env cfg req w = (w', Responded (json_files urls (expiry ctx)))
    /\ length urls = length fs
    /\ images w' = images w ++ new
    /\ length new = length fs
    /\ Forall (carries ctx req) new.
Proof.
  intros Hv Hcr Hcool Hfs Hne Hok.
  rewrite (whole_upload_steps env cfg req w ctx fs Hv Hcr Hcool Hfs Hne).
  destruct (upload_files_run env cfg ctx req fs 0%nat [] (after_entry ctx w))
    as (w2 & s & t & new & Hrun & _ & _ & Himg & _ & _ & _ & _ & Hend).
  rewrite Hrun.
  destruct (upload_files_detail _ _ _ _ _ _ _ _ _ _ Hrun) as (new' & Himg' & Hall & Hend').
  rewrite Himg in Himg'. apply app_inv_head in Himg' as <-.
  destruct s as [urls|o].
  - destruct Hend as [Hlen _]. eexists _, urls, new. split; [reflexivity|].
    split; [by rewrite Hend'|].
    rewrite images_ratelimit_exit, Himg, images_after_entry. by repeat split.
  - exfalso. destruct Hend as (_ & f1 & Hf1 & Hoff1 & _).
    rewrite forallb_forall in Hok.
    assert (Hin : In f1 fs) by (apply list_elem_of_In, list_elem_of_lookup; eauto).
    apply Hok in Hin. by rewrite Hoff1 in Hin.
Qed.

(** ** The cooldown of an administrator *)

Lemma users_upload_files env cfg ctx req fs i urls w :
  users (upload_files env cfg ctx req i fs urls w).1 = users w.
Proof.
  destruct (upload_files_run env cfg ctx req fs i urls w)
    as (w' & s & t & new & H & _ & Hu & _). by rewrite H.
Qed.

Lemma find_after_entry ctx w tok :
  user_findFirst tok (after_entry ctx w)
  = match User.ratelimit (user ctx) with
    | Some _ => set_ratelimit (User.id (user ctx)) None <$> user_findFirst tok w
    | None => user_findFirst tok w
    end.
Proof.
  unfold after_entry, user_findFirst.
  destruct (User.ratelimit (user ctx)); [|done]. simpl. apply find_set_ratelimit.
Qed.

(** After a whole upload by an administrator that is let in and ingested
    whole, with a cooldown for administrators configured, the stored
    cooldown timestamp of the administrator is the time of arming plus that
    duration in milliseconds. *)
Theorem cooldown_of_an_administrator_is_armed env cfg req w ctx fs :
  validate env req w = (w, Next ctx) ->
  truthy (headers req !! "content-range") = false ->
  no_cooldown env (user ctx) ->
  files req = Some fs ->
  fs <> [] ->
  forallb (fun f => negb (offending cfg (user ctx) f)) fs = true ->
  User.administrator (user ctx) = true ->
  0 < ratelimit_admin cfg ->
  User.ratelimit
    <$> user_findFirst (tpl (headers req !! "authorization"))
          (handler env cfg req w).1
  = Some (Some (Date_now_exit env + ratelimit_admin cfg * 1000)).
Proof.
  intros Hv Hcr Hcool Hfs Hne Hok Hadmin Hpos.
  rewrite (whole_upload_steps env cfg req w ctx fs Hv Hcr Hcool Hfs Hne).
  destruct (upload_files_run env cfg ctx req fs 0%nat [] (after_entry ctx w))
    as (w2 & s & t & new & Hrun & _ & Husers & _ & _ & _ & _ & _ & Hend).
  rewrite Hrun. destruct s as [urls|o].
  2:{ exfalso. destruct Hend as (_ & f1 & Hf1 & Hoff1 & _).
      rewrite forallb_forall in Hok.
      assert (Hin : In f1 fs) by (apply list_elem_of_In, list_elem_of_lookup; eauto).
      apply Hok in Hin. by rewrite Hoff1 in Hin. }
  cbn [fst]. unfold ratelimit_exit. rewrite Hadmin.
  assert (Hp : (0 <? ratelimit_admin cfg) = true) by by apply Z.ltb_lt.
  rewrite Hp. cbn [andb fst user_update].
  unfold user_findFirst. cbn [users emit]. rewrite find_set_ratelimit, Husers.
  fold (user_findFirst (tpl (headers req !! "authorization")) (after_entry ctx w)).
  rewrite find_after_entry.
  destruct (validate_inv _ _ _ _ _ Hv) as [_ [Hu _]]. rewrite Hu.
  destruct (User.ratelimit (user ctx)); simpl; unfold set_ratelimit; simpl;
    by rewrite ?Z.eqb_refl; simpl; rewrite ?Z.eqb_refl.
Qed.

(** ** What the handler leaves alone *)

(** A request without [content-range] header neither reads nor writes the
    temporary directory. *)
Theorem whole_uploads_leave_the_chunks_alone env cfg req w :
  truthy (headers req !! "content-range") = false ->
  tmpdir (handler env cfg req w).1 = tmpdir w.
Proof.
  intros Hcr. destruct (validate env req w) as [w0 s] eqn:Hv.
  pose proof (validate_world _ _ _ _ _ Hv) as ->. destruct s as [ctx|o].
  - rewrite (handler_whole _ _ _ _ _ Hv Hcr).
    destruct (whole_upload_run env cfg ctx req w) as (w' & r & t & new & H & Ht & _).
    by rewrite H.
  - by rewrite (handler_refused _ _ _ _ _ Hv).
Qed.

Lemma account_set_ratelimit uid r u : account (set_ratelimit uid r u) = account u.
Proof. unfold set_ratelimit, account. by destruct (User.id u =? uid). Qed.

Lemma accounts_user_update uid r w :
  map account (users (user_update uid r w).1) = map account (users w).
Proof.
  simpl. rewrite map_map. apply map_ext. intros u. apply account_set_ratelimit.
Qed.

(** No request changes the accounts: the users after the handler are the
    users before it, in the same order, with the same identifier, name,
    token, role and domains; only cooldown timestamps may differ, and only
    on the whole-upload path. *)
Theorem accounts_are_never_altered env cfg req w :
  map account (users (handler env cfg req w).1) = map account (users w)
  /\ (truthy (headers req !! "content-range") = true ->
      users (handler env cfg req w).1 = users w).
Proof.
  destruct (validate env req w) as [w0 s] eqn:Hv.
  pose proof (validate_world _ _ _ _ _ Hv) as ->. destruct s as [ctx|o].
  2:{ by rewrite (handler_refused _ _ _ _ _ Hv). }
  destruct (truthy (headers req !! "content-range")) eqn:Hcr.
  { rewrite (handler_partial _ _ _ _ _ Hv Hcr).
    destruct (partial_upload_run env cfg ctx req w) as (w' & o & t & new & H & Hu & _).
    rewrite H. simpl. by rewrite Hu. }
  split; [|done]. rewrite (handler_whole _ _ _ _ _ Hv Hcr).
  unfold outcome_of, whole_upload.
  assert (Hentry : forall w1 s1, ratelimit_entry env ctx w = (w1, s1) ->
            map account (users w1) = map account (users w)).
  { unfold ratelimit_entry. intros w1 s1.
    destruct (User.ratelimit (user ctx)) as [t|]; [|by intros [= <- _]].
    destruct (t - Date_now_entry env <=? 0); [|by intros [= <- _]].
    intros H. assert (w1 = (user_update (User.id (user ctx)) None w).1) as ->
      by by rewrite H.
    apply accounts_user_update. }
  assert (Hexit : forall w2, map account (users (ratelimit_exit env cfg ctx w2).1)
                             = map account (users w2)).
  { intros w2. unfold ratelimit_exit.
    destruct (User.administrator (user ctx) && (0 <? ratelimit_admin cfg));
      [apply accounts_user_update|].
    destruct (negb (User.administrator (user ctx)) && (0 <? ratelimit_user cfg));
      [|done].
    destruct (User.administrator (user ctx) && (0 <? ratelimit_user cfg));
      [apply accounts_user_update|done]. }
  destruct (ratelimit_entry env ctx w) as [w1 s1] eqn:H1.
  specialize (Hentry w1 s1 eq_refl). destruct s1 as [[]|o].
  2:{ by rewrite (bind_exit (B:=NextApiRes) _ _ _ _ _ H1). }
  rewrite (bind_next (B:=NextApiRes) _ _ _ _ _ H1).
  unfold ingest_batch. destruct (files req) as [[|f0 fs0]|]; [done| |done].
  pose proof (users_upload_files env cfg ctx req (f0 :: fs0) 0 [] w1) as Hu.
  destruct (upload_files env cfg ctx req 0 (f0 :: fs0) [] w1) as [w2 [urls|o]] eqn:Hrun.
  - rewrite (bind_next (B:=NextApiRes) _ _ _ _ _ Hrun).
    destruct (ratelimit_exit_run env cfg ctx w2) as (w3 & t3 & Hex & _).
    rewrite (bind_next (B:=NextApiRes) _ _ _ _ _ Hex). simpl.
    specialize (Hexit w2). rewrite Hex in Hexit. simpl in Hexit, Hu.
    by rewrite Hexit, Hu, Hentry.
  - rewrite (bind_exit (B:=NextApiRes) _ _ _ _ _ Hrun). simpl in *.
    by rewrite Hu, Hentry.
Qed.

(** ** The chunked path in detail *)

(** What the ingestion of reassembled bytes does, in every case: at most one
    record, which carries the options of the request; a link to it when the
    [zws] header asks for one; no call to [sendUpload]; and, when it answers,
    one URL on the host of the request. *)
Lemma ingest_reassembled_detail env cfg ctx req chunks w w' s :
  ingest_reassembled env cfg ctx req chunks w = (w', s) ->
  exists new links t,
    images w' = images w ++ new
    /\ invisibles w' = invisibles w ++ links
    /\ (if truthy (headers req !! "zws")
        then map InvisibleImage.imageId links = map Image.id new
        else links = [])
    /\ trace w' = trace w ++ t
    /\ Forall (carries ctx req) new
    /\ notifications t = 0%nat
    /\ match s with
       | Next r =>
           exists img,
             new = [img]
             /\ datasource w' !! Image.file img = Some chunks
             /\ r = json_files
                      [origin cfg req +:+ route cfg +:+ "/"
                       +:+ (if truthy (headers req !! "zws")
                            then createInvis_chars env 0 (uploader_length cfg)
                            else Image.file img)] None
       | Exit o =>
           new = [] /\ datasource w' = datasource w
           /\ forall urls e, o <> Responded (json_files urls e)
       end.
Proof.
  assert (Hnone : forall o, (forall urls e, o <> Responded (json_files urls e)) ->
            exists new links t,
              images w = images w ++ new
              /\ invisibles w = invisibles w ++ links
              /\ (if truthy (headers req !! "zws")
                  then map InvisibleImage.imageId links = map Image.id new
                  else links = [])
              /\ trace w = trace w ++ t
              /\ Forall (carries ctx req) new
              /\ notifications t = 0%nat
              /\ new = [] /\ datasource w = datasource w
              /\ forall urls e, o <> Responded (json_files urls e)).
  { intros o Ho. exists [], [], []. rewrite !app_nil_r.
    do 2 (split; [done|]). split; [by destruct (truthy _)|].
    split; [done|]. split; [constructor|]. by repeat split. }
  unfold ingest_reassembled.
  destruct (headers req !! "x-zipline-partial-filename") as [filename|].
  2:{ intros [= <- <-]. by apply Hnone. }
  rewrite (bind_next (B:=NextApiRes) (defined (Some filename)) _ w w filename eq_refl).
  destruct (disabled cfg (ext_of filename)).
  { step_if_goal. intros [= <- <-]. by apply Hnone. }
  step_if_goal.
  assert (Hcarry : forall id file mt, carries ctx req
            (Image.mk id file mt (User.id (user ctx)) (truthy (headers req !! "embed"))
                      (format ctx) (hashed_password env 0 req) (expiry ctx)
                      (fileMaxViews ctx))).
  { intros. unfold carries. cbn [Image.userId Image.expires_at Image.maxViews
      Image.format Image.embed Image.password].
    do 5 (split; [done|]). apply hashed_password_some. }
  destruct (truthy_num (imageCompressionPercent ctx)).
  - destruct (headers req !! "x-zipline-partial-mimetype") as [m|].
    2:{ intros [= <- <-]. by apply Hnone. }
    unfold mbind, M_bind, defined, image_create, maybe_invis, createInvisImage,
      datasource_save, mret, M_ret, emit.
    destruct (truthy (headers req !! "zws")); simpl; intros [= <- <-]; simpl;
      rewrite <- ?app_assoc; simpl.
    + eexists [_], [_], _. split; [reflexivity|]. split; [reflexivity|].
      split; [reflexivity|]. split; [reflexivity|].
      split; [constructor; [apply Hcarry|constructor]|]. split; [reflexivity|].
      eexists. split; [reflexivity|]. split; [apply lookup_insert_eq|reflexivity].
    + eexists [_], [], _. rewrite app_nil_r. split; [reflexivity|]. split; [reflexivity|].
      split; [reflexivity|]. split; [reflexivity|].
      split; [constructor; [apply Hcarry|constructor]|]. split; [reflexivity|].
      eexists. split; [reflexivity|]. split; [apply lookup_insert_eq|reflexivity].
  - unfold mbind, M_bind, defined, image_create, maybe_invis, createInvisImage,
      datasource_save, mret, M_ret, emit.
    destruct (truthy (headers req !! "zws")); simpl; intros [= <- <-]; simpl;
      rewrite <- ?app_assoc; simpl.
    + eexists [_], [_], _. split; [reflexivity|]. split; [reflexivity|].
      split; [reflexivity|]. split; [reflexivity|].
      split; [constructor; [apply Hcarry|constructor]|]. split; [reflexivity|].
      eexists. split; [reflexivity|]. split; [apply lookup_insert_eq|reflexivity].
    + eexists [_], [], _. rewrite app_nil_r. split; [reflexivity|]. split; [reflexivity|].
      split; [reflexivity|]. split; [reflexivity|].
      split; [constructor; [apply Hcarry|constructor]|]. split; [reflexivity|].
      eexists. split; [reflexivity|]. split; [apply lookup_insert_eq|reflexivity].
Qed.

(** Reassembly ends in the buffer or in an exception, never in a response. *)
Lemma combine_chunks_exit cs : forall buf w w' o,
  combine_chunks cs buf w = (w', Exit o) -> exists e, o = Thrown e.
Proof.
  induction cs as [|c cs IH]; intros b wa w' o H; [done|].
  simpl in H. unfold mbind, M_bind, readFile, unlink in H.
  destruct (tmpdir wa !! filename c) as [d|] eqn:Hd.
  2:{ injection H as _ <-. by eexists. }
  simpl in H. rewrite Hd in H.
  destruct (Uint8Array_set b d (start c)); simpl in H.
  { injection H as _ <-. by eexists. }
  by eapply IH.
Qed.

Lemma reassemble_exit env identifier total w w' o :
  reassemble env identifier total w = (w', Exit o) -> exists e, o = Thrown e.
Proof.
  unfold reassemble. unfold mbind at 1, M_bind at 1, readdir.
  destruct (new_Uint8Array (typed_array_limit env) total) as [x|buf]; simpl.
  { intros [= _ <-]. by eexists. }
  unfold mbind at 1, M_bind at 1, mret, M_ret. apply combine_chunks_exit.
Qed.

Lemma partial_upload_detail env cfg ctx req w :
  exists w' o new links t,
    outcome_of (partial_upload env cfg ctx req) w = (w', o)
    /\ images w' = images w ++ new
    /\ invisibles w' = invisibles w ++ links
    /\ (if truthy (headers req !! "zws")
        then map InvisibleImage.imageId links = map Image.id new
        else links = [])
    /\ trace w' = trace w ++ t
    /\ Forall (carries ctx req) new
    /\ notifications t = 0%nat
    /\ (length new <= 1)%nat
    /\ forall urls e,
         o = Responded (json_files urls e) ->
         e = None
         /\ exists img,
              new = [img]
              /\ urls = [origin cfg req +:+ route cfg +:+ "/"
                         +:+ (if truthy (headers req !! "zws")
                              then createInvis_chars env 0 (uploader_length cfg)
                              else Image.file img)].
Proof.
  assert (Hnone : forall w' o,
            images w' = images w -> invisibles w' = invisibles w ->
            trace w' = trace w ->
            (forall urls e, o <> Responded (json_files urls e)) ->
            exists new links t,
              images w' = images w ++ new
              /\ invisibles w' = invisibles w ++ links
              /\ (if truthy (headers req !! "zws")
                  then map InvisibleImage.imageId links = map Image.id new
                  else links = [])
              /\ trace w' = trace w ++ t
              /\ Forall (carries ctx req) new
              /\ notifications t = 0%nat
              /\ (length new <= 1)%nat
              /\ forall urls e,
                   o = Responded (json_files urls e) ->
                   e = None
                   /\ exists img,
                        new = [img]
                        /\ urls = [origin cfg req +:+ route cfg +:+ "/"
                                   +:+ (if truthy (headers req !! "zws")
                                        then createInvis_chars env 0 (uploader_length cfg)
                                        else Image.file img)]).
  { intros w' o Hi Hl Ht Ho. exists [], [], []. rewrite !app_nil_r.
    do 2 (split; [done|]). split; [by destruct (truthy _)|].
    split; [done|]. split; [constructor|]. split; [done|]. split; [simpl; lia|].
    intros urls e ->. by destruct (Ho urls e). }
  unfold outcome_of, partial_upload, first_buffer.
  destruct (files req) as [[|f fs]|].
  1,3: destruct (Hnone w (Thrown TypeError)) as (n & l & t & H); [done..|];
    exists w, (Thrown TypeError), n, l, t; (split; [reflexivity|exact H]).
  unfold mbind at 1, M_bind at 1, mret at 1, M_ret at 1.
  destruct (writeFile_run env
              (tempFile env (headers req !! "x-zipline-partial-identifier")
                        (content_range req !! 0%nat) (content_range req !! 1%nat))
              (MulterFile.buffer f) w) as [[x Hw]|(m0 & o0 & Hw)].
  { rewrite (bind_exit (B:=NextApiRes) _ _ _ _ _ Hw).
    destruct (Hnone w (Thrown x)) as (n & l & t & H); [done..|].
    exists w, (Thrown x), n, l, t. split; [reflexivity|exact H]. }
  rewrite (bind_next (B:=NextApiRes) _ _ _ _ _ Hw).
  set (w1 := with_outside o0 (with_tmpdir m0 w)).
  destruct (bool_decide _).
  2:{ destruct (Hnone w1 (Responded json_success)) as (n & l & t & H); [done..|].
      exists w1, (Responded json_success), n, l, t. split; [reflexivity|exact H]. }
  destruct (reassemble env (headers req !! "x-zipline-partial-identifier")
              (content_range req !! 2%nat) w1) as [w2 s] eqn:Hre.
  destruct (reassemble_frame _ _ _ _ _ _ Hre) as [m ->].
  destruct s as [chunks|o].
  2:{ rewrite (bind_exit (B:=NextApiRes) _ _ _ _ _ Hre).
      destruct (reassemble_exit _ _ _ _ _ _ Hre) as [x ->].
      destruct (Hnone (with_tmpdir m w1) (Thrown x)) as (n & l & t & H); [done..|].
      exists (with_tmpdir m w1), (Thrown x), n, l, t. split; [reflexivity|exact H]. }
  rewrite (bind_next (B:=NextApiRes) _ _ _ _ _ Hre).
  destruct (ingest_reassembled env cfg ctx req chunks (with_tmpdir m w1))
    as [w3 s] eqn:Hrun.
  destruct (ingest_reassembled_detail _ _ _ _ _ _ _ _ Hrun)
    as (new & links & t & Himg & Hinv & Hlinks & Htr & Hall & Hnot & Hend).
  destruct s as [r|o].
  - destruct Hend as (img & -> & _ & ->).
    eexists _, _, [img], links, t. split; [reflexivity|]. do 6 (split; [done|]).
    split; [simpl; lia|].
    intros urls e [= <- <-]. split; [done|]. by exists img.
  - eexists _, _, new, links, t. split; [reflexivity|]. do 6 (split; [done|]).
    destruct Hend as (-> & _ & Hno). split; [simpl; lia|].
    intros urls e ->. by destruct (Hno urls e).
Qed.

(** ** What a request adds: records, links, notifications, URLs *)

Lemma notifications_app t1 t2 :
  notifications (t1 ++ t2) = (notifications t1 + notifications t2)%nat.
Proof. unfold notifications. by rewrite List.filter_app, length_app. Qed.

(** One iteration that ingests its file: one record, a link to it under
    [zws], one call to [sendUpload] when the webhook is configured, and a URL
    on a domain of the user when the user has domains. *)
Lemma upload_file_ledger env cfg ctx req i f w :
  offending cfg (user ctx) f = false ->
  exists w' url img links t name,
    upload_file env cfg ctx req i f w = (w', Next url)
    /\ images w' = images w ++ [img]
    /\ invisibles w' = invisibles w ++ links
    /\ (if truthy (headers req !! "zws")
        then map InvisibleImage.imageId links = [Image.id img]
        else links = [])
    /\ trace w' = trace w ++ t
    /\ notifications t = (if discord_upload cfg then 1 else 0)%nat
    /\ url = (if (0 <? length (User.domains (user ctx)))%nat
              then tpl (User.domains (user ctx)
                          !! Math_random_index env i (length (User.domains (user ctx))))
              else origin cfg req) +:+ route cfg +:+ "/" +:+ name.
Proof.
  intros H. unfold offending, oversize in H.
  apply orb_false_elim in H as [H1 H2]. unfold upload_file. rewrite H1. step_if_goal.
  rewrite H2. step_if_goal.
  destruct (0 <? length (User.domains (user ctx)))%nat;
  unfold mbind, M_bind, image_create, maybe_invis, createInvisImage,
    datasource_save, sendUpload, mret, M_ret, emit;
  destruct (truthy (headers req !! "zws")),
    (compressionUsed ctx (MulterFile.mimetype f)), (discord_upload cfg); simpl;
    rewrite <- ?app_assoc; simpl;
    first [ (eexists _, _, _, [_], _, _; do 6 (split; [reflexivity|]); reflexivity)
          | (eexists _, _, _, [], _, _; do 2 (split; [reflexivity|]);
             (split; [symmetry; apply app_nil_r|]);
             do 3 (split; [reflexivity|]); reflexivity) ].
Qed.

(** The loop: what it adds, file by file. *)
Lemma upload_files_ledger env cfg ctx req fs : forall i urls w w' s,
  upload_files env cfg ctx req i fs urls w = (w', s) ->
  exists new links t,
    images w' = images w ++ new
    /\ invisibles w' = invisibles w ++ links
    /\ (if truthy (headers req !! "zws")
        then map InvisibleImage.imageId links = map Image.id new
        else links = [])
    /\ trace w' = trace w ++ t
    /\ notifications t = (if discord_upload cfg then length new else 0)%nat
    /\ forall urls', s = Next urls' ->
         exists pushed,
           urls' = urls ++ pushed
           /\ length pushed = length new
           /\ Forall (fun url => exists k name,
                        url = (if (0 <? length (User.domains (user ctx)))%nat
                               then tpl (User.domains (user ctx)
                                           !! Math_random_index env k
                                                (length (User.domains (user ctx))))
                               else origin cfg req) +:+ route cfg +:+ "/" +:+ name)
                     pushed.
Proof.
  induction fs as [|f fs IH]; intros i urls w w' s H; simpl in H.
  { injection H as <- <-. exists [], [], []. rewrite !app_nil_r.
    do 2 (split; [done|]). split; [by destruct (truthy _)|]. split; [done|].
    split; [by destruct (discord_upload cfg)|].
    intros urls' [= <-]. exists []. by rewrite app_nil_r. }
  destruct (offending cfg (user ctx) f) eqn:Hoff.
  - rewrite (bind_exit (B:=list string) _ _ _ _ _
               (upload_file_refusal env cfg ctx req i f w Hoff)) in H.
    injection H as <- <-. exists [], [], []. rewrite !app_nil_r.
    do 2 (split; [done|]). split; [by destruct (truthy _)|]. split; [done|].
    split; [by destruct (discord_upload cfg)|]. by intros urls'.
  - destruct (upload_file_ledger env cfg ctx req i f w Hoff)
      as (w1 & url & img & links1 & t1 & name & Hrun & Himg & Hinv & Hl & Htr & Hn & Hurl).
    rewrite (bind_next (B:=list string) _ _ _ _ _ Hrun) in H.
    destruct (IH _ _ _ _ _ H) as (new & links & t & Himg' & Hinv' & Hl' & Htr' & Hn' & Hurls).
    exists (img :: new), (links1 ++ links), (t1 ++ t).
    split. { rewrite Himg', Himg. by rewrite <- app_assoc. }
    split. { rewrite Hinv', Hinv. by rewrite <- app_assoc. }
    split.
    { destruct (truthy (headers req !! "zws")).
      - rewrite map_app, Hl, Hl'. done.
      - by rewrite Hl, Hl'. }
    split. { rewrite Htr', Htr. by rewrite <- app_assoc. }
    split.
    { rewrite notifications_app, Hn, Hn'. by destruct (discord_upload cfg). }
    intros urls' ->. destruct (Hurls urls' eq_refl) as (pushed & -> & Hlen & Hall).
    exists (url :: pushed). split; [by rewrite <- app_assoc|].
    split; [simpl; by rewrite Hlen|]. constructor; [|done]. by exists i, name.
Qed.

Lemma ratelimit_entry_ledger env ctx w w' s :
  ratelimit_entry env ctx w = (w', s) ->
  images w' = images w /\ invisibles w' = invisibles w
  /\ exists t, trace w' = trace w ++ t /\ notifications t = 0%nat.
Proof.
  unfold ratelimit_entry.
  destruct (User.ratelimit (user ctx)) as [t|].
  2:{ intros [= <- _]. do 2 (split; [done|]). exists []. by rewrite app_nil_r. }
  destruct (t - Date_now_entry env <=? 0).
  - intros [= <- _]. do 2 (split; [done|]). by eexists [_].
  - intros [= <- _]. do 2 (split; [done|]). exists []. by rewrite app_nil_r.
Qed.

Lemma ratelimit_exit_ledger env cfg ctx w :
  images (ratelimit_exit env cfg ctx w).1 = images w
  /\ invisibles (ratelimit_exit env cfg ctx w).1 = invisibles w
  /\ exists t, trace (ratelimit_exit env cfg ctx w).1 = trace w ++ t
               /\ notifications t = 0%nat.
Proof.
  unfold ratelimit_exit.
  destruct (User.administrator (user ctx) && (0 <? ratelimit_admin cfg)).
  { do 2 (split; [done|]). by eexists [_]. }
  destruct (negb (User.administrator (user ctx)) && (0 <? ratelimit_user cfg)).
  2:{ do 2 (split; [done|]). exists []. by rewrite app_nil_r. }
  destruct (User.administrator (user ctx) && (0 <? ratelimit_user cfg)).
  { do 2 (split; [done|]). by eexists [_]. }
  do 2 (split; [done|]). exists []. by rewrite app_nil_r.
Qed.

(** The whole-upload path: what it adds, and the URLs it answers with. *)
Lemma whole_upload_ledger env cfg ctx req w :
  exists w' o new links t,
    outcome_of (whole_upload env cfg ctx req) w = (w', o)
    /\ images w' = images w ++ new
    /\ invisibles w' = invisibles w ++ links
    /\ (if truthy (headers req !! "zws")
        then map InvisibleImage.imageId links = map Image.id new
        else links = [])
    /\ trace w' = trace w ++ t
    /\ Forall (carries ctx req) new
    /\ notifications t = (if discord_upload cfg then length new else 0)%nat
    /\ forall urls e,
         o = Responded (json_files urls e) ->
         e = expiry ctx
         /\ length urls = length new
         /\ Forall (fun url => exists k name,
                      url = (if (0 <? length (User.domains (user ctx)))%nat
                             then tpl (User.domains (user ctx)
                                         !! Math_random_index env k
                                              (length (User.domains (user ctx))))
                             else origin cfg req) +:+ route cfg +:+ "/" +:+ name)
                   urls.
Proof.
  assert (Hzero : (if discord_upload cfg then length (@nil Image.t) else 0)%nat = 0%nat)
    by by destruct (discord_upload cfg).
  assert (Hnil : if truthy (headers req !! "zws")
                 then map InvisibleImage.imageId [] = map Image.id []
                 else @nil InvisibleImage.t = [])
    by by destruct (truthy _).
  unfold outcome_of, whole_upload.
  destruct (ratelimit_entry env ctx w) as [w1 s1] eqn:H1.
  destruct (ratelimit_entry_ledger _ _ _ _ _ H1) as (Hi1 & Hl1 & t1 & Ht1 & Hn1).
  destruct s1 as [[]|o].
  2:{ rewrite (bind_exit (B:=NextApiRes) _ _ _ _ _ H1).
      assert (exists remaining, o = Responded (ratelimited remaining)) as [rem ->].
      { unfold ratelimit_entry in H1. destruct (User.ratelimit (user ctx)); [|done].
        destruct (_ <=? 0); [done|]. injection H1 as _ <-. by eexists. }
      exists w1, (Responded (ratelimited rem)), [], [], t1. rewrite !app_nil_r.
      split; [done|]. do 4 (split; [done|]). split; [constructor|].
      split; [by rewrite Hn1, Hzero|]. by intros urls e [=]. }
  rewrite (bind_next (B:=NextApiRes) _ _ _ _ _ H1). unfold ingest_batch.
  destruct (files req) as [[|f0 fs0]|].
  1,3: exists w1, (Responded (error "no files")), [], [], t1; rewrite !app_nil_r;
    (split; [done|]); do 4 (split; [done|]); (split; [constructor|]);
    (split; [by rewrite Hn1, Hzero|]); by intros urls e [=].
  destruct (upload_files env cfg ctx req 0 (f0 :: fs0) [] w1) as [w2 s] eqn:Hrun.
  destruct (upload_files_ledger _ _ _ _ _ _ _ _ _ _ Hrun)
    as (new & links & t & Himg & Hinv & Hl & Htr & Hn & Hurls).
  destruct (upload_files_detail _ _ _ _ _ _ _ _ _ _ Hrun) as (new' & Himg' & Hcar & Hend).
  rewrite Himg in Himg'. apply app_inv_head in Himg' as <-.
  destruct s as [urls|o].
  - rewrite (bind_next (B:=NextApiRes) _ _ _ _ _ Hrun).
    destruct (ratelimit_exit_ledger env cfg ctx w2) as (Hi3 & Hl3 & t3 & Ht3 & Hn3).
    destruct (ratelimit_exit_run env cfg ctx w2) as (w3 & t3' & Hexit & _).
    rewrite (bind_next (B:=NextApiRes) _ _ _ _ _ Hexit). rewrite Hexit in Hi3, Hl3, Ht3.
    simpl in Hi3, Hl3, Ht3.
    exists w3, (Responded (json_files urls (expiry ctx))), new, links, (t1 ++ t ++ t3).
    split; [done|]. split; [by rewrite Hi3, Himg, Hi1|].
    split; [by rewrite Hl3, Hinv, Hl1|]. split; [done|].
    split; [by rewrite Ht3, Htr, Ht1, <- !app_assoc|]. split; [done|].
    split.
    { rewrite !notifications_app, Hn1, Hn3, Hn. lia. }
    intros urls' e [= <- <-]. split; [done|].
    destruct (Hurls urls eq_refl) as (pushed & -> & Hlen & Hall). by split.
  - rewrite (bind_exit (B:=NextApiRes) _ _ _ _ _ Hrun).
    destruct Hend as (f & _ & ->).
    eexists w2, _, new, links, (t1 ++ t). split; [done|].
    split; [by rewrite Himg, Hi1|]. split; [by rewrite Hinv, Hl1|]. split; [done|].
    split; [by rewrite Htr, Ht1, <- !app_assoc|]. split; [done|].
    split; [by rewrite notifications_app, Hn1, Hn|]. by intros urls e [=].
Qed.

(** ** The webhook *)

(** [sendUpload] is called once for every record a whole upload creates when
    the webhook is configured, and never otherwise: not without
    configuration, and not on the chunked path, whatever the configuration.
    This holds for every request and every outcome. *)
Theorem sendUpload_is_called_once_per_record_of_a_whole_upload env cfg req w :
  exists new t,
    images (handler env cfg req w).1 = images w ++ new
    /\ trace (handler env cfg req w).1 = trace w ++ t
    /\ notifications t
       = (if discord_upload cfg && negb (truthy (headers req !! "content-range"))
          then length new else 0)%nat.
Proof.
  destruct (validate env req w) as [w0 s] eqn:Hv.
  pose proof (validate_world _ _ _ _ _ Hv) as ->. destruct s as [ctx|o].
  2:{ rewrite (handler_refused _ _ _ _ _ Hv). exists [], []. rewrite !app_nil_r.
      do 2 (split; [done|]). by destruct (_ && _). }
  destruct (truthy (headers req !! "content-range")) eqn:Hcr.
  - rewrite (handler_partial _ _ _ _ _ Hv Hcr).
    destruct (partial_upload_detail env cfg ctx req w)
      as (w' & o & new & links & t & -> & Hi & _ & _ & Ht & _ & Hn & _).
    exists new, t. do 2 (split; [done|]). by rewrite andb_false_r.
  - rewrite (handler_whole _ _ _ _ _ Hv Hcr).
    destruct (whole_upload_ledger env cfg ctx req w)
      as (w' & o & new & links & t & -> & Hi & _ & _ & Ht & _ & Hn & _).
    exists new, t. do 2 (split; [done|]). by rewrite andb_true_r.
Qed.

(** ** Invisible links *)

(** The links a request creates point at the records of the same request,
    one link per record and in their order, when the [zws] header is sent;
    without it no link is created.  This holds for every request, on both
    paths and for every outcome. *)
Theorem invisible_links_point_at_the_records_of_the_request env cfg req w :
  exists new links,
    images (handler env cfg req w).1 = images w ++ new
    /\ invisibles (handler env cfg req w).1 = invisibles w ++ links
    /\ if truthy (headers req !! "zws")
       then map InvisibleImage.imageId links = map Image.id new
       else links = [].
Proof.
  destruct (validate env req w) as [w0 s] eqn:Hv.
  pose proof (validate_world _ _ _ _ _ Hv) as ->. destruct s as [ctx|o].
  2:{ rewrite (handler_refused _ _ _ _ _ Hv). exists [], []. rewrite !app_nil_r.
      do 2 (split; [done|]). by destruct (truthy _). }
  destruct (truthy (headers req !! "content-range")) eqn:Hcr.
  - rewrite (handler_partial _ _ _ _ _ Hv Hcr).
    destruct (partial_upload_detail env cfg ctx req w)
      as (w' & o & new & links & t & -> & Hi & Hl & Hz & _).
    by exists new, links.
  - rewrite (handler_whole _ _ _ _ _ Hv Hcr).
    destruct (whole_upload_ledger env cfg ctx req w)
      as (w' & o & new & links & t & -> & Hi & Hl & Hz & _).
    by exists new, links.
Qed.

(** ** The options of the request on the records *)

(** Every record a request creates, on either path, belongs to the owner of
    the token and carries the expiry, the maximum of views, the format and
    the embed flag of the request, and a password exactly when the request
    has one; a chunked request creates at most one record. *)
Theorem records_carry_the_options_of_the_request env cfg req w ctx :
  validate env req w = (w, Next ctx) ->
  exists new,
    images (handler env cfg req w).1 = images w ++ new
    /\ Forall (carries ctx req) new
    /\ (truthy (headers req !! "content-range") = true -> (length new <= 1)%nat).
Proof.
  intros Hv. destruct (truthy (headers req !! "content-range")) eqn:Hcr.
  - rewrite (handler_partial _ _ _ _ _ Hv Hcr).
    destruct (partial_upload_detail env cfg ctx req w)
      as (w' & o & new & links & t & -> & Hi & _ & _ & _ & Hc & _ & Hlen & _).
    by exists new.
  - rewrite (handler_whole _ _ _ _ _ Hv Hcr).
    destruct (whole_upload_ledger env cfg ctx req w)
      as (w' & o & new & links & t & -> & Hi & _ & _ & _ & Hc & _).
    by exists new.
Qed.

(** ** The URLs of the answer *)

(** A chunked upload that is answered with URLs is answered with exactly
    one, for the one record it created, on the host of the request, whatever
    domains the user has, and without the expiry. *)
Theorem chunked_upload_is_answered_on_the_host_of_the_request env cfg req w ctx urls e :
  validate env req w = (w, Next ctx) ->
  truthy (headers req !! "content-range") = true ->
  (handler env cfg req w).2 = Responded (json_files urls e) ->
  e = None
  /\ exists img,
       images (handler env cfg req w).1 = images w ++ [img]
       /\ urls = [origin cfg req +:+ route cfg +:+ "/"
                  +:+ (if truthy (headers req !! "zws")
                       then createInvis_chars env 0 (uploader_length cfg)
                       else Image.file img)].
Proof.
  intros Hv Hcr. rewrite (handler_partial _ _ _ _ _ Hv Hcr).
  destruct (partial_upload_detail env cfg ctx req w)
    as (w' & o & new & links & t & -> & Hi & _ & _ & _ & _ & _ & _ & Hurl).
  simpl. intros ->. destruct (Hurl urls e eq_refl) as (-> & img & -> & ->).
  split; [done|]. by exists img.
Qed.

(** A whole upload by a user with domains is answered with one URL per
    record, each on one of the domains of the user, and with the expiry of
    the request. *)
Theorem whole_upload_is_answered_on_the_domains_of_the_user env cfg req w ctx urls e :
  validate env req w = (w, Next ctx) ->
  truthy (headers req !! "content-range") = false ->
  User.domains (user ctx) <> [] ->
  (forall i n, (0 < n)%nat -> (Math_random_index env i n < n)%nat) ->
  (handler env cfg req w).2 = Responded (json_files urls e) ->
  e = expiry ctx
  /\ (exists new, images (handler env cfg req w).1 = images w ++ new
                  /\ length urls = length new)
  /\ Forall (fun url => exists d name,
               d ∈ User.domains (user ctx)
               /\ url = d +:+ route cfg +:+ "/" +:+ name) urls.
Proof.
  intros Hv Hcr Hdom Hrand. rewrite (handler_whole _ _ _ _ _ Hv Hcr).
  destruct (whole_upload_ledger env cfg ctx req w)
    as (w' & o & new & links & t & -> & Hi & _ & _ & _ & _ & _ & Hurl).
  simpl. intros ->. destruct (Hurl urls e eq_refl) as (-> & Hlen & Hall).
  split; [done|]. split; [by exists new|].
  eapply Forall_impl; [exact Hall|]. intros url (k & name & ->).
  assert (Hpos : (0 < length (User.domains (user ctx)))%nat).
  { destruct (User.domains (user ctx)); [done|simpl; lia]. }
  assert (Hb : (0 <? length (User.domains (user ctx)))%nat = true)
    by by apply Nat.ltb_lt.
  rewrite Hb. specialize (Hrand k _ Hpos).
  destruct (lookup_lt_is_Some_2 _ _ Hrand) as [d Hd].
  exists d, name. rewrite Hd. split; [|done]. by eapply list_elem_of_lookup_2.
Qed.

(** ** The last chunk consumes the chunks *)

Lemma ingest_reassembled_disabled env cfg ctx req chunks w filename :
  headers req !! "x-zipline-partial-filename" = Some filename ->
  disabled cfg (ext_of filename) = true ->
  ingest_reassembled env cfg ctx req chunks w
  = (w, Exit (Responded (error ("disabled extension recieved: "
                                +:+ tpl (ext_of filename))))).
Proof.
  intros Hname Hext. unfold ingest_reassembled. rewrite Hname.
  rewrite (bind_next (B:=NextApiRes) (defined (Some filename)) _ w w filename eq_refl).
  rewrite Hext. step_if_goal. reflexivity.
Qed.

(** When the last chunk of an upload arrives and the chunks stored under the
    prefix of its identifier fit in the declared total, every file under
    that prefix is gone from the temporary directory afterwards and the
    other files are as before, whatever the answer is.  In particular an
    upload whose file name has a disabled extension is refused only then:
    no record, no blob, and the chunks are lost.  This is stated where the
    model is the program: the identifier holds no path separator and the
    host accepts the write of the chunk, so that the chunk is an entry of
    the temporary directory; the host allocates a buffer of the declared
    total; and the runtime reads the numbers of the header, and the start in
    the name of every stored chunk of the identifier, as this fragment
    does. *)
Theorem last_chunk_consumes_the_chunks_whatever_the_answer
    env cfg req w ctx f fs t :
  (forall l, readdir_order env l ≡ₚ l) ->
  validate env req w = (w, Next ctx) ->
  truthy (headers req !! "content-range") = true ->
  files req = Some (f :: fs) ->
  headers req !! "x-zipline-partial-lastchunk" = Some "true" ->
  content_range req !! 2%nat = Some (Num t) ->
  0 <= t ->
  t <= longest env ->
  let identifier := headers req !! "x-zipline-partial-identifier" in
  "/"%char ∉ chars (tpl identifier) ->
  fs_refuses env (tempFile env identifier (content_range req !! 0%nat)
                           (content_range req !! 1%nat)) = None ->
  fields_exact 3 req = true ->
  let w1 := with_tmpdir (<[chunk_key req := MulterFile.buffer f]> (tmpdir w)) w in
  forallb (fits t) (stored_chunks identifier (tmpdir w1)) = true ->
  forallb (fun kv => start_exact kv.1) (stored_chunks identifier (tmpdir w1)) = true ->
  (forall k, tmpdir (handler env cfg req w).1 !! k
             = if startsWith k (partial_prefix identifier)
               then None else tmpdir w !! k)
  /\ (forall filename,
        headers req !! "x-zipline-partial-filename" = Some filename ->
        disabled cfg (ext_of filename) = true ->
        (handler env cfg req w).2
        = Responded (error ("disabled extension recieved: "
                            +:+ tpl (ext_of filename)))
        /\ images (handler env cfg req w).1 = images w
        /\ datasource (handler env cfg req w).1 = datasource w).
Proof.
  intros Hperm Hv Hcr Hfs Hlast Ht Ht0 Hlong identifier Hid Hok _ w1 Hfits _.
  destruct (reassemble_run env identifier t w1 Hperm Ht0 Hlong Hfits)
    as (buf & m' & Hre & Hm' & _).
  assert (Hrun : handler env cfg req w
                 = outcome_of (ingest_reassembled env cfg ctx req buf) (with_tmpdir m' w1)).
  { rewrite (last_chunk_steps env cfg req w ctx f fs Hv Hcr Hfs Hlast Hid Hok).
    rewrite Ht. fold identifier w1. unfold outcome_of.
    by rewrite (bind_next (B:=NextApiRes) _ _ _ _ _ Hre). }
  rewrite Hrun. split.
  - intros k.
    destruct (ingest_reassembled_run env cfg ctx req buf (with_tmpdir m' w1))
      as (w' & s & tr & new & Hin & Htmp & _).
    unfold outcome_of. rewrite Hin.
    assert (Hw : tmpdir (let (w'0, s0) := (w', s) in
                         match s0 with
                         | Next r => (w'0, Responded r)
                         | Exit o => (w'0, o)
                         end).1 = tmpdir w') by by destruct s.
    rewrite Hw, Htmp. simpl. rewrite Hm'. simpl.
    destruct (startsWith k (partial_prefix identifier)) eqn:Hp; [done|].
    apply lookup_insert_ne. intros <-.
    unfold chunk_key in Hp. fold identifier in Hp.
    by rewrite chunk_name_startsWith in Hp.
  - intros filename Hname Hext. unfold outcome_of.
    by rewrite (ingest_reassembled_disabled _ _ _ _ _ _ _ Hname Hext).
Qed.


(** ** The names of the chunks, read back *)

Lemma split_chunk_name (identifier : string) (s e : option jsnum) :
  "_"%char ∉ chars identifier ->
  split "_" (chunk_name (Some identifier) s e)
  = ["zipline"; "partial"; identifier; tpl_num s; tpl_num e].
Proof.
  intros Hid. unfold chunk_name. cbn [tpl].
  change ("zipline_partial_" +:+ identifier +:+ "_" +:+ tpl_num s +:+ "_"
          +:+ tpl_num e)
    with ("zipline" +:+ String "_" ("partial" +:+ String "_" (identifier
          +:+ String "_" (tpl_num s +:+ String "_" (tpl_num e))))).
  rewrite (split_app_nosep "_" _ "zipline").
  2:{ simpl. repeat (apply not_elem_of_cons; split; [done|]). apply not_elem_of_nil. }
  rewrite (split_app_nosep "_" _ "partial").
  2:{ simpl. repeat (apply not_elem_of_cons; split; [done|]). apply not_elem_of_nil. }
  rewrite (split_app_nosep "_" _ identifier) by done.
  rewrite (split_app_nosep "_" _ (tpl_num s)) by apply tpl_num_chars.
  by rewrite (split_nosep "_" (tpl_num e)) by apply tpl_num_chars.
Qed.

(** For an identifier without underscore, the loop reads back from the name
    of a chunk the start and the end the name was built from. *)
Theorem chunk_name_round_trip (identifier : string) (s e : Z) :
  "_"%char ∉ chars identifier ->
  readChunk (chunk_name (Some identifier) (Some (Num s)) (Some (Num e)))
  = {| start := Num s; end_ := Num e;
       filename := chunk_name (Some identifier) (Some (Num s)) (Some (Num e)) |}.
Proof.
  intros Hid. unfold readChunk. rewrite (split_chunk_name _ _ _ Hid).
  cbn [lookup list_lookup Number_opt tpl_num]. by rewrite !Number_toString.
Qed.

(** The path of line 74 for a crafted identifier: with [x/../] in front of
    the name of another upload, the join steps into a directory and out
    again, and the path is the file of that other upload. *)
Lemma tempFile_traversal env (identifier : option string) (s e : option jsnum) :
  "/"%char ∉ chars (tpl identifier) ->
  tempFile env (Some ("x/../zipline_partial_" +:+ tpl identifier)) s e
  = tempFile env identifier s e.
Proof.
  intros Hid. rewrite (tempFile_entry env identifier s e Hid).
  unfold tempFile, join.
  assert (Hname : chunk_name (Some ("x/../zipline_partial_" +:+ tpl identifier)) s e
                  = "zipline_partial_x" +:+ String "/" (".."
                      +:+ String "/" (chunk_name identifier s e))).
  { unfold chunk_name. cbn [tpl]. by rewrite (append_assoc "x/../zipline_partial_"). }
  rewrite Hname.
  rewrite (split_app_nosep "/" _ "zipline_partial_x").
  2:{ simpl. repeat (apply not_elem_of_cons; split; [done|]). apply not_elem_of_nil. }
  rewrite (split_app_nosep "/" _ "..").
  2:{ simpl. repeat (apply not_elem_of_cons; split; [done|]). apply not_elem_of_nil. }
  pose proof (tempFile_entry env identifier s e Hid) as Hplain.
  unfold tempFile, join in Hplain.
  cbn [walk String.eqb Ascii.eqb Bool.eqb orb tail]. exact Hplain.
Qed.

(** For identifiers without path separator, two chunks are written to the
    same file exactly when they agree on the identifier as it is written in
    the name (a request without identifier header writes its identifier as
    [undefined]), on the start and on the end.  With a separator this
    fails: the join of line 74 sends a crafted identifier to the file of
    another upload. *)
Theorem chunk_names_coincide_only_for_the_same_chunk env
    (identifier identifier' : option string) (s e s' e' : option jsnum) :
  "/"%char ∉ chars (tpl identifier) ->
  "/"%char ∉ chars (tpl identifier') ->
  (tempFile env identifier s e = tempFile env identifier' s' e'
   <-> tpl identifier = tpl identifier' /\ s = s' /\ e = e')
  /\ tempFile env (Some ("x/../zipline_partial_" +:+ tpl identifier)) s e
     = tempFile env identifier s e.
Proof.
  intros Hid Hid'. split; [|by apply tempFile_traversal].
  rewrite (tempFile_entry env identifier s e Hid),
    (tempFile_entry env identifier' s' e' Hid').
  split.
  - intros H. apply app_inv_head in H. apply (f_equal head) in H.
    cbn [head] in H. apply (inj Some) in H. by apply chunk_name_inj.
  - intros (Hi & -> & ->). unfold chunk_name. by rewrite Hi.
Qed.

(** ** The file name under the format NAME *)

Lemma split_first (c : ascii) (stem rest : string) :
  c ∉ chars stem -> split c (stem +:+ String c rest) !! 0%nat = Some stem.
Proof. intros H. by rewrite split_app_nosep. Qed.

(** Under the format [NAME] the stored name of a file of a whole upload is
    the first dot-separated segment of its original name, a dot, and the
    last segment (or [jpg] when the file is recompressed): the segments in
    between are dropped, and a name without dot is stored as the name, a
    dot, and the name again. *)
Theorem name_format_keeps_the_first_and_the_last_segment
    env cfg ctx req i f w w' url (stem : string) (rest : option string) :
  format ctx = Some NAME ->
  "."%char ∉ chars stem ->
  MulterFile.originalname f
  = match rest with
    | Some r => stem +:+ "." +:+ r
    | None => stem
    end ->
  upload_file env cfg ctx req i f w = (w', Next url) ->
  exists img,
    images w' = images w ++ [img]
    /\ Image.file img
       = stem +:+ "."
         +:+ (if compressionUsed ctx (MulterFile.mimetype f) then "jpg"
              else match rest with
                   | Some r => tpl (ext_of r)
                   | None => stem
                   end).
Proof.
  intros Hfmt Hstem Hname Hrun.
  destruct (offending cfg (user ctx) f) eqn:Hoff.
  { destruct (upload_file_offending env cfg ctx req i f w Hoff) as [msg H].
    rewrite H in Hrun. discriminate. }
  destruct (upload_file_ingests env cfg ctx req i f w Hoff)
    as (w1 & url1 & pre & post & H & _ & _ & Himg & _).
  rewrite H in Hrun. injection Hrun as <- <-.
  eexists. split; [exact Himg|]. cbn [Image.file].
  rewrite Hfmt. unfold resolve_fileName, ext_of, pop. rewrite Hname.
  destruct rest as [r|].
  - change (stem +:+ "." +:+ r) with (stem +:+ String "." r).
    by rewrite split_first, last_split_app_sep.
  - by rewrite split_nosep.
Qed.

(** ** The format selector *)

Lemma toUpperCase_empty s : toUpperCase s = "" <-> s = "".
Proof. by destruct s. Qed.

(** The format header selects a member of [ImageFormat] exactly when its
    upper-case form is the key of the member; a missing or empty header
    selects [RANDOM]. *)
Theorem format_selector_is_matched_in_upper_case (h : option string) (f : ImageFormat) :
  parse_format h = Some f
  <-> toUpperCase (default "" h) = format_name f
      \/ (default "" h = "" /\ f = RANDOM).
Proof.
  unfold parse_format, rawFormat.
  destruct (String.eqb_spec (toUpperCase (default "" h)) "") as [He|Hne].
  { pose proof (proj1 (toUpperCase_empty _) He) as He'. rewrite He'. cbn. split.
    - intros [= <-]. by right.
    - intros [H|[_ ->]]; [by destruct f|done]. }
  unfold ImageFormat_keys, ImageFormat_get. cbn [existsb].
  destruct (String.eqb_spec (toUpperCase (default "" h)) "UUID") as [->|H1];
    [split; [intros [= <-]; by left|intros [H|[H _]]; [by destruct f|]];
     by rewrite H in Hne|].
  destruct (String.eqb_spec (toUpperCase (default "" h)) "DATE") as [->|H2];
    [split; [intros [= <-]; by left|intros [H|[H _]]; [by destruct f|]];
     by rewrite H in Hne|].
  destruct (String.eqb_spec (toUpperCase (default "" h)) "RANDOM") as [->|H3];
    [split; [intros [= <-]; by left|intros [H|[H _]]; [by destruct f|]];
     by rewrite H in Hne|].
  destruct (String.eqb_spec (toUpperCase (default "" h)) "NAME") as [->|H4];
    [split; [intros [= <-]; by left|intros [H|[H _]]; [by destruct f|]];
     by rewrite H in Hne|].
  cbn. split; [done|]. intros [H|[H _]]; [by destruct f|]. by rewrite H in Hne.
Qed.
(** ** The content-range header *)

Lemma substring_all s : String.substring 0 (String.length s) s = s.
Proof. induction s as [|a s IH]; [done|]. simpl. by rewrite IH. Qed.

Lemma replace_eq pat rep s :
  replace pat rep s
  = if String.prefix pat s
    then rep +:+ String.substring (String.length pat)
                   (String.length s - String.length pat)%nat s
    else match s with
         | EmptyString => EmptyString
         | String a s' => String a (replace pat rep s')
         end.
Proof. by destruct s. Qed.

(** [replace] with a one-character pattern rewrites the first occurrence. *)
Lemma replace_char (c : ascii) (rep s2 : string) : forall s1,
  c ∉ chars s1 ->
  replace (String c "") rep (s1 +:+ String c s2) = s1 +:+ rep +:+ s2.
Proof.
  induction s1 as [|a s1 IH]; intros Hc.
  - change ("" +:+ String c s2) with (String c s2). rewrite replace_eq.
    cbn [String.prefix]. destruct (ascii_dec c c) as [_|Hne]; [|done].
    assert (Hp : String.prefix "" s2 = true) by by destruct s2.
    rewrite Hp. cbn [String.length String.substring Nat.sub].
    rewrite Nat.sub_0_r, substring_all. done.
  - simpl in Hc. apply not_elem_of_cons in Hc as [Hne Hc].
    rewrite append_cons, replace_eq. cbn [String.prefix].
    destruct (ascii_dec c a) as [Heq|_]; [by destruct Hne|].
    rewrite IH by done. by rewrite append_cons.
Qed.

Lemma is_digit_chars (c : ascii) (s : string) :
  is_digit c = false -> Forall (fun a => is_digit a = true) (chars s) -> c ∉ chars s.
Proof.
  intros Hc Hall Hin. rewrite Forall_forall in Hall. apply Hall in Hin. congruence.
Qed.

Lemma uint_digits (d : uint) :
  Forall (fun a => is_digit a = true) (chars (NilEmpty.string_of_uint d)).
Proof. induction d; simpl; by constructor. Qed.

(** The decimal form of a number that is not negative consists of digits. *)
Lemma toString_digits (z : Z) :
  0 <= z -> Forall (fun a => is_digit a = true) (chars (toString (Num z))).
Proof.
  intros Hz. unfold toString.
  assert (Hu : forall d, Forall (fun a => is_digit a = true)
                                (chars (NilZero.string_of_uint d))).
  { intros d. pose proof (uint_digits d) as H. destruct d; try done.
    simpl. by repeat constructor. }
  destruct z as [|p|p]; [apply Hu|apply Hu|lia].
Qed.

(** A header [bytes s-e/t] of three integers from 0 to below 2^53, written
    in decimal, is read back as these numbers, and the runtime reads it as
    this fragment does. *)
Theorem content_range_round_trip (req : NextApiReq) (s e t : Z) :
  0 <= s < 2 ^ 53 -> 0 <= e < 2 ^ 53 -> 0 <= t < 2 ^ 53 ->
  headers req !! "content-range"
  = Some ("bytes " +:+ toString (Num s) +:+ "-" +:+ toString (Num e)
          +:+ "/" +:+ toString (Num t)) ->
  content_range req = [Num s; Num e; Num t]
  /\ fields_exact 3 req = true.
Proof.
  intros [Hs Hs'] [He He'] [Ht Ht'] Hh.
  assert (Hsafe : forall z, 0 <= z < 2 ^ 53 -> exact (toString (Num z)) = true).
  { intros z [Hz Hz']. unfold exact. rewrite Number_toString. unfold safe.
    apply andb_true_intro. split; [apply Z.ltb_lt|apply Z.ltb_lt]; lia. }
  cut (content_range_fields req
       = [toString (Num s); toString (Num e); toString (Num t)]).
  { intros Hf. unfold content_range, fields_exact. rewrite Hf. split.
    - cbn [map]. by rewrite !Number_toString.
    - cbn [take forallb]. by rewrite !Hsafe. }
  unfold content_range_fields. rewrite Hh. cbn [tpl].
  set (ds := toString (Num s)). set (de := toString (Num e)).
  set (dt := toString (Num t)).
  assert (H1 : replace "bytes " "" ("bytes " +:+ ds +:+ "-" +:+ de +:+ "/" +:+ dt)
               = ds +:+ String "-" (de +:+ "/" +:+ dt)).
  { rewrite replace_eq.
    change ("bytes " +:+ ds +:+ "-" +:+ de +:+ "/" +:+ dt)
      with (String "b" (String "y" (String "t" (String "e" (String "s" (String " "
              (ds +:+ String "-" (de +:+ "/" +:+ dt)))))))).
    cbn [String.prefix]. repeat (destruct (ascii_dec _ _) as [_|Hne]; [|done]).
    assert (Hp : String.prefix "" (ds +:+ String "-" (de +:+ "/" +:+ dt)) = true)
      by by destruct (ds +:+ _).
    rewrite Hp. cbn [String.length String.substring Nat.sub].
    by rewrite Nat.sub_0_r, substring_all. }
  rewrite H1.
  rewrite (replace_char "-" "/" (de +:+ "/" +:+ dt) ds).
  2:{ apply is_digit_chars; [done|]. by apply toString_digits. }
  change (ds +:+ "/" +:+ de +:+ "/" +:+ dt)
    with (ds +:+ String "/" (de +:+ String "/" dt)).
  rewrite (split_app_nosep "/" _ ds).
  2:{ apply is_digit_chars; [done|]. by apply toString_digits. }
  rewrite (split_app_nosep "/" _ de).
  2:{ apply is_digit_chars; [done|]. by apply toString_digits. }
  rewrite (split_nosep "/" dt).
  2:{ apply is_digit_chars; [done|]. by apply toString_digits. }
  reflexivity.
Qed.

(** ** Requests without file part *)

(** A chunk request without file part is not answered: reading
    [req.files[0].buffer] raises a TypeError before anything is written. *)
Theorem chunk_without_file_part_raises env cfg req w ctx :
  validate env req w = (w, Next ctx) ->
  truthy (headers req !! "content-range") = true ->
  files req = None \/ files req = Some [] ->
  handler env cfg req w = (w, Thrown TypeError).
Proof.
  intros Hv Hcr Hfs. rewrite (handler_partial _ _ _ _ _ Hv Hcr).
  unfold outcome_of, partial_upload, first_buffer.
  by destruct Hfs as [-> | ->].
Qed.

(** A whole upload without files is refused with [no files], but only after
    the cooldown check: a cooldown in force answers first, and a cooldown
    that has passed is cleared although the request is refused. *)
Theorem upload_without_files_is_refused_after_the_cooldown_check env cfg req w ctx :
  validate env req w = (w, Next ctx) ->
  truthy (headers req !! "content-range") = false ->
  files req = None \/ files req = Some [] ->
  handler env cfg req w
  = match User.ratelimit (user ctx) with
    | Some t =>
        if t - Date_now_entry env <=? 0
        then ((user_update (User.id (user ctx)) None w).1, Responded (error "no files"))
        else (w, Responded (ratelimited (t - Date_now_entry env)))
    | None => (w, Responded (error "no files"))
    end.
Proof.
  intros Hv Hcr Hfs. rewrite (handler_whole _ _ _ _ _ Hv Hcr).
  unfold outcome_of, whole_upload, ratelimit_entry, ingest_batch.
  destruct (User.ratelimit (user ctx)) as [t|].
  - destruct (t - Date_now_entry env <=? 0); [|done].
    unfold mbind, M_bind. simpl. by destruct Hfs as [-> | ->].
  - unfold mbind, M_bind, mret, M_ret. by destruct Hfs as [-> | ->].
Qed.

(** * Properties of the Discord OAuth handler *)

(** The handler reaches the network only for a request that carries a code,
    with the registration enabled and the client configured; every other
    request is answered from the configuration alone. *)
Theorem discord_calls_nothing_before_the_gates env cfg q :
  (Discord.handler env cfg q).1 = []
  <-> Discord.features_oauth_registration cfg = false
      \/ Discord.notNull env (Discord.oauth_discord_client_id cfg)
                             (Discord.oauth_discord_client_secret cfg) = false
      \/ truthy (Discord.code q) = false.
Proof.
  unfold Discord.handler.
  destruct (Discord.features_oauth_registration cfg); cbn [negb]; [|by split; auto].
  destruct (Discord.notNull env _ _); cbn [negb]; [|by split; auto].
  destruct (truthy (Discord.code q)); cbn [negb]; [|by split; auto].
  split; [|by intros [?|[?|?]]].
  intros H. exfalso.
  destruct (Discord.ok _); cbn [negb] in H; [|done].
  destruct (truthy (Discord.access_token _)); cbn [negb] in H; [|done].
  destruct (truthy (Discord.refresh_token _)); cbn [negb] in H; [|done].
  by destruct (Discord.oauth_user env _).
Qed.

(** The calls are made in one order: the token request, built from the code
    and the configuration; then the user request, only with an access token
    of an [ok] answer that also has a refresh token; then the avatar, only
    for the user that request returned. *)
Theorem discord_calls_are_made_in_order env cfg q :
  let resp := Discord.fetch env (Discord.token_request cfg q) in
  let calls := (Discord.handler env cfg q).1 in
  (calls <> [] -> calls !! 0%nat = Some (Discord.FetchToken (Discord.token_request cfg q)))
  /\ (forall n tok, calls !! n = Some (Discord.OauthUser tok) ->
        n = 1%nat /\ Discord.ok resp = true
        /\ Discord.access_token resp = Some tok /\ tok <> ""
        /\ truthy (Discord.refresh_token resp) = true)
  /\ (forall n url, calls !! n = Some (Discord.GetAvatar url) ->
        n = 2%nat
        /\ exists u, Discord.oauth_user env (tpl (Discord.access_token resp)) = Some u
                     /\ url = Discord.avatar_url u).
Proof.
  intros resp calls. subst calls. unfold Discord.handler. fold resp.
  destruct (Discord.features_oauth_registration cfg); cbn [negb fst];
    [|by repeat split].
  destruct (Discord.notNull env _ _); cbn [negb fst]; [|by repeat split].
  destruct (truthy (Discord.code q)); cbn [negb fst]; [|by repeat split].
  destruct (Discord.ok resp); cbn [negb fst].
  2:{ split; [done|]. split; intros [|[|n]] x; simpl; by intros [=]. }
  destruct (Discord.access_token resp) as [tok|] eqn:Htok; cbn [truthy].
  2:{ cbn [negb fst]. split; [done|]. split; intros [|[|n]] x; simpl; by intros [=]. }
  destruct (String.eqb_spec tok "") as [->|Hne]; cbn [negb fst].
  { split; [done|]. split; intros [|[|n]] x; simpl; by intros [=]. }
  destruct (truthy (Discord.refresh_token resp)) eqn:Hrt; cbn [negb fst].
  2:{ split; [done|]. split; intros [|[|n]] x; simpl; by intros [=]. }
  cbn [tpl]. destruct (Discord.oauth_user env tok) as [u|]; cbn [fst].
  - split; [done|]. split.
    + intros [|[|[|n]]] x; simpl; intros [=]. by subst.
    + intros [|[|[|n]]] x; simpl; intros [=]. subst. split; [done|]. by exists u.
  - split; [done|]. split.
    + intros [|[|n]] x; simpl; intros [=]. by subst.
    + intros [|[|n]] x; simpl; by intros [=].
Qed.

(** The handler returns a user exactly when every gate is passed, and then
    it returns the name Discord gave, the avatar fetched for that user and
    the two tokens as they were received. *)
Theorem discord_login_succeeds_exactly_when env cfg q name avatar access refresh :
  (Discord.handler env cfg q).2 = Discord.res_user name avatar access refresh
  <-> Discord.features_oauth_registration cfg = true
      /\ Discord.notNull env (Discord.oauth_discord_client_id cfg)
                             (Discord.oauth_discord_client_secret cfg) = true
      /\ truthy (Discord.code q) = true
      /\ Discord.ok (Discord.fetch env (Discord.token_request cfg q)) = true
      /\ Discord.access_token (Discord.fetch env (Discord.token_request cfg q)) = Some access
      /\ access <> ""
      /\ Discord.refresh_token (Discord.fetch env (Discord.token_request cfg q)) = Some refresh
      /\ refresh <> ""
      /\ exists u, Discord.oauth_user env access = Some u
                   /\ name = Discord.username u
                   /\ avatar = Discord.getBase64URLFromURL env (Discord.avatar_url u).
Proof.
  unfold Discord.handler.
  set (resp := Discord.fetch env (Discord.token_request cfg q)).
  destruct (Discord.features_oauth_registration cfg); cbn [negb snd];
    [|by split; [|intros (? & _)]].
  destruct (Discord.notNull env _ _); cbn [negb snd];
    [|by split; [|intros (_ & ? & _)]].
  destruct (truthy (Discord.code q)); cbn [negb snd];
    [|by split; [|intros (_ & _ & ? & _)]].
  destruct (Discord.ok resp); cbn [negb snd];
    [|by split; [|intros (_ & _ & _ & ? & _)]].
  destruct (Discord.access_token resp) as [tok|]; cbn [truthy negb snd];
    [|by split; [|intros (_ & _ & _ & _ & ? & _)]].
  destruct (String.eqb_spec tok "") as [->|Hne]; cbn [negb snd].
  { split; [done|]. intros (_ & _ & _ & _ & [= <-] & ? & _). done. }
  destruct (Discord.refresh_token resp) as [tok2|]; cbn [truthy negb snd];
    [|by split; [|intros (_ & _ & _ & _ & _ & _ & ? & _)]].
  destruct (String.eqb_spec tok2 "") as [->|Hne2]; cbn [negb snd].
  { split; [done|]. intros (_ & _ & _ & _ & _ & _ & [= <-] & ? & _). done. }
  cbn [tpl]. destruct (Discord.oauth_user env tok) as [u|] eqn:Hu; cbn [snd].
  - split.
    + intros [= <- <- <- <-]. do 8 (split; [done|]). by exists u.
    + intros (_ & _ & _ & _ & [= <-] & _ & [= <-] & _ & u' & Hu' & -> & ->).
      rewrite Hu in Hu'. by injection Hu' as <-.
  - split; [done|].
    intros (_ & _ & _ & _ & [= <-] & _ & _ & _ & u' & Hu' & _). congruence.
Qed.

(** For a user without avatar whose discriminator is an integer from 0 to
    below 2^53, which the runtime reads as this fragment does, the avatar
    fetched is one of the five default avatars of Discord, the one of index
    discriminator modulo 5. *)
Theorem discord_default_avatar_is_one_of_five (u : Discord.UserJson) (z : Z) :
  truthy (Discord.avatar u) = false ->
  Number (Discord.discriminator u) = Num z ->
  0 <= z < 2 ^ 53 ->
  exact (Discord.discriminator u) = true
  /\ Discord.avatar_url u
     = "https://cdn.discordapp.com/embed/avatars/" +:+ toString (Num (z mod 5))
       +:+ ".png"
  /\ toString (Num (z mod 5)) ∈ ["0"; "1"; "2"; "3"; "4"].
Proof.
  intros Ha Hd [Hz Hz']. split.
  { unfold exact. rewrite Hd. unfold safe.
    apply andb_true_intro. split; [apply Z.ltb_lt|apply Z.ltb_lt]; lia. }
  unfold Discord.avatar_url, Discord.mod5. rewrite Ha, Hd.
  rewrite Z.rem_mod_nonneg by lia. split; [done|].
  assert (Hr : 0 <= z mod 5 < 5) by (apply Z.mod_pos_bound; lia).
  assert (Hcases : z mod 5 = 0 \/ z mod 5 = 1 \/ z mod 5 = 2 \/ z mod 5 = 3
                   \/ z mod 5 = 4) by lia.
  destruct Hcases as [->|[->|[->|[->| ->]]]]; cbn.
  - apply elem_of_cons. by left.
  - do 1 (apply elem_of_cons; right). apply elem_of_cons. by left.
  - do 2 (apply elem_of_cons; right). apply elem_of_cons. by left.
  - do 3 (apply elem_of_cons; right). apply elem_of_cons. by left.
  - do 4 (apply elem_of_cons; right). apply elem_of_cons. by left.
Qed.

(** * The further properties at concrete requests *)

(** A request with a token no user has is refused and changes nothing. *)
Lemma malformed_requests_change_nothing_witness :
  exists r,
    handler env0 cfg0 unknown_token w0 = (w0, Responded r)
    /\ rejected r = true
    /\ (forall remaining, r <> ratelimited remaining).
Proof.
  apply (malformed_requests_change_nothing env0 cfg0 unknown_token w0).
  right. right. left. by vm_compute.
Defined.

(** A whole upload of one image is answered. *)
Lemma whole_uploads_are_always_answered_witness :
  exists r,
    (handler env0 cfg0 (one_png "tok-a" []) w0).2 = Responded r /\ r <> json_success.
Proof.
  apply (whole_uploads_are_always_answered env0 cfg0 (one_png "tok-a" []) w0).
  by vm_compute.
Defined.

(** The batch whose second file has a disabled extension is refused with the
    error of the file of index 1, after the first file has been recorded. *)
Lemma error_names_the_first_offending_file_witness :
  exists w' new,
    handler env0 cfg0 batch_with_exe w0
    = (w', Responded (error (refusal cfg0 alice 1 (png "b.exe" [Byte.x02]))))
    /\ images w' = images w0 ++ new
    /\ length new = 1%nat
    /\ Forall (carries (ctx_of alice None) batch_with_exe) new.
Proof.
  apply (error_names_the_first_offending_file env0 cfg0 batch_with_exe w0
           (ctx_of alice None) [png "a.png" [Byte.x01]; png "b.exe" [Byte.x02]] 1
           (png "b.exe" [Byte.x02])); by vm_compute.
Defined.

(** A batch of one image is ingested whole. *)
Lemma clean_batch_is_ingested_whole_witness :
  exists w' urls new,
    handler env0 cfg0 (one_png "tok-a" []) w0
    = (w', Responded (json_files urls (expiry (ctx_of alice None))))
    /\ length urls = 1%nat
    /\ images w' = images w0 ++ new
    /\ length new = 1%nat
    /\ Forall (carries (ctx_of alice None) (one_png "tok-a" [])) new.
Proof.
  apply (clean_batch_is_ingested_whole env0 cfg0 (one_png "tok-a" []) w0
           (ctx_of alice None) [png "a.png" [Byte.x01]]); by vm_compute.
Defined.

(** The administrator, with a cooldown of 3 seconds configured, uploads at
    time 1000: the stored timestamp is 4000. *)
Lemma cooldown_of_an_administrator_is_armed_witness :
  User.ratelimit
    <$> user_findFirst (tpl (headers dave_png !! "authorization"))
          (handler env0 cfg_admin dave_png w_admin).1
  = Some (Some (Date_now_exit env0 + ratelimit_admin cfg_admin * 1000)).
Proof.
  apply (cooldown_of_an_administrator_is_armed env0 cfg_admin dave_png w_admin
           (ctx_of dave None) [png "a.png" [Byte.x01]]); by vm_compute.
Defined.

(** A whole upload into a world that holds a chunk leaves the chunk. *)
Lemma whole_uploads_leave_the_chunks_alone_witness :
  tmpdir (handler env0 cfg0 (one_png "tok-a" []) w_resend).1 = tmpdir w_resend.
Proof.
  apply (whole_uploads_leave_the_chunks_alone env0 cfg0 (one_png "tok-a" []) w_resend).
  by vm_compute.
Defined.

(** The record of an image uploaded with a password, the embed flag and a
    maximum of views carries them. *)
Lemma records_carry_the_options_of_the_request_witness :
  exists new,
    images (handler env0 cfg0 with_options w0).1 = images w0 ++ new
    /\ Forall (carries ctx_options with_options) new
    /\ (truthy (headers with_options !! "content-range") = true -> (length new <= 1)%nat).
Proof.
  apply (records_carry_the_options_of_the_request env0 cfg0 with_options w0 ctx_options).
  by vm_compute.
Defined.

(** The administrator has a domain; a one-chunk upload of the administrator
    is answered on the host of the request. *)
Lemma chunked_upload_is_answered_on_the_host_of_the_request_witness :
  None = @None Z
  /\ exists img,
       images (handler env0 cfg_admin dave_chunk w_admin).1 = images w_admin ++ [img]
       /\ ["https://h/rnd0.png"]
          = [origin cfg_admin dave_chunk +:+ route cfg_admin +:+ "/"
             +:+ (if truthy (headers dave_chunk !! "zws")
                  then createInvis_chars env0 0 (uploader_length cfg_admin)
                  else Image.file img)].
Proof.
  apply (chunked_upload_is_answered_on_the_host_of_the_request env0 cfg_admin
           dave_chunk w_admin (ctx_of dave None) ["https://h/rnd0.png"] None);
    by vm_compute.
Defined.

(** A whole upload of the administrator is answered on the domain of the
    administrator. *)
Lemma whole_upload_is_answered_on_the_domains_of_the_user_witness :
  None = expiry (ctx_of dave None)
  /\ (exists new, images (handler env0 cfg_admin dave_png w_admin).1 = images w_admin ++ new
                  /\ length ["https://d.example/rnd0.png"] = length new)
  /\ Forall (fun url => exists d name,
               d ∈ User.domains (user (ctx_of dave None))
               /\ url = d +:+ route cfg_admin +:+ "/" +:+ name)
            ["https://d.example/rnd0.png"].
Proof.
  apply (whole_upload_is_answered_on_the_domains_of_the_user env0 cfg_admin
           dave_png w_admin (ctx_of dave None) ["https://d.example/rnd0.png"] None);
    by vm_compute.
Defined.

(** The last chunk of an upload named [a.exe]: the request is refused, and
    its chunk is gone. *)
Lemma last_chunk_consumes_the_chunks_whatever_the_answer_witness :
  (forall k, tmpdir (handler env0 cfg0 exe_last w0).1 !! k
             = if startsWith k (partial_prefix (headers exe_last
                                                  !! "x-zipline-partial-identifier"))
               then None else tmpdir w0 !! k)
  /\ (forall filename,
        headers exe_last !! "x-zipline-partial-filename" = Some filename ->
        disabled cfg0 (ext_of filename) = true ->
        (handler env0 cfg0 exe_last w0).2
        = Responded (error ("disabled extension recieved: " +:+ tpl (ext_of filename)))
        /\ images (handler env0 cfg0 exe_last w0).1 = images w0
        /\ datasource (handler env0 cfg0 exe_last w0).1 = datasource w0).
Proof.
  apply (last_chunk_consumes_the_chunks_whatever_the_answer env0 cfg0 exe_last w0
           (ctx_of alice None)
           (MulterFile.mk "blob" "application/octet-stream" [Byte.x03; Byte.x04])
           [] 4);
    first [ by vm_compute | apply (bool_decide_unpack _); by vm_compute ].
Defined.

(** The name of the chunk [0, 2) of the upload [ab] is read back. *)
Lemma chunk_name_round_trip_witness :
  readChunk (chunk_name (Some "ab") (Some (Num 0)) (Some (Num 2)))
  = {| start := Num 0; end_ := Num 2;
       filename := chunk_name (Some "ab") (Some (Num 0)) (Some (Num 2)) |}.
Proof.
  apply (chunk_name_round_trip "ab" 0 2).
  apply (bool_decide_unpack _). by vm_compute.
Defined.

(** The chunks [0, 2) of the uploads [ab] and [abc] are different files of
    [/tmp]; the crafted identifier [x/../zipline_partial_ab] is written to
    the file of the upload [ab]. *)
Lemma chunk_names_coincide_only_for_the_same_chunk_witness :
  (tempFile env0 (Some "ab") (Some (Num 0)) (Some (Num 2))
   = tempFile env0 (Some "abc") (Some (Num 0)) (Some (Num 2))
   <-> tpl (Some "ab") = tpl (Some "abc")
       /\ Some (Num 0) = Some (Num 0) /\ Some (Num 2) = Some (Num 2))
  /\ tempFile env0 (Some ("x/../zipline_partial_" +:+ tpl (Some "ab")))
       (Some (Num 0)) (Some (Num 2))
     = tempFile env0 (Some "ab") (Some (Num 0)) (Some (Num 2)).
Proof.
  apply (chunk_names_coincide_only_for_the_same_chunk env0 (Some "ab") (Some "abc")
           (Some (Num 0)) (Some (Num 2)) (Some (Num 0)) (Some (Num 2)));
    apply (bool_decide_unpack _); by vm_compute.
Defined.

(** [archive.tar.gz] is stored as [archive.gz]. *)
Lemma name_format_keeps_the_first_and_the_last_segment_witness :
  exists img,
    images (upload_file env0 cfg0 ctx_name (whole_req "tok-a" [] [archive]) 0 archive w0).1
    = images w0 ++ [img]
    /\ Image.file img
       = "archive" +:+ "."
         +:+ (if compressionUsed ctx_name (MulterFile.mimetype archive) then "jpg"
              else match Some "tar.gz" with
                   | Some r => tpl (ext_of r)
                   | None => "archive"
                   end).
Proof.
  apply (name_format_keeps_the_first_and_the_last_segment env0 cfg0 ctx_name
           (whole_req "tok-a" [] [archive]) 0 archive w0
           (upload_file env0 cfg0 ctx_name (whole_req "tok-a" [] [archive]) 0 archive w0).1
           "http://h/u/archive.gz" "archive" (Some "tar.gz")).
  - reflexivity.
  - apply (bool_decide_unpack _). by vm_compute.
  - reflexivity.
  - by vm_compute.
Defined.

(** The header of the first half of the upload [ab] is read back. *)
Lemma content_range_round_trip_witness :
  content_range (first_half "ab") = [Num 0; Num 2; Num 4]
  /\ fields_exact 3 (first_half "ab") = true.
Proof.
  apply (content_range_round_trip (first_half "ab") 0 2 4); by vm_compute.
Defined.

(** A login that passes every gate returns the user of Discord. *)
Lemma discord_login_succeeds_exactly_when_witness :
  (Discord.handler discord_env discord_cfg discord_query).2
  = Discord.res_user "erin" "data:https://cdn.discordapp.com/embed/avatars/2.png"
                     "at" "rt".
Proof.
  apply (discord_login_succeeds_exactly_when discord_env discord_cfg discord_query).
  do 8 (split; [done|]). exists erin. by vm_compute.
Defined.

(** The user without avatar of discriminator 0007 gets the default avatar of
    index 2. *)
Lemma discord_default_avatar_is_one_of_five_witness :
  exact (Discord.discriminator erin) = true
  /\ Discord.avatar_url erin
     = "https://cdn.discordapp.com/embed/avatars/" +:+ toString (Num (7 mod 5))
       +:+ ".png"
  /\ toString (Num (7 mod 5)) ∈ ["0"; "1"; "2"; "3"; "4"].
Proof.
  apply (discord_default_avatar_is_one_of_five erin 7); by vm_compute.
Defined.

(** A chunk sent without file part raises. *)
Lemma chunk_without_file_part_raises_witness :
  handler env0 cfg0 no_file_chunk w0 = (w0, Thrown TypeError).
Proof.
  apply (chunk_without_file_part_raises env0 cfg0 no_file_chunk w0 (ctx_of alice None));
    [by vm_compute|by vm_compute|by left].
Defined.

(** [carol], whose cooldown ended at 5000, sends no file at time 6000: the
    request is refused and the cooldown is cleared. *)
Lemma upload_without_files_is_refused_after_the_cooldown_check_witness :
  handler env_late cfg0 (whole_req "tok-c" [] []) w0
  = match User.ratelimit (user (ctx_of carol None)) with
    | Some t =>
        if t - Date_now_entry env_late <=? 0
        then ((user_update (User.id (user (ctx_of carol None))) None w0).1,
              Responded (error "no files"))
        else (w0, Responded (ratelimited (t - Date_now_entry env_late)))
    | None => (w0, Responded (error "no files"))
    end.
Proof.
  apply (upload_without_files_is_refused_after_the_cooldown_check env_late cfg0
           (whole_req "tok-c" [] []) w0 (ctx_of carol None));
    [by vm_compute|by vm_compute|by right].
Defined.
